(* ===== verification/_CoqProject ===== *)
-Q . S2P
Prelude.v
Chars.v
Regex.v
RegexFacts.v
RegexSem.v
StringOps.v
Extractors.v
Normalizer.v
FieldShapes.v
Roundtrip.v
LabelledName.v
Assembler.v
Multer.v
Server.v
Async.v
Scenarios.v
