(* ===== verification/Prelude.v ===== *)
(** * A verification development for OCR-Backend (Aadhaar field extraction)

    The repository is a small Node.js service.
    - [src/src/server.js] receives two images (front and back of an
      identity card) on [POST /upload-aadhar].  It runs Tesseract on each
      ([performOCR]) and normalises the text ([cleanOCRText]: the regex
      replace [/\s+/g -> " "] followed by [trim]).  On that text it runs two
      side-local extractors, [extractAadharNumber] and [extractName].  It
      then hands both sides to [extractAadharDetails] and answers 200 with
      the record, or 500 with ["Processing failed"] when anything throws.
    - [src/src/utils/DetailsExtraction.js] merges the two sides.  The
      number comes from the front, else the back (JavaScript [||]).  The
      name is the inline name, else a labelled [Name:] match.  Date of
      birth and gender come from the front; address and PIN from the
      back.  Every field is a JavaScript regular expression applied with
      [String.prototype.match].

    Every decision the program takes is a regular-expression match, so
    the development models ECMAScript regular expressions themselves.
    Each extractor is then its regex literal plus the string operations
    around it, translated line by line.

    ** Files (in dependency order)
    - [Prelude] (this file): the [js_scope] notations, JavaScript
      truthiness and [||] ([js_or]) on [string | null | undefined], thrown
      errors as the [result] sum with its [let?] notation, [substr]
      ([String.prototype.substring]), the shared list lemmas, the hint
      databases [ocr] and [ocr_rw] and the development's tactics.
    - [Chars]: the character predicates of ECMAScript 2023 §22.2 on 8-bit
      code units: [\d], [\w], [\s] (WhiteSpace and LineTerminator),
      LineTerminator for [.], and [Canonicalize] for the [i] flag.
    - [Regex]: the abstract syntax of the patterns the program uses.
      The backtracking matcher of ECMAScript §22.2.2 is written in
      continuation-passing style, exactly as the standard states it
      ([compile]): [CharacterSetMatcher], the [\b] assertion, capturing
      groups, alternation, and [RepeatMatcher] ([repeat_matcher]) with its
      empty-iteration check and its capture reset.  It also holds
      [RegExpBuiltinExec] ([exec_from], [exec]): the leftmost search from
      [lastIndex] to the length, and [String.prototype.match] ([str_match]).
    - [RegexFacts]: the matcher's invariants.  Continuations are consulted
      only between the start and the end of the input ([local]); a match
      changes only its own capture slots and fills every mandatory group
      ([frame], [sets], [compile_inv]); RepeatMatcher's fuel is adequate
      ([rep_fuel_irrelevant]); exec is leftmost ([exec_correct]); a
      quantified character set is its maximal run ([repeat_greedy_char]).
    - [RegexSem]: a declarative big-step semantics [sem] of the patterns,
      one rule per case of CompileSubpattern, and the refinement
      theorems: the CPS matcher is sound ([compile_sound_cps]) and
      complete ([compile_complete_cps]) for it, so exec fails exactly
      when no position starts a transition ([exec_from_None_iff]).  It
      also builds transitions ([sem_times_intro], [sem_opt_intro]) and
      shows that exec finds the first one ([exec_from_first_sem]).
    - [StringOps]: [String.prototype.trim] (TrimString) and
      [RegExp.prototype[@@replace]] for global regexes and literal
      replacement strings: the exec loop ([collect_matches], with
      AdvanceStringIndex after an empty match) and the splicing
      ([splice]).  The loop's bound is proved adequate
      ([collect_matches_fuel]).
    - [Extractors]: the nine regex literals of the source and one
      definition per extractor function, in two modules, [Server]
      (server.js) and [Details] (DetailsExtraction.js); the PIN extractor
      is characterised by a direct scan.
    - [Normalizer]: [text.replace(/\s+/g, " ").trim()] ([normalize]),
      proved equal to the direct collapse of white-space runs
      ([collapse_ws]) followed by trimming; its output is canonical, it
      keeps every other code unit, and it is idempotent.
    - [FieldShapes]: [replace(/\s/g, "")] removes exactly the white space;
      the shape of each returned field read off [sem]: a 12-digit number,
      a [DD/MM/YYYY] date, a gender among Male/Female/Other up to case,
      an inline name of two capitalised words, a labelled name of letters
      and spaces, an address made of its two labelled fragments.
    - [Roundtrip]: the document number printed in groups of four comes
      back from [extractAadharNumber] as its twelve digits; a date
      [dd/mm/yyyy] printed before it makes the year the start of the
      number instead.  Both are read off one lemma,
      [extractAadharNumber_at]: a transition from [P] and none before it
      gives the first twelve digits from [P].
    - [LabelledName]: the labelled [Name:] fallback of [extractName]
      computed on every text where the inline name fails: the whole run
      of letters and white space after the first label, trimmed.  Its
      proofs chain continuations through a sequence ([run_seq]).
    - [Assembler]: [cleanOCRText], the [RecognizedSide] record it
      returns ([Side.t]), and [extractAadharDetails] with its record
      ([Rec.t]).
    - [Multer]: the upload middleware of server.js:12-29: the parts of
      the multipart body ([part]), [memoryStorage], [fileFilter], the
      size limit and [upload.fields], with multer's processing of the
      parts ([multer_fields]) and its invariant.
    - [Server]: the upload handler.  It is written in an error and state
      monad (ExtLib [eitherT js_error (state trace)]); the trace records
      the OCR calls and survives a throw.  The OCR engine is an interface
      ([OcrEngine] class) that the handler's theorems are proved against.
      [app_upload] composes the route: multer, the error middleware, the
      handler.
    - [Async]: the handler as an asynchronous request machine cut at its
      two awaits ([on_received], [on_front], [on_back]), whose OCR jobs
      settle with any outcome ([req_succ]).  Its omnisemantics steps are
      used with coqutil's [eventually] and [always].  The source keeps no
      state shared between requests, so the event loop's interleaving of
      several requests is not modelled apart.
    - [Scenarios]: the specification's testable examples evaluated by
      [vm_compute] on the model (checks of the model, not claims).

    ** What is proved (see PROJECT.json for the list of claims)
    - The regex engine refines a declarative semantics (sound and
      complete at the level of exec); RepeatMatcher's fuel and the
      replace loop's bound never cut a search short; exec returns the
      leftmost match, inside the input, with every mandatory group set.
    - The normaliser equals a direct collapse-and-trim; its output has
      single spaces between non-space code units only; it is idempotent
      and keeps the non-space text.
    - Extractors: the PIN is the first standalone six-digit run (an
      if-and-only-if with a scanning definition); a returned number is 12
      digits, a returned date is [DD/MM/YYYY], a returned gender is one
      of the three words up to case; names and addresses have the shape
      of their patterns, and an address needs both of its labels; the
      labelled name is the whole letter-and-space run after [Name:], so
      it takes the words after the name and can be empty.
    - Assembler: it never throws; the precedence rules (front before back
      for the number; inline name before labelled name); the fixed source
      side of every other field; the record built from two normalised
      sides has the DocumentRecord formats of the specification.
    - Server: an OCR fault on either side yields a 500 with
      ["Processing failed"] and no record; the back image is not
      recognised when the front fails, since the awaits are sequential;
      success yields 200 with exactly the assembled record; the handler
      never throws and calls the engine at most twice; uploads rejected
      by multer reach the error middleware, and a file part of another
      type than JPEG or PNG, wherever it comes, means a 500 and no OCR
      call; what multer lets through is
      at most one JPEG or PNG file per declared field within the size
      limit, with a buffer whose length is its size; the OCR engine
      only ever receives such a buffer.
    - Async: every request is answered whatever its jobs return
      (liveness); a request starts at most two jobs, front then back.
      The monadic handler and the machine agree on every request
      ([machine_refines_handler]).
    - Round trip: twelve digits printed as [dddd dddd dddd] (any single
      white-space separator, or none) are read back as themselves; with
      a date of birth before them, the year and eight of the digits are
      read instead (a defect of the pattern).

    ** Fuel
    [RepeatMatcher] recurses through continuations, not on a subterm.
    Its fuel is [S (min + (length input - endIndex))]: every iteration
    either lowers [min] or, with [min = 0], advances [endIndex] (the
    empty check).  [RegexFacts.rep_fuel_irrelevant] proves that any
    larger fuel gives the same result, and [compile_complete_cps] uses it
    to show that the fuel never hides a match.  The search loop of [exec]
    needs no fuel beyond its [length + 1] positions, which is what the
    standard does.  The global replace loop uses [length + 2] rounds,
    because [lastIndex] strictly increases; [collect_matches_fuel] proves
    that bound adequate.  The request machine needs no fuel: its
    liveness is an [eventually] proved with the rank of a request's
    phase (3, 2, 1, 0) as the measure; the engine-driven run takes
    exactly three moves.

    ** Not modelled
    - The Tesseract engine itself (an external library; it is a
      parameter of the [Server] model) and the logging calls (they write
      to the console and change no state the program reads).  A failed
      recognition is an error with a message; tesseract.js may reject
      with a plain string, whose [.message] is undefined, so the real
      answer then has no [details]: that case is not modelled.
    - Express routing, CORS and the JSON body parser (lines 1-10 and
      101-106): framework wiring.  The route is modelled from the request
      fields its code reads.
    - busboy's byte-level parsing of the multipart body: a library; the
      model starts from the parts it reports, and multer's processing
      of them is modelled from its documented behaviour.
    - Timing and the interleaving of requests: the request machine says
      in which orders one request's jobs may settle, not when; requests
      share no state, so their interleaving changes no answer.
    - JavaScript strings are UTF-16; the model uses 8-bit code units
      ([ascii]).  On those code units the character classes are exact:
      [\s] includes U+00A0.
    - [String.prototype.replace] is modelled for replacement strings
      without [$] patterns, which are the only ones the source uses. *)

From Stdlib Require Import Ascii String List Bool Arith Lia.
Import ListNotations.

(** ** Notations *)

Declare Scope js_scope.
Delimit Scope js_scope with js.

(** [a <|> b]: the first of two alternatives that succeeds, the way the
    ECMAScript matchers try one continuation and then the next. *)
Definition orelse {A} (a b : option A) : option A :=
  match a with Some x => Some x | None => b end.
Notation "a <|> b" := (orelse a b) (at level 50, left associativity) : js_scope.
Open Scope js_scope.

(** ** JavaScript values *)

(** The values the extractors return: a string, [null] or [undefined]
    (a capture group that did not participate reads as [undefined]). *)
Inductive jsv := JStr (s : string) | JNull | JUndef.

(** A string is truthy when it is not empty; [null] and [undefined] are
    falsy. *)
Definition js_truthy (v : jsv) : bool :=
  match v with
  | JStr s => negb (String.eqb s EmptyString)
  | _ => false
  end.

(** [a || b]: [a] when it is truthy, else [b]. *)
Definition js_or (a b : jsv) : jsv := if js_truthy a then a else b.

(** A thrown JavaScript error: its [name] and [message]. *)
Record js_error := JsError { error_name : string; error_message : string }.

(** A computation that returns a value or throws. *)
Definition result (A : Type) : Type := (js_error + A)%type.

Notation "'let?' x ':=' c 'in' k" :=
  (match c with inr x => k | inl e => inl e end)
  (at level 10, x name, c at level 100, k at level 200) : js_scope.

(** [v.trim]: reading a property of [null] or [undefined] throws. *)
Definition read_property_error (v : jsv) (prop : string) : js_error :=
  JsError "TypeError"
    ("Cannot read properties of " ++ (if v is JNull then "null" else "undefined")
       ++ " (reading '" ++ prop ++ "')").

(** [S.substring(i, j)] for [i <= j], on a list of code units. *)
Definition substr {A} (l : list A) (i j : nat) : list A :=
  firstn (j - i) (skipn i l).

(** ** Generic lemmas *)

Lemma orelse_Some {A} (a b : option A) x :
  (a <|> b) = Some x <-> a = Some x \/ (a = None /\ b = Some x).
Proof. destruct a; simpl; split; intuition congruence. Qed.

Lemma orelse_None {A} (a b : option A) : (a <|> b) = None <-> a = None /\ b = None.
Proof. destruct a; simpl; intuition congruence. Qed.

Lemma js_or_truthy a b : js_truthy a = true -> js_or a b = a.
Proof. unfold js_or. now intros ->. Qed.

Lemma js_or_falsy a b : js_truthy a = false -> js_or a b = b.
Proof. unfold js_or. now intros ->. Qed.

Lemma length_substr {A} (l : list A) i j :
  j <= length l -> length (substr l i j) = j - i.
Proof.
  intros H. unfold substr. rewrite length_firstn, length_skipn. lia.
Qed.

Lemma nth_error_substr {A} (l : list A) i j n :
  n < j - i -> nth_error (substr l i j) n = nth_error l (i + n).
Proof.
  intros H. unfold substr. rewrite nth_error_firstn.
  destruct (Nat.ltb_spec n (j - i)); [|lia].
  now rewrite nth_error_skipn.
Qed.

Lemma skipn_nth_error_cons {A} (l : list A) i c :
  nth_error l i = Some c -> skipn i l = c :: skipn (S i) l.
Proof.
  revert i; induction l as [|a t IH]; intros [|i] H; simpl in *; try discriminate.
  - injection H as ->. reflexivity.
  - apply IH, H.
Qed.

Lemma substr_cons {A} (l : list A) i n c :
  nth_error l i = Some c -> substr l i (i + S n) = c :: substr l (S i) (S i + n).
Proof.
  intros H. unfold substr. rewrite (skipn_nth_error_cons l i c H).
  replace (i + S n - i) with (S n) by lia. replace (S i + n - S i) with n by lia. reflexivity.
Qed.

Lemma string_length_list_ascii (s : string) :
  String.length s = length (list_ascii_of_string s).
Proof. induction s as [|c s IH]; simpl; auto. Qed.

Lemma length_string_of_list_ascii (l : list ascii) :
  String.length (string_of_list_ascii l) = length l.
Proof. induction l as [|c l IH]; simpl; auto. Qed.

Create HintDb ocr discriminated.
Create Rewrite HintDb ocr_rw.
#[export] Hint Rewrite @length_substr using lia : ocr_rw.

(** Case analysis on the [if]s and [match]es of the goal, keeping the
    equation of each. *)
Ltac case_goal :=
  match goal with
  | |- context [match ?e with _ => _ end] =>
      lazymatch e with context [match _ with _ => _ end] => fail | _ => idtac end;
      let E := fresh "E" in destruct e eqn:E
  end.

(** ** Leftmost search over a range *)

Lemma find_seq_Some (f : nat -> bool) n : forall a i,
  find f (seq a n) = Some i <->
  a <= i < a + n /\ f i = true /\ forall l, a <= l < i -> f l = false.
Proof.
  induction n as [|n IH]; intros a i; simpl.
  - split; [discriminate | lia].
  - destruct (f a) eqn:E.
    + split.
      * intros [= <-]. split; [lia|]. split; [exact E|]. intros; lia.
      * intros (B & Fi & L). destruct (Nat.eq_dec a i) as [->|]; [reflexivity|].
        rewrite L in E by lia. discriminate.
    + rewrite IH. split.
      * intros (B & Fi & L). split; [lia|]. split; [exact Fi|].
        intros l Hl. destruct (Nat.eq_dec l a) as [->|]; [exact E | apply L; lia].
      * intros (B & Fi & L). destruct (Nat.eq_dec a i) as [->|]; [congruence|].
        split; [lia|]. split; [exact Fi|]. intros l Hl. apply L. lia.
Qed.

Lemma find_seq_None (f : nat -> bool) n : forall a,
  find f (seq a n) = None <-> forall l, a <= l < a + n -> f l = false.
Proof.
  induction n as [|n IH]; intros a; simpl.
  - split; [intros _ l Hl; lia | reflexivity].
  - destruct (f a) eqn:E.
    + split; [discriminate|]. intros H. rewrite H in E by lia. discriminate.
    + rewrite IH. split.
      * intros H l Hl. destruct (Nat.eq_dec l a) as [->|]; [exact E | apply H; lia].
      * intros H l Hl. apply H. lia.
Qed.

(** ** Substrings *)

(** [f] holds at position [n] of [l]. *)
Definition holds_at {A} (f : A -> bool) (l : list A) (n : nat) : bool :=
  match nth_error l n with Some c => f c | None => false end.

Lemma skipn_substr_app {A} (l : list A) i j :
  i <= j <= length l -> skipn i l = substr l i j ++ skipn j l.
Proof.
  intros H. unfold substr. rewrite <- (firstn_skipn (j - i) (skipn i l)) at 1.
  f_equal. rewrite skipn_skipn. f_equal. lia.
Qed.

Lemma forallb_substr {A} (f : A -> bool) (l : list A) i j :
  j <= length l -> (forall n, i <= n < j -> holds_at f l n = true) ->
  forallb f (substr l i j) = true.
Proof.
  intros Hj H. apply forallb_forall. intros x Hx.
  apply In_nth_error in Hx as [n Hn].
  assert (Hlt : n < length (substr l i j)) by (apply nth_error_Some; congruence).
  unfold substr in Hlt. rewrite length_firstn, length_skipn in Hlt.
  rewrite nth_error_substr in Hn by lia. specialize (H (i + n) ltac:(lia)).
  unfold holds_at in H. rewrite Hn in H. exact H.
Qed.

Lemma substr_to_end {A} (l : list A) i : substr l i (length l) = skipn i l.
Proof. unfold substr. apply firstn_all2. rewrite length_skipn. lia. Qed.

Lemma list_ascii_of_string_inj s t : list_ascii_of_string s = list_ascii_of_string t -> s = t.
Proof.
  intros H. rewrite <- (string_of_list_ascii_of_string s), <- (string_of_list_ascii_of_string t).
  f_equal. exact H.
Qed.

Lemma substr_app {A} (l : list A) i j k :
  i <= j <= k -> substr l i k = substr l i j ++ substr l j k.
Proof.
  intros H. unfold substr. rewrite <- (firstn_skipn (j - i) (firstn (k - i) (skipn i l))).
  rewrite firstn_firstn, skipn_firstn_comm, skipn_skipn.
  replace (Nat.min (j - i) (k - i)) with (j - i) by lia.
  replace (k - i - (j - i)) with (k - j) by lia. replace (j - i + i) with j by lia. reflexivity.
Qed.

Lemma substr_cons_lt {A} (l : list A) i j c :
  i < j -> nth_error l i = Some c -> substr l i j = c :: substr l (S i) j.
Proof.
  intros H E. replace j with (i + S (j - S i)) at 1 by lia. rewrite (substr_cons l i _ c E).
  f_equal. f_equal. lia.
Qed.

Lemma substr_nil {A} (l : list A) i : substr l i i = [].
Proof. unfold substr. rewrite Nat.sub_diag. reflexivity. Qed.

Lemma orelse_not_None_l {A} (a b : option A) : a <> None -> (a <|> b) <> None.
Proof. destruct a; simpl; congruence. Qed.

Lemma orelse_not_None_r {A} (a b : option A) : b <> None -> (a <|> b) <> None.
Proof. destruct a; simpl; congruence. Qed.

Lemma forallb_ext_in {A} (f g : A -> bool) l :
  (forall x, f x = g x) -> forallb f l = forallb g l.
Proof. intros H. induction l as [|x l IH]; simpl; [reflexivity|]. now rewrite H, IH. Qed.

Lemma list_ascii_of_string_app s t :
  list_ascii_of_string (s ++ t) = list_ascii_of_string s ++ list_ascii_of_string t.
Proof. induction s as [|c s IH]; simpl; [reflexivity|]. now rewrite IH. Qed.

(** ** Suffixes of a list *)

Lemma nth_error_skipn0 {A} : forall (l : list A) i r, skipn i l = r -> nth_error l i = nth_error r 0.
Proof. intros l i; revert l; induction i as [|i IH]; intros [|a l] r H; simpl in *; subst; auto. Qed.

Lemma skipn_skip_app {A} (l : list A) i a rest :
  skipn i l = a ++ rest -> skipn (i + length a) l = rest.
Proof.
  intros H. rewrite Nat.add_comm, <- skipn_skipn, H, skipn_app, skipn_all, Nat.sub_diag. reflexivity.
Qed.

Lemma filter_none {A} (f : A -> bool) l : forallb (fun a => negb (f a)) l = true -> filter f l = [].
Proof.
  induction l as [|a l IH]; simpl; intros H; [reflexivity|].
  apply andb_prop in H as [Ha H]. destruct (f a); [discriminate | auto].
Qed.

Lemma forallb_false_exists {A} (f : A -> bool) l : forallb f l = false -> exists x, In x l /\ f x = false.
Proof.
  induction l as [|a l IH]; simpl; [discriminate|]. destruct (f a) eqn:Fa; simpl.
  - intros H. destruct (IH H) as (x & I & Fx). eauto.
  - intros _. eauto.
Qed.

Lemma skipn_cons_S {A} (l : list A) e c r : skipn e l = c :: r -> skipn (S e) l = r.
Proof. intros H. rewrite <- Nat.add_1_r. exact (skipn_skip_app l e [c] r H). Qed.
