(* ===== verification/Chars.v ===== *)
(** * Character predicates of ECMAScript regular expressions

    The sets that ECMAScript 2023 §22.2 gives to [\d], [\w], [\s] and [.],
    and the [Canonicalize] function that the [i] flag applies.  They are
    stated on 8-bit code units ([ascii]).  [\s] is WhiteSpace together
    with LineTerminator; on code units 0..255 that is TAB, LF, VT, FF, CR,
    SPACE and NO-BREAK SPACE (U+00A0).  [String.prototype.trim] strips
    the same set. *)

From Stdlib Require Import Ascii String List Bool Arith Lia.
From S2P Require Import Prelude.
Import ListNotations.

Definition code (c : ascii) : nat := nat_of_ascii c.

(** [lo <= c <= hi] on code units: a [ClassRanges] range [lo-hi]. *)
Definition in_range (lo hi c : ascii) : bool :=
  (code lo <=? code c) && (code c <=? code hi).

Definition is_digit (c : ascii) : bool := in_range "0" "9" c.
Definition is_upper (c : ascii) : bool := in_range "A" "Z" c.
Definition is_lower (c : ascii) : bool := in_range "a" "z" c.

(** WordCharacters without the [u] flag: [a-z A-Z 0-9 _]. *)
Definition is_word_char (c : ascii) : bool :=
  is_lower c || is_upper c || is_digit c || (c =? "_")%char.

(** LineTerminator on code units: LF and CR (U+2028/9 lie above 255). *)
Definition is_line_terminator (c : ascii) : bool :=
  (c =? "010")%char || (c =? "013")%char.

(** WhiteSpace on code units: TAB, VT, FF, SPACE and NBSP (U+00A0). *)
Definition is_white_space (c : ascii) : bool :=
  (c =? "009")%char || (c =? "011")%char || (c =? "012")%char
  || (c =? " ")%char || (c =? "160")%char.

(** [\s]: WhiteSpace or LineTerminator. *)
Definition is_js_space (c : ascii) : bool := is_white_space c || is_line_terminator c.

(** [Canonicalize(rer, ch)] without the [u] flag, as a code point.  It
    maps [ch] to its upper case when that is a single code unit and does
    not move a non-ASCII character into ASCII.  On 0..255 this sends
    a-z and U+00E0..U+00FE (except U+00F7) down by 32, U+00B5 to U+039C
    and U+00FF to U+0178, and fixes every other code unit (U+00DF
    upper-cases to two characters, so it stays). *)
Definition canonicalize (c : ascii) : nat :=
  let n := code c in
  if is_lower c then n - 32
  else if (224 <=? n) && (n <=? 254) && negb (n =? 247) then n - 32
  else if n =? 181 then 924
  else if n =? 255 then 376
  else n.

(** Every code unit, in order: the alphabet a CharSet is drawn from. *)
Definition all_code_units : list ascii := map ascii_of_nat (seq 0 256).

(** ** Lemmas *)

(** A fact about one code unit, checked on all 256 of them. *)
Ltac by_code_units c :=
  destruct c as [[] [] [] [] [] [] [] []]; vm_compute; first [reflexivity | discriminate | congruence].

Lemma code_lt_256 c : code c < 256.
Proof. unfold code. apply nat_ascii_bounded. Qed.

Lemma in_all_code_units c : In c all_code_units.
Proof.
  unfold all_code_units. apply in_map_iff. exists (code c). split.
  - apply ascii_nat_embedding.
  - apply in_seq. pose proof (code_lt_256 c). lia.
Qed.

(** A one-element CharSet: the existential over the alphabet collapses
    to the test on its element. *)
Lemma existsb_singleton_code_unit (c : ascii) (P : ascii -> bool) :
  existsb (fun a => (a =? c)%char && P a) all_code_units = P c.
Proof.
  destruct (P c) eqn:HP.
  - apply existsb_exists. exists c. rewrite Ascii.eqb_refl. split; [apply in_all_code_units | exact HP].
  - apply Bool.not_true_iff_false. intros [a [_ Ha]]%existsb_exists.
    apply andb_prop in Ha as [Ea Pa]. apply Ascii.eqb_eq in Ea. subst. congruence.
Qed.

Lemma digit_is_word c : is_digit c = true -> is_word_char c = true.
Proof. unfold is_word_char. intros ->. now rewrite !orb_true_r. Qed.

Lemma digit_not_space c : is_digit c = true -> is_js_space c = false.
Proof. by_code_units c. Qed.

Lemma word_not_space c : is_word_char c = true -> is_js_space c = false.
Proof. by_code_units c. Qed.

#[export] Hint Resolve digit_is_word digit_not_space word_not_space : ocr.
