(* ===== verification/Regex.v ===== *)
(** * ECMAScript regular expressions: syntax, backtracking matcher, exec

    The patterns of the program are values of [regex].  Their meaning is
    the matcher of ECMAScript 2023 §22.2.2.  A matcher takes a match state
    (the end index and the capture list) and a continuation.  It calls
    the continuation on each way it can match, in priority order, and
    returns the first success.  Each constructor's case in [compile] is
    the corresponding clause of the standard: CharacterSetMatcher
    (§22.2.2.7.3), the [\b] assertion, capturing groups, alternatives,
    and RepeatMatcher (§22.2.2.3.1).  The last is a fuelled [fix]
    ([repeat_matcher]); its fuel is proved irrelevant above the bound
    that [compile] passes.  [exec] is RegExpBuiltinExec (§22.2.7.2) for
    regexes that are neither global nor sticky: it tries [lastIndex]
    from 0 to the length of the input and returns the first match. *)

From Stdlib Require Import Ascii String List Bool Arith Lia.
From S2P Require Import Prelude Chars.
Import ListNotations.

(** ** Syntax *)

(** CharacterClassEscape: [\d \D \w \W \s \S]. *)
Inductive esc := EscDigit | EscNotDigit | EscWord | EscNotWord | EscSpace | EscNotSpace.

(** ClassAtom / ClassRanges inside [[...]]. *)
Inductive class_atom :=
| ClassChar (c : ascii)
| ClassRange (lo hi : ascii)
| ClassEsc (e : esc).

Inductive regex :=
| Empty                                    (* the empty Alternative *)
| Char (c : ascii)                         (* PatternCharacter *)
| Dot                                      (* . *)
| Esc (e : esc)                            (* \d \w \s ... *)
| CharClass (invert : bool) (items : list class_atom)  (* [...] and [^...] *)
| WordBoundary (negated : bool)            (* \b, \B *)
| Seq (r1 r2 : regex)                      (* Alternative Term *)
| Alt (r1 r2 : regex)                      (* Disjunction | *)
| Group (r : regex)                        (* capturing ( ... ) *)
| Repeat (min : nat) (max : option nat) (greedy : bool) (r : regex).
                                           (* Quantifier; max None is infinity *)

(** The flags the source uses: [i] and [g]. *)
Record regexp := RegExp { pattern : regex; ignoreCase : bool; global : bool }.

(** Number of left-capturing parentheses of a pattern. *)
Fixpoint ngroups (r : regex) : nat :=
  match r with
  | Seq r1 r2 | Alt r1 r2 => ngroups r1 + ngroups r2
  | Group r1 => S (ngroups r1)
  | Repeat _ _ _ r1 => ngroups r1
  | _ => 0
  end.

(** ** Match states *)

(** MatchState: [endIndex] and [captures]; slot [n] of [captures] holds
    group [n + 1] as the range [(start, end)], or [None] (undefined). *)
Record mstate := MState { endIndex : nat; captures : list (option (nat * nat)) }.

Definition cont := mstate -> option mstate.
Definition matcher := cont -> mstate -> option mstate.

(** [cap[n] := v] on a capture list (out of range: no change). *)
Fixpoint set_nth {A} (n : nat) (v : A) (l : list A) : list A :=
  match l, n with
  | [], _ => []
  | _ :: t, 0 => v :: t
  | h :: t, S n' => h :: set_nth n' v t
  end.

(** Set slots [lo .. lo + cnt - 1] to undefined. *)
Fixpoint clear_range (lo cnt : nat) (caps : list (option (nat * nat))) :=
  match caps, lo, cnt with
  | [], _, _ => []
  | c :: t, S lo', _ => c :: clear_range lo' cnt t
  | _, 0, 0 => caps
  | _ :: t, 0, S cnt' => None :: clear_range 0 cnt' t
  end.

Definition esc_mem (e : esc) (c : ascii) : bool :=
  match e with
  | EscDigit => is_digit c
  | EscNotDigit => negb (is_digit c)
  | EscWord => is_word_char c
  | EscNotWord => negb (is_word_char c)
  | EscSpace => is_js_space c
  | EscNotSpace => negb (is_js_space c)
  end.

Definition class_atom_mem (a : class_atom) (c : ascii) : bool :=
  match a with
  | ClassChar d => (d =? c)%char
  | ClassRange lo hi => in_range lo hi c
  | ClassEsc e => esc_mem e c
  end.

Definition class_mem (items : list class_atom) (c : ascii) : bool :=
  existsb (fun a => class_atom_mem a c) items.

Definition max_is_zero (mx : option nat) : bool :=
  match mx with Some 0 => true | _ => false end.

(** ** The matcher *)

Section Matcher.
Variable input : list ascii.
Variable ic : bool.   (* the [i] flag *)

(** CharacterSetMatcher(A, invert): without [i] a character is in [A]
    when [A] holds of it; with [i] when some member of [A] has the same
    canonical form. *)
Definition char_set_matcher (A : ascii -> bool) (invert : bool) : matcher :=
  fun k x =>
    match nth_error input (endIndex x) with
    | None => None
    | Some ch =>
        let found :=
          if ic
          then existsb (fun a => A a && (canonicalize a =? canonicalize ch)) all_code_units
          else A ch in
        if Bool.eqb found invert then None
        else k (MState (S (endIndex x)) (captures x))
    end.

(** IsWordChar(e): [false] at [-1] and at the end of the input. *)
Definition is_word_at (i : nat) : bool :=
  match nth_error input i with Some c => is_word_char c | None => false end.

Definition word_before (e : nat) : bool :=
  match e with 0 => false | S p => is_word_at p end.

Definition word_boundary_matcher (negated : bool) : matcher :=
  fun k x =>
    let a := word_before (endIndex x) in
    let b := is_word_at (endIndex x) in
    if Bool.eqb (xorb a b) (negb negated) then k x else None.

(** RepeatMatcher(m, min, max, greedy, x, c, parenIndex, parenCount),
    with [gi = parenIndex] and [cnt = parenCount].  [fuel] bounds the
    iterations; [compile] passes [S (min + (length input - endIndex))]. *)
Definition repeat_matcher (m : matcher) (gi cnt : nat) (greedy : bool) (k : cont) :
    nat -> nat -> option nat -> mstate -> option mstate :=
  fix rep (fuel mn : nat) (mx : option nat) (x : mstate) {struct fuel} :=
    match fuel with
    | 0 => None
    | S fuel' =>
        if max_is_zero mx then k x else
        let d := fun y =>
          if (mn =? 0) && (endIndex y =? endIndex x) then None
          else rep fuel' (pred mn) (option_map pred mx) y in
        let xr := MState (endIndex x) (clear_range gi cnt (captures x)) in
        if negb (mn =? 0) then m d xr
        else if greedy then m d xr <|> k x
        else k x <|> m d xr
    end.

Definition repeat_fuel (mn : nat) (x : mstate) : nat :=
  S (mn + (length input - endIndex x)).

(** CompileSubpattern; [gi] counts the groups to the left of [r]. *)
Fixpoint compile (r : regex) (gi : nat) : matcher :=
  match r with
  | Empty => fun k x => k x
  | Char c => char_set_matcher (fun a => (a =? c)%char) false
  | Dot => char_set_matcher (fun a => negb (is_line_terminator a)) false
  | Esc e => char_set_matcher (esc_mem e) false
  | CharClass invert items => char_set_matcher (class_mem items) invert
  | WordBoundary negated => word_boundary_matcher negated
  | Seq r1 r2 => fun k x => compile r1 gi (fun y => compile r2 (gi + ngroups r1) k y) x
  | Alt r1 r2 => fun k x => compile r1 gi k x <|> compile r2 (gi + ngroups r1) k x
  | Group r1 => fun k x =>
      compile r1 (S gi)
        (fun y => k (MState (endIndex y) (set_nth gi (Some (endIndex x, endIndex y)) (captures y))))
        x
  | Repeat mn mx greedy r1 => fun k x =>
      repeat_matcher (compile r1 gi) gi (ngroups r1) greedy k (repeat_fuel mn x) mn mx x
  end.

(** The pattern's matcher run from [i] with the final continuation
    that accepts (§22.2.2, the closure returned by the compiler). *)
Definition match_at (r : regex) (i : nat) : option mstate :=
  compile r 0 (fun y => Some y) (MState i (repeat None (ngroups r))).

(** The search loop of RegExpBuiltinExec from [lastIndex = i]. *)
Fixpoint search (r : regex) (fuel i : nat) : option (nat * mstate) :=
  match fuel with
  | 0 => None
  | S f =>
      match match_at r i with
      | Some y => Some (i, y)
      | None => search r f (S i)
      end
  end.
End Matcher.

(** ** RegExpBuiltinExec and String.prototype.match *)

(** The result array of a successful exec: [index], the end of the match
    and the captures. *)
Record js_match := JsMatch { m_index : nat; m_end : nat; m_caps : list (option (nat * nat)) }.

(** exec from [lastIndex]: fails when [lastIndex] exceeds the length. *)
Definition exec_from (rx : regexp) (input : list ascii) (last : nat) : option js_match :=
  match search input (ignoreCase rx) (pattern rx) (S (length input) - last) last with
  | Some (i, y) => Some (JsMatch i (endIndex y) (captures y))
  | None => None
  end.

(** exec of a regex without the [g] flag: [lastIndex] is 0. *)
Definition exec (rx : regexp) (input : list ascii) : option js_match := exec_from rx input 0.

(** [match[0]]: the matched substring. *)
Definition matched_string (input : list ascii) (mt : js_match) : string :=
  string_of_list_ascii (substr input (m_index mt) (m_end mt)).

(** [match[n]] for [n >= 1]: the substring of group [n], or [undefined]
    ([None]) when the group did not participate. *)
Definition match_group (input : list ascii) (mt : js_match) (n : nat) : option string :=
  match nth_error (m_caps mt) (pred n) with
  | Some (Some (i, j)) => Some (string_of_list_ascii (substr input i j))
  | _ => None
  end.

(** [s.match(rx)] for a regex without the [g] flag: exec on [s]. *)
Definition str_match (s : string) (rx : regexp) : option js_match :=
  exec rx (list_ascii_of_string s).
