(* ===== verification/RegexFacts.v ===== *)
(** * Properties of the ECMAScript matcher

    The facts about [Regex.compile] that the extractors' proofs need.
    - Locality ([local], [compile_local]): a matcher consults its
      continuation only at states between its start and the end of the
      input.
    - Fuel ([rep_fuel_irrelevant], [compile_repeat_any_fuel]): the fuel
      that [compile] gives to RepeatMatcher is enough, and any larger
      fuel gives the same result.
    - The frame invariant ([compile_inv]): a match only writes the
      capture slots of its own groups.  Every group in a mandatory
      position is set, to a range inside the match.
    - The search loop of exec ([search_Some], [search_None],
      [exec_from_Some], [exec_from_None], [exec_leftmost], [exec_correct]).
    - Quantified character sets ([repeat_greedy_char]): a greedy
      quantifier over one character set tries the maximal run first and
      then shorter ones ([max_run], [greedy_tries]); [repeat_exact_char]
      does the same for [{n}]. *)

From Stdlib Require Import Ascii String List Bool Arith Lia.
From S2P Require Import Prelude Chars Regex.
Import ListNotations.

Section Facts.
Variable input : list ascii.
Variable ic : bool.
Abbreviation len := (length input).

(** [y] lies between [x] and the end of the input. *)
Definition within (x y : mstate) : Prop :=
  endIndex x <= endIndex y <= Nat.max len (endIndex x).

Lemma within_refl x : within x x.
Proof. unfold within. lia. Qed.

Lemma within_trans x y z : within x y -> within y z -> within x z.
Proof. unfold within. lia. Qed.

Lemma within_same_end x x' y :
  endIndex x' = endIndex x -> within x' y -> within x y.
Proof. unfold within. lia. Qed.

Lemma within_step x ch :
  nth_error input (endIndex x) = Some ch ->
  within x (MState (S (endIndex x)) (captures x)).
Proof.
  intros H. assert (endIndex x < len) by (apply nth_error_Some; congruence).
  unfold within; simpl. lia.
Qed.

#[local] Hint Resolve within_refl within_trans within_step : ocr.

(** Two continuations that agree on the states reachable from [x]. *)
Definition agree_from (x : mstate) (k1 k2 : cont) : Prop :=
  forall y, within x y -> k1 y = k2 y.

(** A matcher that consults its continuation only within range. *)
Definition local (m : matcher) : Prop :=
  forall k1 k2 x, agree_from x k1 k2 -> m k1 x = m k2 x.

Lemma agree_from_trans x y k1 k2 : within x y -> agree_from x k1 k2 -> agree_from y k1 k2.
Proof. unfold agree_from. eauto with ocr. Qed.

Lemma char_set_matcher_local A inv : local (char_set_matcher input ic A inv).
Proof.
  intros k1 k2 x Hk. unfold char_set_matcher.
  destruct (nth_error input (endIndex x)) eqn:E; [|reflexivity].
  destruct (Bool.eqb _ inv); [reflexivity|]. apply Hk. eauto with ocr.
Qed.

Lemma word_boundary_matcher_local neg : local (word_boundary_matcher input neg).
Proof.
  intros k1 k2 x Hk. unfold word_boundary_matcher.
  destruct (Bool.eqb _ _); [apply Hk, within_refl | reflexivity].
Qed.

Section Repeat.
Variable m : matcher.
Hypothesis m_local : local m.
Variables (gi cnt : nat) (greedy : bool).

Lemma repeat_matcher_local fuel : forall k1 k2 mn mx x,
  agree_from x k1 k2 ->
  repeat_matcher m gi cnt greedy k1 fuel mn mx x
  = repeat_matcher m gi cnt greedy k2 fuel mn mx x.
Proof.
  induction fuel as [|fuel IH]; intros k1 k2 mn mx x Hk; [reflexivity|]. simpl.
  assert (Hx : k1 x = k2 x) by (apply Hk, within_refl).
  destruct (max_is_zero mx); [exact Hx|].
  set (xr := MState _ _).
  erewrite (m_local _ _ xr).
  - destruct (negb _), greedy; rewrite ?Hx; reflexivity.
  - intros y Hy. destruct (_ && _); [reflexivity|].
    apply IH. eapply agree_from_trans; [|exact Hk].
    eapply within_same_end; [|exact Hy]. reflexivity.
Qed.

(** The number of iterations left is bounded by [mn] plus the input
    left, so any fuel above that bound gives the same answer. *)
Lemma rep_fuel_irrelevant k fuel1 : forall fuel2 mn mx x,
  mn + (len - endIndex x) < fuel1 ->
  mn + (len - endIndex x) < fuel2 ->
  repeat_matcher m gi cnt greedy k fuel1 mn mx x
  = repeat_matcher m gi cnt greedy k fuel2 mn mx x.
Proof.
  induction fuel1 as [|f1 IH]; intros [|f2] mn mx x H1 H2; try lia. simpl.
  destruct (max_is_zero mx); [reflexivity|].
  set (xr := MState _ _).
  erewrite (m_local _ _ xr).
  - reflexivity.
  - intros y Hy. unfold within in Hy; simpl in Hy.
    destruct (Nat.eqb_spec mn 0) as [->|Hmn]; simpl.
    + destruct (Nat.eqb_spec (endIndex y) (endIndex x)); [reflexivity|].
      apply IH; lia.
    + apply IH; lia.
Qed.
End Repeat.

(** Every compiled pattern is local. *)
Lemma compile_local r : forall gi, local (compile input ic r gi).
Proof.
  induction r as [| | | | | | r1 IH1 r2 IH2 | r1 IH1 r2 IH2 | r1 IH1 | mn mx g r1 IH1];
    intros gi; cbn [compile]; try apply char_set_matcher_local;
    try apply word_boundary_matcher_local.
  - intros k1 k2 x Hk. apply Hk, within_refl.
  - intros k1 k2 x Hk. apply IH1. intros y Hy. apply IH2.
    eapply agree_from_trans; eassumption.
  - intros k1 k2 x Hk. now rewrite (IH1 gi k1 k2 x Hk), (IH2 _ k1 k2 x Hk).
  - intros k1 k2 x Hk. apply IH1. intros y Hy. apply Hk.
    eapply within_same_end; [|exact Hy]. reflexivity.
  - intros k1 k2 x Hk. apply repeat_matcher_local; [apply IH1 | exact Hk].
Qed.

(** The fuel [compile] gives RepeatMatcher never cuts a search
    short: any fuel above the bound gives the same result. *)
Theorem compile_repeat_any_fuel mn mx greedy r gi k x fuel :
  mn + (len - endIndex x) < fuel ->
  compile input ic (Repeat mn mx greedy r) gi k x
  = repeat_matcher (compile input ic r gi) gi (ngroups r) greedy k fuel mn mx x.
Proof.
  intros H. cbn [compile]. apply rep_fuel_irrelevant; [apply compile_local | unfold repeat_fuel; lia | exact H].
Qed.

(** ** The search loop of exec *)

Lemma search_Some r fuel : forall i j y,
  search input ic r fuel i = Some (j, y) <->
  i <= j < i + fuel /\ match_at input ic r j = Some y
  /\ forall l, i <= l < j -> match_at input ic r l = None.
Proof.
  induction fuel as [|f IH]; intros i j y; simpl.
  - split; [discriminate | lia].
  - destruct (match_at input ic r i) as [y'|] eqn:E.
    + split.
      * intros [= <- <-]. split; [lia|]. split; [exact E|]. intros; lia.
      * intros (Hij & Hm & Hl). destruct (Nat.eq_dec i j) as [<-|Hne].
        -- congruence.
        -- rewrite Hl in E by lia. discriminate.
    + rewrite IH. split.
      * intros (Hij & Hm & Hl). split; [lia|]. split; [exact Hm|].
        intros l Hlj. destruct (Nat.eq_dec l i) as [->|]; [exact E | apply Hl; lia].
      * intros (Hij & Hm & Hl). destruct (Nat.eq_dec i j) as [<-|Hne]; [congruence|].
        split; [lia|]. split; [exact Hm|]. intros l Hl'. apply Hl. lia.
Qed.

Lemma search_None r fuel : forall i,
  search input ic r fuel i = None <->
  forall l, i <= l < i + fuel -> match_at input ic r l = None.
Proof.
  induction fuel as [|f IH]; intros i; simpl.
  - split; [intros _ l Hl; lia | reflexivity].
  - destruct (match_at input ic r i) eqn:E.
    + split; [discriminate|]. intros H. rewrite H in E by lia. discriminate.
    + rewrite IH. split.
      * intros H l Hl. destruct (Nat.eq_dec l i) as [->|]; [exact E | apply H; lia].
      * intros H l Hl. apply H. lia.
Qed.

(** ** The frame invariant *)

(** [y] follows [x] within range, with captures of the same length
    that differ from [x]'s only in the slots [lo .. lo + cnt - 1]. *)
Definition frame (lo cnt : nat) (x y : mstate) : Prop :=
  within x y /\ length (captures y) = length (captures x) /\
  forall j, j < lo \/ lo + cnt <= j -> nth_error (captures y) j = nth_error (captures x) j.

(** Every slot of [js] holds a range between [x] and [y]. *)
Definition sets (js : list nat) (x y : mstate) : Prop :=
  forall j, In j js -> exists a b,
    nth_error (captures y) j = Some (Some (a, b)) /\ endIndex x <= a /\ a <= b /\ b <= endIndex y.

Lemma frame_refl lo cnt x : frame lo cnt x x.
Proof. split; [apply within_refl|]. split; reflexivity. Qed.

Lemma frame_trans lo cnt x y z : frame lo cnt x y -> frame lo cnt y z -> frame lo cnt x z.
Proof.
  intros (W1 & L1 & F1) (W2 & L2 & F2). split; [eauto using within_trans|].
  split; [congruence|]. intros j Hj. rewrite F2, F1 by exact Hj. reflexivity.
Qed.

Lemma frame_widen lo cnt lo' cnt' x y :
  lo' <= lo -> lo + cnt <= lo' + cnt' -> frame lo cnt x y -> frame lo' cnt' x y.
Proof. intros H1 H2 (W & L & F). split; [exact W|]. split; [exact L|]. intros j Hj. apply F. lia. Qed.

Lemma frame_same_end lo cnt x x' y :
  endIndex x' = endIndex x -> captures x' = captures x -> frame lo cnt x' y -> frame lo cnt x y.
Proof. destruct x, x'; simpl; intros -> ->. trivial. Qed.

Lemma length_clear_range lo cnt l : length (clear_range lo cnt l) = length l.
Proof.
  revert lo cnt; induction l as [|c t IH]; intros [|lo] [|cnt]; simpl; f_equal; auto.
Qed.

Lemma nth_error_clear_range lo cnt l j :
  j < lo \/ lo + cnt <= j -> nth_error (clear_range lo cnt l) j = nth_error l j.
Proof.
  revert lo cnt j; induction l as [|c t IH]; intros [|lo] [|cnt] [|j] Hj; simpl;
    try reflexivity; try lia; apply IH; lia.
Qed.

Lemma length_set_nth {A} n (v : A) l : length (set_nth n v l) = length l.
Proof. revert n; induction l; intros [|n]; simpl; f_equal; auto. Qed.

Lemma nth_error_set_nth_eq {A} n (v : A) l : n < length l -> nth_error (set_nth n v l) n = Some v.
Proof.
  revert n; induction l as [|h t IH]; intros [|n] H; simpl in *; try lia; try reflexivity.
  apply IH. lia.
Qed.

Lemma nth_error_set_nth_ne {A} n (v : A) l j : j <> n -> nth_error (set_nth n v l) j = nth_error l j.
Proof.
  revert n j; induction l as [|h t IH]; intros [|n] [|j] H; simpl; try reflexivity; try lia.
  apply IH. lia.
Qed.

Lemma frame_clear lo cnt x : frame lo cnt x (MState (endIndex x) (clear_range lo cnt (captures x))).
Proof.
  split; [unfold within; simpl; lia|]. split; [apply length_clear_range|].
  intros j Hj. apply nth_error_clear_range, Hj.
Qed.

Lemma sets_nil x y : sets [] x y.
Proof. intros j []. Qed.

(** Slots already set stay set when later steps leave them alone. *)
Lemma sets_extend js lo cnt x y z :
  (forall j, In j js -> j < lo \/ lo + cnt <= j) ->
  sets js x y -> frame lo cnt y z -> sets js x z.
Proof.
  intros Hjs Hs (W & L & F) j Hj. destruct (Hs j Hj) as (a & b & E & B).
  exists a, b. rewrite F by (apply Hjs, Hj). split; [exact E|]. unfold within in W. lia.
Qed.

Lemma sets_later js x y z :
  within x y -> sets js y z -> sets js x z.
Proof.
  intros W Hs j Hj. destruct (Hs j Hj) as (a & b & E & B). exists a, b.
  split; [exact E|]. unfold within in W. lia.
Qed.

Lemma frame_within lo cnt x y : frame lo cnt x y -> within x y.
Proof. now intros []. Qed.

Lemma char_set_matcher_inv A inv k x z :
  char_set_matcher input ic A inv k x = Some z ->
  exists y, (forall lo cnt, frame lo cnt x y) /\ k y = Some z.
Proof.
  unfold char_set_matcher. destruct (nth_error input (endIndex x)) eqn:E; [|discriminate].
  destruct (Bool.eqb _ inv); [discriminate|]. intros Hk.
  eexists; split; [|exact Hk]. split; [eapply within_step; exact E|]. split; reflexivity.
Qed.

Section RepeatInv.
Variable m : matcher.
Variables (gi cnt : nat) (greedy : bool) (k : cont).
Hypothesis m_inv : forall k' x z, gi + cnt <= length (captures x) ->
  m k' x = Some z -> exists y, frame gi cnt x y /\ k' y = Some z.

Lemma repeat_matcher_inv fuel : forall mn mx x z,
  gi + cnt <= length (captures x) ->
  repeat_matcher m gi cnt greedy k fuel mn mx x = Some z ->
  exists y, frame gi cnt x y /\ k y = Some z.
Proof.
  induction fuel as [|fuel IH]; intros mn mx x z Hlen; simpl; [discriminate|].
  destruct (max_is_zero mx); [intros Hk; exists x; split; [apply frame_refl | exact Hk]|].
  set (xr := MState (endIndex x) (clear_range gi cnt (captures x))).
  assert (Hxr : frame gi cnt x xr) by apply frame_clear.
  assert (Hm : forall z', m (fun y => if (mn =? 0) && (endIndex y =? endIndex x) then None
                     else repeat_matcher m gi cnt greedy k fuel (pred mn) (option_map pred mx) y) xr
                   = Some z' -> exists y, frame gi cnt x y /\ k y = Some z').
  { intros z' H. apply m_inv in H as (y1 & F1 & D1);
      [|simpl; rewrite length_clear_range; exact Hlen].
    destruct (_ && _); [discriminate|].
    apply IH in D1 as (y2 & F2 & K2);
      [|destruct F1 as (_ & L1 & _); rewrite L1; simpl; rewrite length_clear_range; exact Hlen].
    exists y2. split; [|exact K2]. eauto using frame_trans. }
  assert (Hk : forall z', k x = Some z' -> exists y, frame gi cnt x y /\ k y = Some z')
    by (intros z' H; exists x; split; [apply frame_refl | exact H]).
  destruct (negb _); [exact (Hm z)|].
  destruct greedy; intros H%orelse_Some; destruct H as [H|[_ H]]; auto.
Qed.
End RepeatInv.
End Facts.

(** The capture slots that a successful match of [r] always sets: its
    groups outside alternatives and quantifiers. *)
Fixpoint mandatory (r : regex) (gi : nat) : list nat :=
  match r with
  | Seq r1 r2 => mandatory r1 gi ++ mandatory r2 (gi + ngroups r1)
  | Group r1 => gi :: mandatory r1 (S gi)
  | _ => []
  end.

Lemma mandatory_range r : forall gi j, In j (mandatory r gi) -> gi <= j < gi + ngroups r.
Proof.
  induction r; intros gi j Hj; simpl in *; try contradiction.
  - apply in_app_or in Hj as [Hj|Hj]; [apply IHr1 in Hj | apply IHr2 in Hj]; lia.
  - destruct Hj as [<-|Hj]; [lia|]. apply IHr in Hj. lia.
Qed.

Section Inv.
Variable input : list ascii.
Variable ic : bool.

(** A successful match passes its continuation a state that differs
    from the start only in the match's own capture slots.  That state
    holds a range, within the match, in every mandatory slot. *)
Lemma compile_inv r : forall gi k x z,
  gi + ngroups r <= length (captures x) ->
  compile input ic r gi k x = Some z ->
  exists y, frame input gi (ngroups r) x y /\ sets (mandatory r gi) x y /\ k y = Some z.
Proof.
  induction r as [| | | | | | r1 IH1 r2 IH2 | r1 IH1 r2 IH2 | r1 IH1 | mn mx g r1 IH1];
    intros gi k x z Hlen; cbn [compile mandatory ngroups] in *.
  - intros Hk. exists x. split; [apply frame_refl|]. split; [apply sets_nil | exact Hk].
  - intros (y & F & K)%char_set_matcher_inv. exists y. split; [apply F|]. split; [apply sets_nil | exact K].
  - intros (y & F & K)%char_set_matcher_inv. exists y. split; [apply F|]. split; [apply sets_nil | exact K].
  - intros (y & F & K)%char_set_matcher_inv. exists y. split; [apply F|]. split; [apply sets_nil | exact K].
  - intros (y & F & K)%char_set_matcher_inv. exists y. split; [apply F|]. split; [apply sets_nil | exact K].
  - unfold word_boundary_matcher. destruct (Bool.eqb _ _); [|discriminate]. intros Hk.
    exists x. split; [apply frame_refl|]. split; [apply sets_nil | exact Hk].
  - intros H1. destruct (IH1 gi _ x z ltac:(lia) H1) as (y1 & F1 & S1 & H2).
    assert (L1 : length (captures y1) = length (captures x)) by apply F1.
    destruct (IH2 (gi + ngroups r1) k y1 z ltac:(lia) H2) as (y2 & F2 & S2 & K).
    exists y2. split; [|split; [|exact K]].
    + eapply frame_trans; eapply frame_widen; try eassumption; lia.
    + intros j Hj. apply in_app_or in Hj as [Hj|Hj].
      * eapply sets_extend; [|exact S1|exact F2|exact Hj].
        intros j' Hj'. apply mandatory_range in Hj'. lia.
      * eapply sets_later; [apply (frame_within _ _ _ _ _ F1) | exact S2 | exact Hj].
  - intros [H|[_ H]]%orelse_Some.
    + destruct (IH1 gi k x z ltac:(lia) H) as (y & F & _ & K). exists y.
      split; [eapply frame_widen; [| |exact F]; lia|]. split; [apply sets_nil | exact K].
    + destruct (IH2 (gi + ngroups r1) k x z ltac:(lia) H) as (y & F & _ & K). exists y.
      split; [eapply frame_widen; [| |exact F]; lia|]. split; [apply sets_nil | exact K].
  - intros H. destruct (IH1 (S gi) _ x z ltac:(lia) H) as (y & F & S1 & K).
    destruct F as (W & L & Fr).
    eexists; split; [|split; [|exact K]].
    + split; [exact W|]. split; [simpl; rewrite length_set_nth; exact L|].
      intros j Hj. simpl. rewrite nth_error_set_nth_ne by lia. apply Fr. lia.
    + intros j [<-|Hj]; simpl.
      * exists (endIndex x), (endIndex y). rewrite nth_error_set_nth_eq by lia.
        unfold within in W. split; [reflexivity|]. lia.
      * destruct (S1 j Hj) as (a & b & E & B). exists a, b.
        apply mandatory_range in Hj. rewrite nth_error_set_nth_ne by lia. split; [exact E|]. exact B.
  - intros H. eapply repeat_matcher_inv in H as (y & F & K); [| |exact Hlen].
    + exists y. split; [exact F|]. split; [apply sets_nil | exact K].
    + intros k' x' z' Hl' H'. apply IH1 in H' as (y' & F' & _ & K'); [|exact Hl'].
      exists y'. split; [exact F' | exact K'].
Qed.
End Inv.

(** ** exec *)

Section Exec.
Variable rx : regexp.
Variable input : list ascii.
Abbreviation run_at := (match_at input (ignoreCase rx) (pattern rx)).

Lemma match_at_inv i y :
  run_at i = Some y ->
  frame input 0 (ngroups (pattern rx)) (MState i (repeat None (ngroups (pattern rx)))) y
  /\ sets (mandatory (pattern rx) 0) (MState i (repeat None (ngroups (pattern rx)))) y.
Proof.
  unfold match_at. intros H.
  apply compile_inv in H as (y' & F & S1 & [= <-]); [|simpl; rewrite repeat_length; lia].
  split; assumption.
Qed.

(** exec from [lastIndex = last]: the leftmost match at or after [last]. *)
Lemma exec_from_Some last mt :
  exec_from rx input last = Some mt <->
  last <= m_index mt <= length input
  /\ run_at (m_index mt) = Some (MState (m_end mt) (m_caps mt))
  /\ forall l, last <= l < m_index mt -> run_at l = None.
Proof.
  unfold exec_from. split.
  - destruct (search _ _ _ _ _) as [[i y]|] eqn:E; [|discriminate]. intros [= <-]. simpl.
    apply search_Some in E as (B & H & L). destruct y. split; [lia|]. split; [exact H | exact L].
  - intros (B & H & L). destruct mt as [i e caps]; cbn [m_index m_end m_caps] in *.
    assert (E : search input (ignoreCase rx) (pattern rx) (S (length input) - last) last
                = Some (i, MState e caps)).
    { apply search_Some. split; [lia|]. split; [exact H | exact L]. }
    rewrite E. reflexivity.
Qed.

Lemma exec_from_None last :
  exec_from rx input last = None <-> forall l, last <= l <= length input -> run_at l = None.
Proof.
  unfold exec_from. split.
  - destruct (search _ _ _ _ _) as [[i y]|] eqn:E; [discriminate|]. intros _ l Hl.
    apply (proj1 (search_None _ _ _ _ _) E). lia.
  - intros H. assert (E : search input (ignoreCase rx) (pattern rx) (S (length input) - last) last = None)
      by (apply search_None; intros l Hl; apply H; lia).
    rewrite E. reflexivity.
Qed.

Lemma exec_leftmost mt :
  exec rx input = Some mt <->
  m_index mt <= length input
  /\ run_at (m_index mt) = Some (MState (m_end mt) (m_caps mt))
  /\ forall l, l < m_index mt -> run_at l = None.
Proof.
  unfold exec, exec_from. rewrite Nat.sub_0_r. split.
  - destruct (search _ _ _ _ _) as [[i y]|] eqn:E; [|discriminate]. intros [= <-]. simpl.
    apply search_Some in E as (B & H & L). destruct y. split; [lia|]. split; [exact H|].
    intros l Hl. apply L. lia.
  - intros (B & H & L). destruct mt as [i e caps]; cbn [m_index m_end m_caps] in *.
    assert (E : search input (ignoreCase rx) (pattern rx) (S (length input)) 0
                = Some (i, MState e caps)).
    { apply search_Some. split; [lia|]. split; [exact H|]. intros l Hl. apply L. lia. }
    rewrite E. reflexivity.
Qed.

Lemma exec_None :
  exec rx input = None <-> forall l, l <= length input -> run_at l = None.
Proof.
  unfold exec, exec_from. rewrite Nat.sub_0_r. split.
  - destruct (search _ _ _ _ _) as [[i y]|] eqn:E; [discriminate|]. intros _.
    intros l Hl. apply (proj1 (search_None _ _ _ _ _) E). lia.
  - intros H. assert (E : search input (ignoreCase rx) (pattern rx) (S (length input)) 0 = None)
      by (apply search_None; intros l Hl; apply H; lia).
    rewrite E. reflexivity.
Qed.

(** A match found from [lastIndex] starts at or after it and ends
    within the input. *)
Lemma exec_from_range last mt :
  exec_from rx input last = Some mt -> last <= m_index mt <= m_end mt /\ m_end mt <= length input.
Proof.
  intros (B & H & _)%exec_from_Some. apply match_at_inv in H as ((W & _) & _).
  unfold within in W; simpl in *. lia.
Qed.

(** [lastIndex] beyond the length: exec fails (step 12.a of
    RegExpBuiltinExec). *)
Lemma exec_from_beyond last : length input < last -> exec_from rx input last = None.
Proof. intros H. unfold exec_from. replace (S (length input) - last) with 0 by lia. reflexivity. Qed.

Lemma exec_bounds mt :
  exec rx input = Some mt ->
  m_index mt <= m_end mt <= length input
  /\ length (m_caps mt) = ngroups (pattern rx)
  /\ forall j, In j (mandatory (pattern rx) 0) -> exists a b,
       nth_error (m_caps mt) j = Some (Some (a, b)) /\ m_index mt <= a /\ a <= b /\ b <= m_end mt.
Proof.
  intros (B & H & _)%exec_leftmost. apply match_at_inv in H as ((W & L & _) & S1).
  unfold within in W; simpl in *. rewrite repeat_length in L.
  split; [lia|]. split; [exact L|]. exact S1.
Qed.

(** [match[j + 1]] of a mandatory group is defined. *)
Lemma match_group_mandatory mt j :
  exec rx input = Some mt -> In j (mandatory (pattern rx) 0) ->
  exists a b, m_index mt <= a /\ a <= b /\ b <= m_end mt /\
    match_group input mt (S j) = Some (string_of_list_ascii (substr input a b)).
Proof.
  intros (_ & _ & G)%exec_bounds Hj. destruct (G j Hj) as (a & b & E & B).
  exists a, b. unfold match_group. simpl. rewrite E. repeat split; lia.
Qed.

(** Exec finds the leftmost position from which the pattern
    matches, with the state of that match; the match lies inside the
    input, and every group in a mandatory position holds a range
    inside the match.  When exec fails, the pattern matches from no
    position [0 .. length]. *)
Theorem exec_correct :
  match exec rx input with
  | Some mt =>
      m_index mt <= m_end mt <= length input
      /\ run_at (m_index mt) = Some (MState (m_end mt) (m_caps mt))
      /\ (forall l, l < m_index mt -> run_at l = None)
      /\ forall j, In j (mandatory (pattern rx) 0) -> exists a b,
           nth_error (m_caps mt) j = Some (Some (a, b)) /\ m_index mt <= a /\ a <= b /\ b <= m_end mt
  | None => forall l, l <= length input -> run_at l = None
  end.
Proof.
  destruct (exec rx input) as [mt|] eqn:E.
  - destruct (exec_bounds mt E) as (B & _ & G). apply exec_leftmost in E as (_ & H & L).
    split; [exact B|]. split; [exact H|]. split; [exact L | exact G].
  - apply exec_None, E.
Qed.
End Exec.

(** ** Quantified character atoms *)

Section Atoms.
Variable input : list ascii.

(** The [n] code units from [i] exist and satisfy [A]. *)
Fixpoint span (A : ascii -> bool) (i n : nat) : bool :=
  match n with
  | 0 => true
  | S n' =>
      match nth_error input i with
      | Some c => A c && span A (S i) n'
      | None => false
      end
  end.

Lemma clear_range_0 lo l : clear_range lo 0 l = l.
Proof. revert lo; induction l as [|c t IH]; intros [|lo]; simpl; f_equal; auto. Qed.

(** [A{n}] for a one-character atom without captures: it consumes the
    [n] code units from [endIndex] when they all satisfy [A]. *)
Lemma repeat_exact_char A gi g k n : forall fuel x,
  n < fuel ->
  repeat_matcher (char_set_matcher input false A false) gi 0 g k fuel n (Some n) x
  = if span A (endIndex x) n then k (MState (endIndex x + n) (captures x)) else None.
Proof.
  induction n as [|n IH]; intros [|fuel] [e caps] Hf; try lia; simpl.
  - rewrite Nat.add_0_r. reflexivity.
  - rewrite clear_range_0. unfold char_set_matcher. simpl.
    destruct (nth_error input e) as [c|]; [|reflexivity].
    destruct (A c); simpl; [|reflexivity].
    rewrite IH by lia. simpl. rewrite Nat.add_succ_r. reflexivity.
Qed.

Lemma span_nth A i n j : span A i n = true -> j < n ->
  exists c, nth_error input (i + j) = Some c /\ A c = true.
Proof.
  revert i j; induction n as [|n IH]; intros i j H Hj; [lia|]. simpl in H.
  destruct (nth_error input i) as [c|] eqn:E; [|discriminate].
  apply andb_prop in H as [Hc H]. destruct j as [|j].
  - exists c. rewrite Nat.add_0_r. split; assumption.
  - destruct (IH (S i) j H ltac:(lia)) as (c' & E' & A'). exists c'.
    rewrite <- Nat.add_succ_comm. split; assumption.
Qed.

Lemma span_substr A i n : span A i n = true ->
  length (substr input i (i + n)) = n /\ forallb A (substr input i (i + n)) = true.
Proof.
  revert i; induction n as [|n IH]; intros i H.
  - rewrite Nat.add_0_r. unfold substr. rewrite Nat.sub_diag. split; reflexivity.
  - simpl in H. destruct (nth_error input i) as [c|] eqn:E; [|discriminate].
    apply andb_prop in H as [Hc H]. destruct (IH (S i) H) as [L F].
    rewrite (substr_cons _ _ _ _ E). cbn [length forallb]. rewrite L, Hc, F. split; reflexivity.
Qed.
(** The length of the run of code units satisfying [A] from [i]
    ([n] bounds the search). *)
Fixpoint run_from (A : ascii -> bool) (i n : nat) : nat :=
  match n with
  | 0 => 0
  | S n' =>
      match nth_error input i with
      | Some c => if A c then S (run_from A (S i) n') else 0
      | None => 0
      end
  end.

Definition max_run (A : ascii -> bool) (i : nat) : nat := run_from A i (length input - i).

Lemma max_run_cons A i c :
  nth_error input i = Some c -> max_run A i = if A c then S (max_run A (S i)) else 0.
Proof.
  intros E. unfold max_run. assert (i < length input) by (apply nth_error_Some; congruence).
  replace (length input - i) with (S (length input - S i)) by lia. simpl. now rewrite E.
Qed.

Lemma max_run_end A i : nth_error input i = None -> max_run A i = 0.
Proof.
  intros E. unfold max_run. apply nth_error_None in E.
  replace (length input - i) with 0 by lia. reflexivity.
Qed.

Lemma span_max_run_aux A : forall n i, span A i (run_from A i n) = true.
Proof.
  induction n as [|n IH]; intros i; [reflexivity|]. simpl.
  destruct (nth_error input i) as [c|] eqn:E; [|reflexivity].
  destruct (A c) eqn:Ac; [|reflexivity]. simpl. rewrite E, Ac. apply IH.
Qed.

Lemma span_max_run A i : span A i (max_run A i) = true.
Proof. apply span_max_run_aux. Qed.

Lemma max_run_le A i : i + max_run A i <= Nat.max (length input) i.
Proof.
  unfold max_run. remember (length input - i) as n eqn:En. revert i En.
  induction n as [|n IH]; intros i En; simpl; [lia|].
  destruct (nth_error input i) eqn:E; [|lia]. destruct (A a); [|lia].
  specialize (IH (S i) ltac:(lia)). lia.
Qed.

(** The run stops at the end of the input or at a code unit outside [A]. *)
Lemma max_run_stop A i :
  match nth_error input (i + max_run A i) with Some c => A c = false | None => True end.
Proof.
  unfold max_run. remember (length input - i) as n eqn:En. revert i En.
  induction n as [|n IH]; intros i En; simpl.
  - rewrite Nat.add_0_r. destruct (nth_error input i) eqn:E; [|exact I].
    assert (i < length input) by (apply nth_error_Some; congruence). lia.
  - destruct (nth_error input i) as [c|] eqn:E; [|rewrite Nat.add_0_r, E; exact I].
    destruct (A c) eqn:Ac; [|rewrite Nat.add_0_r, E; exact Ac].
    rewrite <- Nat.add_succ_comm. apply IH. lia.
Qed.

(** What a greedy [A{mn,}] does with a run of [j] matching code units
    ahead: try one more iteration first, then (once [mn] is reached)
    the continuation at the current position. *)
Fixpoint greedy_tries (k : cont) (e : nat) (caps : list (option (nat * nat))) (mn j : nat)
    : option mstate :=
  match j with
  | 0 => if mn =? 0 then k (MState e caps) else None
  | S j' => greedy_tries k (S e) caps (pred mn) j' <|> (if mn =? 0 then k (MState e caps) else None)
  end.

Lemma orelse_None_r {A} (a : option A) : (a <|> None) = a.
Proof. destruct a; reflexivity. Qed.

(** One step of RepeatMatcher. *)
Lemma repeat_matcher_S m gi cnt greedy k fuel mn mx x :
  repeat_matcher m gi cnt greedy k (S fuel) mn mx x =
  if max_is_zero mx then k x else
  let d := fun y =>
    if (mn =? 0) && (endIndex y =? endIndex x) then None
    else repeat_matcher m gi cnt greedy k fuel (pred mn) (option_map pred mx) y in
  let xr := MState (endIndex x) (clear_range gi cnt (captures x)) in
  if negb (mn =? 0) then m d xr
  else if greedy then m d xr <|> k x
  else k x <|> m d xr.
Proof. reflexivity. Qed.

(** CharacterSetMatcher without the [i] flag, not inverted. *)
Lemma char_set_matcher_plain A k x :
  char_set_matcher input false A false k x =
  match nth_error input (endIndex x) with
  | Some c => if A c then k (MState (S (endIndex x)) (captures x)) else None
  | None => None
  end.
Proof. unfold char_set_matcher. destruct (nth_error input (endIndex x)); [destruct (A a)|]; reflexivity. Qed.

(** A greedy quantifier without upper bound over a one-character atom
    follows [greedy_tries] along the maximal run. *)
Lemma repeat_greedy_char A gi k fuel : forall mn x,
  mn + (length input - endIndex x) < fuel ->
  repeat_matcher (char_set_matcher input false A false) gi 0 true k fuel mn None x
  = greedy_tries k (endIndex x) (captures x) mn (max_run A (endIndex x)).
Proof.
  induction fuel as [|fuel IH]; intros mn [e caps] Hf; [lia|]. cbn [endIndex captures] in *.
  rewrite repeat_matcher_S. cbv zeta. cbn [max_is_zero endIndex captures].
  rewrite clear_range_0, char_set_matcher_plain. cbn [endIndex captures].
  destruct (nth_error input e) as [c|] eqn:E.
  - rewrite (max_run_cons A e c E). assert (e < length input) by (apply nth_error_Some; congruence).
    destruct (A c).
    + rewrite IH by (simpl; lia). cbn [endIndex captures greedy_tries].
      destruct mn as [|mn].
      * replace (S e =? e) with false by (symmetry; apply Nat.eqb_neq; lia). reflexivity.
      * cbn [Nat.eqb negb andb pred]. rewrite orelse_None_r. reflexivity.
    + destruct mn; reflexivity.
  - rewrite (max_run_end A e E). destruct mn; reflexivity.
Qed.

(** With a continuation that accepts, the quantifier takes the whole
    run, provided it reaches [mn]. *)
Lemma greedy_tries_accept e caps : forall j mn,
  greedy_tries (fun y => Some y) e caps mn j
  = if mn <=? j then Some (MState (e + j) caps) else None.
Proof.
  intros j. revert e. induction j as [|j IH]; intros e mn; simpl.
  - destruct mn; simpl; [now rewrite Nat.add_0_r | reflexivity].
  - rewrite IH. destruct mn as [|mn]; simpl.
    + rewrite Nat.add_succ_r. reflexivity.
    + destruct (mn <=? j); [rewrite Nat.add_succ_r|]; reflexivity.
Qed.
End Atoms.

Lemma compile_repeat_any_fuel_witness :
  let input := ["a"; "b"]%char in
  1 + (length input - 0) < 7 /\
  compile input false (Repeat 1 None true Dot) 0 (fun y => Some y) (MState 0 [])
  = repeat_matcher (compile input false Dot 0) 0 0 true (fun y => Some y) 7 1 None (MState 0 []).
Proof.
  intros input. split; [simpl; lia|].
  apply (compile_repeat_any_fuel input false 1 None true Dot 0 (fun y => Some y) (MState 0 []) 7).
  simpl; lia.
Defined.
