(* ===== verification/RegexSem.v ===== *)
(** * A declarative semantics of the patterns and the soundness of the matcher

    [sem r gi x y] says that pattern [r], whose first group has index
    [gi], can take the match state [x] to [y].  It is a big-step
    relation with one rule per case of CompileSubpattern.  The rules
    decide nothing about backtracking order; they say only which
    transitions are possible: a character set consumes one code unit it
    accepts, a group records its range, and a quantifier stops or
    iterates, clearing its groups' captures before each iteration and
    refusing an empty iteration once its minimum is reached.

    [compile_sound] shows that every answer of the backtracking CPS
    matcher [compile] follows such a transition.  [exec_sound] lifts
    this to exec.  The extractors' theorems on the shape of what they
    return rest on these lemmas. *)

From Stdlib Require Import Ascii String List Bool Arith Lia.
From S2P Require Import Prelude Chars Regex RegexFacts.
Import ListNotations.

Section Sem.
Variable input : list ascii.
Variable ic : bool.

(** The test of CharacterSetMatcher on the code unit [ch]. *)
Definition char_accepts (A : ascii -> bool) (invert : bool) (ch : ascii) : bool :=
  let found :=
    if ic then existsb (fun a => A a && (canonicalize a =? canonicalize ch)) all_code_units
    else A ch in
  negb (Bool.eqb found invert).

(** The character set and the inversion flag of an atom that compiles to
    a CharacterSetMatcher. *)
Definition atom_set (r : regex) : option ((ascii -> bool) * bool) :=
  match r with
  | Char c => Some (fun a => (a =? c)%char, false)
  | Dot => Some (fun a => negb (is_line_terminator a), false)
  | Esc e => Some (esc_mem e, false)
  | CharClass invert items => Some (class_mem items, invert)
  | _ => None
  end.

Definition clear_caps (gi cnt : nat) (x : mstate) : mstate :=
  MState (endIndex x) (clear_range gi cnt (captures x)).

Inductive sem : regex -> nat -> mstate -> mstate -> Prop :=
| sem_empty gi x : sem Empty gi x x
| sem_atom r A inv gi x ch :
    atom_set r = Some (A, inv) -> nth_error input (endIndex x) = Some ch ->
    char_accepts A inv ch = true ->
    sem r gi x (MState (S (endIndex x)) (captures x))
| sem_boundary neg gi x :
    Bool.eqb (xorb (word_before input (endIndex x)) (is_word_at input (endIndex x))) (negb neg)
    = true ->
    sem (WordBoundary neg) gi x x
| sem_seq r1 r2 gi x y z :
    sem r1 gi x y -> sem r2 (gi + ngroups r1) y z -> sem (Seq r1 r2) gi x z
| sem_alt_l r1 r2 gi x y : sem r1 gi x y -> sem (Alt r1 r2) gi x y
| sem_alt_r r1 r2 gi x y : sem r2 (gi + ngroups r1) x y -> sem (Alt r1 r2) gi x y
| sem_group r gi x y :
    sem r (S gi) x y ->
    sem (Group r) gi x (MState (endIndex y) (set_nth gi (Some (endIndex x, endIndex y)) (captures y)))
| sem_rep_stop mn mx g r gi x :
    max_is_zero mx = true \/ mn = 0 -> sem (Repeat mn mx g r) gi x x
| sem_rep_iter mn mx g r gi x y z :
    max_is_zero mx = false -> sem r gi (clear_caps gi (ngroups r) x) y ->
    (mn = 0 -> endIndex y <> endIndex x) ->
    sem (Repeat (pred mn) (option_map pred mx) g r) gi y z ->
    sem (Repeat mn mx g r) gi x z.

(** ** Soundness of the CPS matcher *)

Lemma char_set_matcher_sound A inv k x z :
  char_set_matcher input ic A inv k x = Some z ->
  exists ch, nth_error input (endIndex x) = Some ch /\ char_accepts A inv ch = true
             /\ k (MState (S (endIndex x)) (captures x)) = Some z.
Proof.
  unfold char_set_matcher, char_accepts. destruct (nth_error input (endIndex x)) as [ch|]; [|discriminate].
  intros H. exists ch. split; [reflexivity|].
  destruct (Bool.eqb _ inv); [discriminate|]. split; [reflexivity | exact H].
Qed.

Lemma compile_atom r A inv gi :
  atom_set r = Some (A, inv) -> compile input ic r gi = char_set_matcher input ic A inv.
Proof. destruct r; simpl; intros H; try discriminate; injection H as <- <-; reflexivity. Qed.

Section RepeatSound.
Variables (r : regex) (gi : nat) (greedy : bool).
Hypothesis IHr : forall k x z, compile input ic r gi k x = Some z -> exists y, sem r gi x y /\ k y = Some z.

Lemma repeat_matcher_sound k : forall fuel mn mx x z,
  repeat_matcher (compile input ic r gi) gi (ngroups r) greedy k fuel mn mx x = Some z ->
  exists y, sem (Repeat mn mx greedy r) gi x y /\ k y = Some z.
Proof.
  induction fuel as [|f IH]; intros mn mx x z H; [discriminate|]. simpl in H.
  destruct (max_is_zero mx) eqn:Z; [exists x; split; [apply sem_rep_stop; auto | exact H]|].
  assert (Iter : compile input ic r gi
            (fun y => if (mn =? 0) && (endIndex y =? endIndex x) then None
                      else repeat_matcher (compile input ic r gi) gi (ngroups r) greedy k f
                             (pred mn) (option_map pred mx) y)
            (clear_caps gi (ngroups r) x) = Some z ->
          exists y, sem (Repeat mn mx greedy r) gi x y /\ k y = Some z).
  { intros Hm. apply IHr in Hm as (y & Sy & Hd).
    destruct ((mn =? 0) && (endIndex y =? endIndex x)) eqn:G; [discriminate|].
    apply IH in Hd as (w & Sw & Hw). exists w. split; [|exact Hw].
    apply (sem_rep_iter _ _ _ _ _ _ y); auto.
    intros M E. apply Nat.eqb_eq in M. rewrite M, E, Nat.eqb_refl in G. discriminate. }
  destruct (negb (mn =? 0)) eqn:N; [exact (Iter H)|].
  apply negb_false_iff, Nat.eqb_eq in N.
  destruct greedy; apply orelse_Some in H as [H|[_ H]] || apply orelse_Some in H as [H|[_ H]];
    first [exact (Iter H) | exists x; split; [apply sem_rep_stop; auto | exact H]].
Qed.
End RepeatSound.

(** Every answer of [compile r gi] with continuation [k] is an answer of
    [k] at a state that [r] can reach. *)
Theorem compile_sound_cps : forall r gi k x z,
  compile input ic r gi k x = Some z -> exists y, sem r gi x y /\ k y = Some z.
Proof.
  induction r as [| c | | e | inv items | neg | r1 IH1 r2 IH2 | r1 IH1 r2 IH2 | r IH
                 | mn mx g r IH]; intros gi k x z H;
    try (erewrite compile_atom in H by reflexivity;
         apply char_set_matcher_sound in H as (ch & E & A & Hk);
         eexists; split; [eapply sem_atom; [reflexivity | exact E | exact A] | exact Hk]).
  - exists x. split; [constructor | exact H].
  - simpl in H. unfold word_boundary_matcher in H.
    destruct (Bool.eqb _ _) eqn:B; [|discriminate]. exists x. split; [constructor; exact B | exact H].
  - simpl in H. apply IH1 in H as (y & S1 & H). apply IH2 in H as (w & S2 & H).
    exists w. split; [econstructor; eassumption | exact H].
  - simpl in H. apply orelse_Some in H as [H|[_ H]].
    + apply IH1 in H as (y & S1 & H). exists y. split; [constructor; exact S1 | exact H].
    + apply IH2 in H as (y & S2 & H). exists y. split; [apply sem_alt_r; exact S2 | exact H].
  - simpl in H. apply IH in H as (y & S1 & H). eexists. split; [constructor; exact S1 | exact H].
  - eapply repeat_matcher_sound; [|exact H]. intros. eapply IH; eassumption.
Qed.
End Sem.

(** ** Lifting to exec *)

(** A match of exec from [lastIndex] is a transition of the pattern
    from its start, with every capture undefined, to its end. *)
Lemma exec_sound rx input last mt :
  exec_from rx input last = Some mt ->
  sem input (ignoreCase rx) (pattern rx) 0
      (MState (m_index mt) (repeat None (ngroups (pattern rx)))) (MState (m_end mt) (m_caps mt)).
Proof.
  intros (_ & H & _)%exec_from_Some. unfold match_at in H.
  apply compile_sound_cps in H as (y & Sy & [= ->]). exact Sy.
Qed.

(** ** Reading a transition *)

Section SemFacts.
Variable input : list ascii.
Variable ic : bool.
Abbreviation sem := (sem input ic).

Lemma sem_le r gi x y : sem r gi x y -> endIndex x <= endIndex y.
Proof. induction 1; simpl in *; lia. Qed.

Lemma sem_caps_length r gi x y : sem r gi x y -> length (captures y) = length (captures x).
Proof.
  induction 1; simpl in *; rewrite ?length_set_nth; try lia.
  rewrite IHsem2, IHsem1. apply length_clear_range.
Qed.

Lemma sem_atom_inv r A inv gi x y :
  atom_set r = Some (A, inv) -> sem r gi x y ->
  exists ch, nth_error input (endIndex x) = Some ch /\ char_accepts ic A inv ch = true
             /\ y = MState (S (endIndex x)) (captures x).
Proof.
  intros Hr H. inversion H; subst; try discriminate.
  rewrite Hr in H0. injection H0 as <- <-. eauto.
Qed.

Lemma sem_boundary_inv neg gi x y :
  sem (WordBoundary neg) gi x y ->
  y = x /\ Bool.eqb (xorb (word_before input (endIndex x)) (is_word_at input (endIndex x))) (negb neg)
           = true.
Proof. intros H. inversion H; subst; [discriminate|]. auto. Qed.

Lemma sem_group_inv r gi x z :
  sem (Group r) gi x z ->
  exists y, sem r (S gi) x y
    /\ z = MState (endIndex y) (set_nth gi (Some (endIndex x, endIndex y)) (captures y)).
Proof. intros H. inversion H; subst; [discriminate|]. eauto. Qed.

Lemma sem_alt_inv r1 r2 gi x y :
  sem (Alt r1 r2) gi x y -> sem r1 gi x y \/ sem r2 (gi + ngroups r1) x y.
Proof. intros H. inversion H; subst; [discriminate| |]; auto. Qed.

(** The terms of an Alternative in a row. *)
Inductive sem_list : list regex -> nat -> mstate -> mstate -> Prop :=
| sem_nil gi x : sem_list [] gi x x
| sem_cons t ts gi x y z :
    sem t gi x y -> sem_list ts (gi + ngroups t) y z -> sem_list (t :: ts) gi x z.

Lemma sem_fold_seq ts : forall r0 gi x z,
  sem (fold_left Seq ts r0) gi x z ->
  exists y, sem r0 gi x y /\ sem_list ts (gi + ngroups r0) y z.
Proof.
  induction ts as [|t ts IH]; intros r0 gi x z H; simpl in H.
  - exists z. split; [exact H | constructor].
  - apply IH in H as (y' & Sy & L). inversion Sy; subst; try discriminate.
    eexists; split; [eassumption|]. econstructor; [eassumption|].
    simpl in L. rewrite Nat.add_assoc in L. exact L.
Qed.

Lemma sem_seqs ts gi x z : sem (fold_left Seq ts Empty) gi x z -> sem_list ts gi x z.
Proof.
  intros H. apply sem_fold_seq in H as (y & Sy & L). inversion Sy; subst; try discriminate.
  rewrite Nat.add_0_r in L. exact L.
Qed.

(** The converse: transitions of the terms in turn make one of their
    sequence. *)
Lemma sem_fold_seq_intro ts : forall r0 gi x y z,
  sem r0 gi x y -> sem_list ts (gi + ngroups r0) y z -> sem (fold_left Seq ts r0) gi x z.
Proof.
  induction ts as [|t ts IH]; intros r0 gi x y z S0 L; simpl.
  - inversion L; subst. exact S0.
  - inversion L as [|? ? ? ? y' ? St Lt]; subst. apply (IH _ _ _ y'); [econstructor; eassumption|].
    simpl. rewrite Nat.add_assoc. exact Lt.
Qed.

Lemma sem_seqs_intro ts gi x z : sem_list ts gi x z -> sem (fold_left Seq ts Empty) gi x z.
Proof. intros L. apply (sem_fold_seq_intro ts Empty gi x x z); [constructor | now rewrite Nat.add_0_r]. Qed.

Lemma atom_ngroups r A inv : atom_set r = Some (A, inv) -> ngroups r = 0.
Proof. destruct r; simpl; congruence. Qed.

(** The count bounds of a quantifier, [min <= max] for a literal of
    the program (the grammar rejects [{n,m}] with [n > m]). *)
Definition le_max (n : nat) (mx : option nat) : Prop :=
  match mx with Some m => n <= m | None => True end.

(** A quantified character set consumes between [min] and [max] code
    units, each accepted by the set, and leaves the captures alone. *)
Lemma sem_repeat_atom mn mx g r A inv gi x y :
  atom_set r = Some (A, inv) -> le_max mn mx -> sem (Repeat mn mx g r) gi x y ->
  captures y = captures x /\ endIndex x <= endIndex y
  /\ mn <= endIndex y - endIndex x /\ le_max (endIndex y - endIndex x) mx
  /\ forallb (char_accepts ic A inv) (substr input (endIndex x) (endIndex y)) = true.
Proof.
  intros Hr Hm H. remember (Repeat mn mx g r) as R eqn:ER. revert mn mx Hm ER.
  induction H as [| | | | | | | mn0 mx0 g0 r0 gi0 x0 Hz
                  | mn0 mx0 g0 r0 gi0 x0 y0 z0 Hz S1 _ Hne S2 IH2];
    intros mn' mx' Hm ER; try (subst; discriminate); injection ER as <- <- <- <-.
  - rewrite substr_nil, Nat.sub_diag. split; [reflexivity|]. split; [lia|].
    destruct Hz as [Z| ->]; [destruct mx0 as [[|m]|]; try discriminate; simpl in *|];
      (split; [lia|]); (split; [try (destruct mx0; simpl); lia|]); reflexivity.
  - rewrite (atom_ngroups r0 A inv Hr) in S1.
    apply (sem_atom_inv r0 A inv) in S1 as (ch & E & Ac & ->); [|exact Hr]. cbn in *.
    rewrite clear_range_0 in *.
    destruct (IH2 (pred mn0) (option_map pred mx0))
      as (C & L & Mn & Mx & F); [destruct mx0 as [[|m]|]; simpl in *; lia| reflexivity|].
    cbn in *. split; [exact C|]. split; [lia|]. split; [lia|].
    split; [destruct mx0 as [[|m]|]; simpl in *; try discriminate; lia|].
    rewrite (substr_cons_lt input _ _ ch) by (lia || exact E). simpl. rewrite Ac. exact F.
Qed.


Lemma sem_list_nil_inv gi x z : sem_list [] gi x z -> z = x.
Proof. intros H. now inversion H. Qed.

Lemma sem_list_cons_inv t ts gi x z :
  sem_list (t :: ts) gi x z -> exists y, sem t gi x y /\ sem_list ts (gi + ngroups t) y z.
Proof. intros H. inversion H; subst. eauto. Qed.

(** A PatternCharacter [c] as the CharacterSetMatcher sees it. *)
Fixpoint lit_ok (w u : list ascii) : bool :=
  match w, u with
  | [], [] => true
  | c :: w', ch :: u' => char_accepts ic (fun a => (a =? c)%char) false ch && lit_ok w' u'
  | _, _ => false
  end.

(** A literal run of PatternCharacters consumes one code unit per
    character, each accepted by it. *)
Lemma sem_lit w : forall gi x y,
  sem_list (map Char w) gi x y ->
  captures y = captures x /\ endIndex y = endIndex x + length w
  /\ lit_ok w (substr input (endIndex x) (endIndex y)) = true.
Proof.
  induction w as [|c w IH]; intros gi x y H; simpl in H.
  - apply sem_list_nil_inv in H as ->. rewrite substr_nil. simpl. auto.
  - apply sem_list_cons_inv in H as (y1 & S1 & L).
    apply (sem_atom_inv (Char c) (fun a => (a =? c)%char) false) in S1 as (ch & E & Ac & Ey); [|reflexivity]. subst y1.
    apply IH in L as (C & En & Ok). cbn in *. split; [exact C|]. split; [lia|].
    rewrite (substr_cons_lt input _ _ ch) by (lia || exact E). simpl. rewrite Ac. exact Ok.
Qed.


Lemma ngroups_fold_seq ts : forall r0,
  ngroups (fold_left Seq ts r0) = ngroups r0 + ngroups (fold_left Seq ts Empty).
Proof.
  induction ts as [|t ts IH]; intros r0; simpl; [lia|].
  rewrite (IH (Seq r0 t)), (IH (Seq Empty t)). simpl. lia.
Qed.

(** An Alternative split in two. *)
Lemma sem_list_app ts us : forall gi x z,
  sem_list (ts ++ us) gi x z ->
  exists y, sem_list ts gi x y /\ sem_list us (gi + ngroups (fold_left Seq ts Empty)) y z.
Proof.
  induction ts as [|t ts IH]; intros gi x z H; simpl in H.
  - exists x. split; [constructor | rewrite Nat.add_0_r; exact H].
  - apply sem_list_cons_inv in H as (y1 & S1 & L). apply IH in L as (y & L1 & L2).
    exists y. split; [econstructor; eassumption|].
    cbn [fold_left]. rewrite ngroups_fold_seq. simpl in *. rewrite Nat.add_assoc. exact L2.
Qed.

End SemFacts.

(** ** The character test with and without the [i] flag *)

Lemma char_accepts_plain A ch : char_accepts false A false ch = A ch.
Proof. unfold char_accepts. now destruct (A ch). Qed.

Lemma forallb_char_accepts_plain A w :
  forallb (char_accepts false A false) w = forallb A w.
Proof. induction w as [|c w IH]; simpl; [reflexivity|]. now rewrite char_accepts_plain, IH. Qed.

Lemma char_accepts_ignore_case c ch :
  char_accepts true (fun a => (a =? c)%char) false ch = (canonicalize c =? canonicalize ch).
Proof.
  unfold char_accepts. rewrite existsb_singleton_code_unit.
  now destruct (canonicalize c =? canonicalize ch).
Qed.

Lemma lit_ok_plain : forall w u, lit_ok false w u = true -> u = w.
Proof.
  induction w as [|c w IH]; intros [|ch u] H; simpl in H; try discriminate; [reflexivity|].
  apply andb_prop in H as [Hc H]. rewrite char_accepts_plain in Hc.
  apply Ascii.eqb_eq in Hc as ->. f_equal. apply IH, H.
Qed.

Lemma lit_ok_ignore_case : forall w u,
  lit_ok true w u = true -> map canonicalize u = map canonicalize w.
Proof.
  induction w as [|c w IH]; intros [|ch u] H; simpl in H; try discriminate; [reflexivity|].
  apply andb_prop in H as [Hc H]. rewrite char_accepts_ignore_case in Hc.
  apply Nat.eqb_eq in Hc. simpl. f_equal; [congruence | apply IH, H].
Qed.

(** A quantified character set without the [i] flag, read as a segment
    of the input. *)
Lemma sem_repeat_plain input mn mx g r A gi x y :
  atom_set r = Some (A, false) -> le_max mn mx ->
  sem input false (Repeat mn mx g r) gi x y -> endIndex y <= length input ->
  captures y = captures x /\ endIndex x <= endIndex y
  /\ mn <= length (substr input (endIndex x) (endIndex y))
  /\ le_max (length (substr input (endIndex x) (endIndex y))) mx
  /\ forallb A (substr input (endIndex x) (endIndex y)) = true.
Proof.
  intros Hr Hm H Hy. apply (sem_repeat_atom input false mn mx g r A false gi x y Hr Hm) in H
    as (C & L & Mn & Mx & F).
  rewrite length_substr by exact Hy. rewrite forallb_char_accepts_plain in F. auto.
Qed.

(** ** Building transitions of character sets *)

Lemma sem_atom_intro input r A gi i caps c :
  atom_set r = Some (A, false) -> nth_error input i = Some c -> A c = true ->
  sem input false r gi (MState i caps) (MState (S i) caps).
Proof.
  intros Hr E Ac. apply (sem_atom input false r A false gi (MState i caps) c Hr E).
  now rewrite char_accepts_plain.
Qed.

Section Intro.
Variables (input : list ascii) (r : regex) (A : ascii -> bool) (g : bool) (gi : nat) (caps : list (option (nat * nat))).
Hypothesis Hr : atom_set r = Some (A, false).
Hypothesis Hg : ngroups r = 0.

Lemma sem_iter_atom_intro i c :
  nth_error input i = Some c -> A c = true ->
  sem input false r gi (clear_caps gi (ngroups r) (MState i caps)) (MState (S i) caps).
Proof. intros E Ac. unfold clear_caps. cbn. rewrite Hg, clear_range_0. eapply sem_atom_intro; eassumption. Qed.

(** [r{n}] consumes [n] code units of its set. *)
Lemma sem_times_intro : forall n i, span input A i n = true ->
  sem input false (Repeat n (Some n) g r) gi (MState i caps) (MState (i + n) caps).
Proof.
  induction n as [|n IH]; intros i Sp.
  - rewrite Nat.add_0_r. apply sem_rep_stop. left; reflexivity.
  - simpl in Sp. destruct (nth_error input i) as [c|] eqn:E; [|discriminate].
    apply andb_prop in Sp as [Ac Sp].
    apply (sem_rep_iter _ _ _ _ _ _ _ _ (MState (S i) caps)); [reflexivity | eapply sem_iter_atom_intro; eassumption | intros; discriminate |].
    rewrite <- Nat.add_succ_comm. exact (IH (S i) Sp).
Qed.

(** [r?] consumes one code unit of its set when there is one, and
    nothing otherwise. *)
Lemma sem_opt_intro i c :
  nth_error input i = Some c -> A c = true ->
  sem input false (Repeat 0 (Some 1) g r) gi (MState i caps) (MState (S i) caps).
Proof.
  intros E Ac. apply (sem_rep_iter _ _ _ _ _ _ _ _ (MState (S i) caps));
    [reflexivity | eapply sem_iter_atom_intro; eassumption | cbn; lia |].
  apply sem_rep_stop. left; reflexivity.
Qed.

Lemma sem_opt_skip_intro x : sem input false (Repeat 0 (Some 1) g r) gi x x.
Proof. apply sem_rep_stop. right; reflexivity. Qed.
End Intro.

(** Take the next term of an Alternative: [H : sem_list (t :: ts) gi x z]
    becomes [S : sem t gi x y] and [H : sem_list ts _ y z]. *)
Ltac sem_next H y S :=
  let H' := fresh "L" in
  destruct (sem_list_cons_inv _ _ _ _ _ _ _ H) as (y & S & H'); clear H; rename H' into H.

(** ** Completeness of the CPS matcher *)

Section Complete.
Variable input : list ascii.
Variable ic : bool.

Lemma sem_bound r gi x y :
  sem input ic r gi x y -> endIndex x <= length input -> endIndex y <= length input.
Proof.
  induction 1; simpl; intros Hx; auto.
  assert (endIndex x < length input) by (apply nth_error_Some; congruence). lia.
Qed.

(** Backtracking explores every transition: when [r] can reach a state
    that the continuation accepts, the matcher answers.  RepeatMatcher's
    fuel is enough because each iteration either lowers the minimum or
    consumes input ([rep_fuel_irrelevant]). *)
Lemma compile_complete_cps r gi x y :
  sem input ic r gi x y -> endIndex x <= length input ->
  forall k, k y <> None -> compile input ic r gi k x <> None.
Proof.
  induction 1 as [gi x | r A inv gi x ch Hr E Ac | neg gi x B | r1 r2 gi x y z S1 IH1 S2 IH2
                 | r1 r2 gi x y S1 IH1 | r1 r2 gi x y S2 IH2 | r gi x y S1 IH1
                 | mn mx g r gi x Hz | mn mx g r gi x y z Hz S1 IH1 Hne S2 IH2];
    intros Hx k Hk.
  - exact Hk.
  - rewrite (compile_atom input ic r A inv gi Hr). unfold char_set_matcher. rewrite E.
    unfold char_accepts in Ac. destruct (Bool.eqb _ inv); [discriminate | exact Hk].
  - simpl. unfold word_boundary_matcher. rewrite B. exact Hk.
  - simpl. apply IH1; [exact Hx|]. apply IH2; [apply (sem_bound _ _ _ _ S1 Hx) | exact Hk].
  - simpl. apply orelse_not_None_l, IH1; assumption.
  - simpl. destruct (compile input ic r1 gi k x) eqn:E; [simpl; congruence|].
    simpl. apply IH2; assumption.
  - simpl. apply IH1; [exact Hx | exact Hk].
  - cbn [compile]. unfold repeat_fuel. rewrite repeat_matcher_S.
    destruct (max_is_zero mx) eqn:Z; [exact Hk|]. destruct Hz as [Hz| ->]; [congruence|].
    cbn [Nat.eqb negb]. destruct g; [apply orelse_not_None_r | apply orelse_not_None_l]; exact Hk.
  - assert (Ly : endIndex x <= endIndex y) by apply (sem_le _ _ _ _ _ _ S1).
    assert (By : endIndex y <= length input) by apply (sem_bound _ _ _ _ S1 Hx).
    cbn [compile]. unfold repeat_fuel. rewrite repeat_matcher_S, Hz.
    assert (Hm : compile input ic r gi
       (fun y' => if (mn =? 0) && (endIndex y' =? endIndex x) then None
                  else repeat_matcher (compile input ic r gi) gi (ngroups r) g k
                         (mn + (length input - endIndex x)) (pred mn) (option_map pred mx) y')
       (clear_caps gi (ngroups r) x) <> None).
    { apply IH1; [exact Hx|].
      destruct ((mn =? 0) && (endIndex y =? endIndex x)) eqn:G.
      { apply andb_prop in G as [G1 G2]. apply Nat.eqb_eq in G1, G2. exfalso; exact (Hne G1 G2). }
      rewrite (rep_fuel_irrelevant input _ (compile_local input ic r gi) gi (ngroups r) g k
                 _ (repeat_fuel input (pred mn) y)).
      - apply IH2; assumption.
      - destruct mn; [specialize (Hne eq_refl)|]; simpl; lia.
      - unfold repeat_fuel. lia. }
    destruct (negb (mn =? 0)); [exact Hm|].
    destruct g; [apply orelse_not_None_l; exact Hm|].
    destruct (k x); simpl; [congruence | exact Hm].
Qed.
End Complete.

(** ** exec against the semantics *)

Section ExecSem.
Variable rx : regexp.
Variable input : list ascii.
Abbreviation start p := (MState p (repeat None (ngroups (pattern rx)))).
Abbreviation sem_rx := (sem input (ignoreCase rx) (pattern rx) 0).

Lemma match_at_complete p y :
  p <= length input -> sem_rx (start p) y -> match_at input (ignoreCase rx) (pattern rx) p <> None.
Proof.
  intros Hp Sy. unfold match_at. apply (compile_complete_cps _ _ _ _ _ _ Sy); [exact Hp | discriminate].
Qed.

(** A transition from [p], and none from [lastIndex] before it: exec
    finds its match at [p]. *)
Lemma exec_from_first_sem last p y :
  last <= p <= length input -> sem_rx (start p) y ->
  (forall q z, last <= q < p -> ~ sem_rx (start q) z) ->
  exists mt, exec_from rx input last = Some mt /\ m_index mt = p.
Proof.
  intros Hp Sy Hb. destruct (exec_from rx input last) as [mt|] eqn:E.
  - exists mt. split; [reflexivity|]. pose proof (exec_from_range _ _ _ _ E) as R.
    pose proof (exec_sound _ _ _ _ E) as Sm. apply exec_from_Some in E as (_ & _ & L).
    destruct (Nat.lt_trichotomy (m_index mt) p) as [Lt|[Eq|Gt]]; [|exact Eq|].
    + exfalso. exact (Hb (m_index mt) _ ltac:(lia) Sm).
    + exfalso. exact (match_at_complete p y (proj2 Hp) Sy (L p ltac:(lia))).
  - exfalso. rewrite exec_from_None in E. exact (match_at_complete p y (proj2 Hp) Sy (E p Hp)).
Qed.

(** Exec from [lastIndex] fails exactly when no position from
    [lastIndex] to the end of the input starts a transition of the
    pattern in the declarative semantics. *)
Theorem exec_from_None_iff last :
  exec_from rx input last = None <->
  forall p y, last <= p <= length input -> ~ sem_rx (start p) y.
Proof.
  split.
  - intros E p y Hp Sy. rewrite exec_from_None in E.
    exact (match_at_complete p y (proj2 Hp) Sy (E p Hp)).
  - intros H. destruct (exec_from rx input last) as [mt|] eqn:E; [|reflexivity].
    pose proof (exec_from_range _ _ _ _ E) as R. apply exec_sound in E.
    exfalso. exact (H _ _ (conj (proj1 (proj1 R)) (Nat.le_trans _ _ _ (proj2 (proj1 R)) (proj2 R))) E).
Qed.

(** A match of exec is a transition of the pattern in the
    declarative semantics from the match's index to its end, and no
    earlier position from [lastIndex] starts one. *)
Theorem exec_from_Some_sem last mt :
  exec_from rx input last = Some mt ->
  last <= m_index mt <= m_end mt /\ m_end mt <= length input
  /\ sem_rx (start (m_index mt)) (MState (m_end mt) (m_caps mt))
  /\ forall p y, last <= p < m_index mt -> ~ sem_rx (start p) y.
Proof.
  intros E. pose proof (exec_from_range _ _ _ _ E) as R. destruct R as [R1 R2]. split; [exact R1|]. split; [exact R2|].
  pose proof (exec_sound _ _ _ _ E) as Sm. split; [exact Sm|].
  apply exec_from_Some in E as (_ & _ & L). intros p y Hp Sy.
  exact (match_at_complete p y ltac:(lia) Sy (L p Hp)).
Qed.
End ExecSem.

Lemma exec_from_Some_sem_witness :
  let rx := RegExp (Char "a") false false in
  let input := ["b"; "a"]%char in
  exec_from rx input 0 = Some (JsMatch 1 2 [])
  /\ (0 <= 1 <= 2 /\ 2 <= length input
      /\ sem input false (Char "a") 0 (MState 1 []) (MState 2 [])
      /\ forall p y, 0 <= p < 1 -> ~ sem input false (Char "a") 0 (MState p []) y).
Proof.
  intros rx input. assert (H : exec_from rx input 0 = Some (JsMatch 1 2 [])) by (vm_compute; reflexivity).
  split; [exact H|]. exact (exec_from_Some_sem rx input 0 _ H).
Defined.

(** A character set without the [i] flag consumes one code unit of the
    set. *)
Lemma sem_atom_plain input r A gi x y :
  atom_set r = Some (A, false) -> sem input false r gi x y ->
  exists ch, nth_error input (endIndex x) = Some ch /\ A ch = true
             /\ y = MState (S (endIndex x)) (captures x).
Proof.
  intros Hr H. apply (sem_atom_inv input false r A false) in H as (ch & E & Ac & ->); [|exact Hr].
  rewrite char_accepts_plain in Ac. eauto.
Qed.

(** Evaluate the group counts of closed patterns, in the goal and the
    hypotheses. *)
Ltac is_nat_lit n := lazymatch n with O => idtac | S ?m => is_nat_lit m end.

Ltac norm_groups :=
  repeat match goal with
  | H : context [ngroups ?r] |- _ =>
      let n := eval vm_compute in (ngroups r) in is_nat_lit n; change (ngroups r) with n in H
  | |- context [ngroups ?r] =>
      let n := eval vm_compute in (ngroups r) in is_nat_lit n; change (ngroups r) with n
  end; cbn [Nat.add] in *.
