(* ===== verification/StringOps.v ===== *)
(** * The string methods the program calls

    [String.prototype.trim] (TrimString, ECMAScript 2023 §22.1.3.32.1)
    and [String.prototype.replace] with a global regular expression,
    which delegates to [RegExp.prototype[@@replace]] (§22.2.6.11).  The
    replace loop collects every match from [lastIndex = 0].  After an
    empty match it moves [lastIndex] one past the match
    (AdvanceStringIndex).  It then splices the replacement in place of
    each match whose position is not before the end of the previous
    one.  The program's replacement strings ([" "] and [""]) contain no
    [$], so GetSubstitution returns them unchanged.  The loop's bound is
    proved adequate ([collect_matches_fuel]): [lastIndex] grows at every
    round, so the loop ends because exec fails. *)

From Stdlib Require Import Ascii String List Bool Arith Lia.
From S2P Require Import Prelude Chars Regex RegexFacts.
Import ListNotations.

(** ** trim *)

Fixpoint trim_start (l : list ascii) : list ascii :=
  match l with
  | c :: t => if is_js_space c then trim_start t else l
  | [] => []
  end.

Definition trim_end (l : list ascii) : list ascii := rev (trim_start (rev l)).

(** TrimString(S, start+end): leading and trailing WhiteSpace and
    LineTerminator removed. *)
Definition trim_list (l : list ascii) : list ascii := trim_end (trim_start l).

Definition trim (s : string) : string :=
  string_of_list_ascii (trim_list (list_ascii_of_string s)).

(** ** replace with a global regex *)

Section Replace.
Variable rx : regexp.
Variable input : list ascii.

(** The loop of steps 11-12 of @@replace: exec from [lastIndex] until
    it fails; after an empty match [lastIndex] moves one further. *)
Fixpoint collect_matches (fuel last : nat) : list js_match :=
  match fuel with
  | 0 => []
  | S f =>
      match exec_from rx input last with
      | None => []
      | Some mt =>
          mt :: collect_matches f
                  (if m_end mt =? m_index mt then S (m_end mt) else m_end mt)
      end
  end.

(** Steps 14-15: splice [repl] in place of each match in order;
    [next] is nextSourcePosition. *)
Fixpoint splice (repl : list ascii) (next : nat) (ms : list js_match) : list ascii :=
  match ms with
  | [] => if length input <=? next then [] else skipn next input
  | mt :: ms' =>
      let position := Nat.min (m_index mt) (length input) in
      if next <=? position
      then substr input next position ++ repl
           ++ splice repl (position + (m_end mt - m_index mt)) ms'
      else splice repl next ms'
  end.

(** [lastIndex] strictly increases and exec fails beyond the length,
    so [length + 2] rounds run the loop to its end. *)
Definition replace_fuel : nat := S (S (length input)).

Definition replace_all_list (repl : list ascii) : list ascii :=
  splice repl 0 (collect_matches replace_fuel 0).
End Replace.

(** [s.replace(rx, repl)] for a regex with the [g] flag and a
    replacement string without [$]. *)
Definition replace_global (s : string) (rx : regexp) (repl : string) : string :=
  string_of_list_ascii
    (replace_all_list rx (list_ascii_of_string s) (list_ascii_of_string repl)).

(** ** The replace loop terminates *)

Section ReplaceFacts.
Variable rx : regexp.
Variable input : list ascii.

(** The loop of @@replace ends by exec failing, not by running out
    of fuel: [lastIndex] grows at every round, so from [last] on any
    fuel of at least [length + 1 - last] rounds gives the same list of
    matches, and [replace_fuel] is such a fuel. *)
Theorem collect_matches_fuel : forall f1 f2 last,
  S (length input) - last <= f1 -> S (length input) - last <= f2 ->
  collect_matches rx input f1 last = collect_matches rx input f2 last.
Proof.
  induction f1 as [|g IH]; intros f2 last H1 H2.
  - destruct f2; [reflexivity|]. simpl. rewrite exec_from_beyond by lia. reflexivity.
  - destruct f2 as [|h].
    + simpl. rewrite exec_from_beyond by lia. reflexivity.
    + simpl. destruct (exec_from rx input last) as [mt|] eqn:E; [|reflexivity].
      apply exec_from_range in E. f_equal.
      destruct (m_end mt =? m_index mt) eqn:Q; [apply Nat.eqb_eq in Q|apply Nat.eqb_neq in Q];
        apply IH; lia.
Qed.
End ReplaceFacts.

Lemma collect_matches_fuel_witness :
  S (length (list_ascii_of_string "a b")) - 0 <= 4
  /\ S (length (list_ascii_of_string "a b")) - 0 <= 9
  /\ collect_matches (RegExp (Char " ") false true) (list_ascii_of_string "a b") 4 0
     = collect_matches (RegExp (Char " ") false true) (list_ascii_of_string "a b") 9 0.
Proof.
  split; [simpl; lia|]. split; [simpl; lia|].
  apply collect_matches_fuel; simpl; lia.
Defined.
