(* ===== verification/Extractors.v ===== *)
(** * The field extractors of server.js and DetailsExtraction.js

    Each regex literal of the source is written as a [regexp] value.  An
    Alternative is a left-nested [Seq] from [Empty], because the grammar
    builds it that way ([Alternative :: Alternative Term]).  A
    Disjunction is a right-nested [Alt]
    ([Disjunction :: Alternative | Disjunction]).  Each JavaScript
    function becomes one definition.  [match ? ... : null] is a case on
    exec; [match[n]] reads a group, which may be [undefined];
    [.trim()] on [undefined] throws a TypeError ([result]).  Module
    [Server] holds the helpers of server.js and module [Details] the
    functions of DetailsExtraction.js.  Both files have a function
    called [extractName]. *)

From Stdlib Require Import Ascii String List Bool Arith Lia.
From S2P Require Import Prelude Chars Regex RegexFacts StringOps.
Import ListNotations.

(** ** Building regex literals *)

(** An Alternative: its terms in order. *)
Definition seqs (terms : list regex) : regex := fold_left Seq terms Empty.

(** The PatternCharacters of a literal piece of a pattern. *)
Definition lit (s : string) : list regex := map Char (list_ascii_of_string s).

Definition digit : regex := Esc EscDigit.
Definition space : regex := Esc EscSpace.
Definition plus (r : regex) : regex := Repeat 1 None true r.       (* r+ *)
Definition star (r : regex) : regex := Repeat 0 None true r.       (* r* *)
Definition lazy_star (r : regex) : regex := Repeat 0 None false r. (* r*? *)
Definition opt (r : regex) : regex := Repeat 0 (Some 1) true r.    (* r? *)
Definition times (n : nat) (r : regex) : regex := Repeat n (Some n) true r.  (* r{n} *)

Definition plain (r : regex) : regexp := RegExp r false false.

(** ** The regex literals *)

(** server.js:70 [/\s+/g] *)
Definition re_whitespace_run : regexp := RegExp (seqs [plus space]) false true.

(** server.js:82 [/\b\d{4}\s?\d{4}\s?\d{4}\b/] *)
Definition re_aadhar : regexp :=
  plain (seqs [WordBoundary false; times 4 digit; opt space; times 4 digit; opt space;
               times 4 digit; WordBoundary false]).

(** server.js:84 [/\s/g] *)
Definition re_space_g : regexp := RegExp (seqs [space]) false true.

(** server.js:88 [/[A-Z][a-z]+ [A-Z][a-z]+/] *)
Definition upper_class : regex := CharClass false [ClassRange "A" "Z"].
Definition lower_class : regex := CharClass false [ClassRange "a" "z"].
Definition re_name_inline : regexp :=
  plain (seqs [upper_class; plus lower_class; Char " "; upper_class; plus lower_class]).

(** DetailsExtraction.js:15 [/Name:\s?([A-Za-z\s]+)/] *)
Definition re_name_label : regexp :=
  plain (seqs (lit "Name:" ++
    [opt space;
     Group (seqs [plus (CharClass false [ClassRange "A" "Z"; ClassRange "a" "z"; ClassEsc EscSpace])])])).

(** DetailsExtraction.js:20 [/DOB[:\s~]*(\d{2}\/\d{2}\/\d{4})/] *)
Definition re_dob : regexp :=
  plain (seqs (lit "DOB" ++
    [star (CharClass false [ClassChar ":"; ClassEsc EscSpace; ClassChar "~"]);
     Group (seqs [times 2 digit; Char "/"; times 2 digit; Char "/"; times 4 digit])])).

(** DetailsExtraction.js:25 [/\b(Male|Female|Other)\b/i] *)
Definition re_gender : regexp :=
  RegExp (seqs [WordBoundary false;
                Group (Alt (seqs (lit "Male")) (Alt (seqs (lit "Female")) (seqs (lit "Other"))));
                WordBoundary false]) true false.

(** DetailsExtraction.js:31
    [/Addresss\/[^\w]*(\w[\w\s]+).*?wa:\s([^,]+,[^,]+)/] *)
Definition re_address : regexp :=
  plain (seqs (lit "Addresss/" ++
    [star (CharClass true [ClassEsc EscWord]);
     Group (seqs [Esc EscWord; plus (CharClass false [ClassEsc EscWord; ClassEsc EscSpace])]);
     lazy_star Dot] ++ lit "wa:" ++
    [space;
     Group (seqs [plus (CharClass true [ClassChar ","]); Char ",";
                  plus (CharClass true [ClassChar ","])])])).

(** DetailsExtraction.js:49 [/\b\d{6}\b/] *)
Definition re_pin : regexp := plain (seqs [WordBoundary false; times 6 digit; WordBoundary false]).

(** ** Reading a match *)

(** [match[0]] of [s.match(rx)]. *)
Definition match0 (s : string) (mt : js_match) : jsv :=
  JStr (matched_string (list_ascii_of_string s) mt).

(** [match[n]], [n >= 1]: a string, or [undefined]. *)
Definition match_n (s : string) (mt : js_match) (n : nat) : jsv :=
  match match_group (list_ascii_of_string s) mt n with
  | Some g => JStr g
  | None => JUndef
  end.

(** [v.trim()]: throws on [null] and [undefined]. *)
Definition js_trim (v : jsv) : result string :=
  match v with
  | JStr s => inr (trim s)
  | _ => inl (read_property_error v "trim")
  end.

(** ** server.js *)

Module Server.

  (** server.js:81-85 [extractAadharNumber] *)
Definition extractAadharNumber (text : string) : jsv :=
    match str_match text re_aadhar with
    | Some mt =>
        match match0 text mt with
        | JStr m => JStr (replace_global m re_space_g "")
        | _ => JNull
        end
    | None => JNull
    end.

  (** server.js:87-91 [extractName] *)
Definition extractName (text : string) : jsv :=
    match str_match text re_name_inline with
    | Some mt => match0 text mt
    | None => JNull
    end.

End Server.

(** ** DetailsExtraction.js *)

Module Details.

  (** DetailsExtraction.js:13-17 [extractName(rawText, name)] *)
Definition extractName (rawText : string) (name : jsv) : result jsv :=
    if js_truthy name then inr name else
    match str_match rawText re_name_label with
    | Some mt => let? s := js_trim (match_n rawText mt 1) in inr (JStr s)
    | None => inr JNull
    end.

  (** DetailsExtraction.js:18-22 [extractDOB] *)
Definition extractDOB (rawText : string) : jsv :=
    match str_match rawText re_dob with
    | Some mt => match_n rawText mt 1
    | None => JNull
    end.

  (** DetailsExtraction.js:24-27 [extractGender] *)
Definition extractGender (rawText : string) : jsv :=
    match str_match rawText re_gender with
    | Some mt => match_n rawText mt 1
    | None => JNull
    end.

  (** DetailsExtraction.js:29-46 [extractAddress]; the three
      [console.log] calls write to the console only. *)
Definition extractAddress (rawText : string) : result jsv :=
    match str_match rawText re_address with
    | Some mt =>
        let? name := js_trim (match_n rawText mt 1) in
        let? location := js_trim (match_n rawText mt 2) in
        inr (JStr (name ++ ", " ++ location))
    | None => inr JNull
    end.

  (** DetailsExtraction.js:48-51 [extractPin] *)
Definition extractPin (rawText : string) : jsv :=
    match str_match rawText re_pin with
    | Some mt => match0 rawText mt
    | None => JNull
    end.

End Details.

(** ** Reading groups never throws *)

(** A group in a mandatory position of a literal is defined whenever the
    literal matches. *)
Lemma match_n_defined s rx mt j :
  str_match s rx = Some mt -> In j (mandatory (pattern rx) 0) ->
  exists g, match_n s mt (S j) = JStr g.
Proof.
  intros E Hj. destruct (match_group_mandatory _ _ _ _ E Hj) as (a & b & _ & _ & _ & G).
  eexists. unfold match_n. rewrite G. reflexivity.
Qed.

Lemma mandatory_name_label : mandatory (pattern re_name_label) 0 = [0].
Proof. vm_compute. reflexivity. Qed.

Lemma mandatory_address : mandatory (pattern re_address) 0 = [0; 1].
Proof. vm_compute. reflexivity. Qed.

Lemma mandatory_dob : mandatory (pattern re_dob) 0 = [0].
Proof. vm_compute. reflexivity. Qed.

Lemma mandatory_gender : mandatory (pattern re_gender) 0 = [0].
Proof. vm_compute. reflexivity. Qed.

(** [extractName] of DetailsExtraction.js returns without throwing. *)
Lemma extractName_total rawText name : exists v, Details.extractName rawText name = inr v.
Proof.
  unfold Details.extractName. destruct (js_truthy name); [eauto|].
  destruct (str_match rawText re_name_label) as [mt|] eqn:E; [|eauto].
  destruct (match_n_defined _ _ _ 0 E) as [g ->]; [rewrite mandatory_name_label; now left|].
  simpl; eauto.
Qed.

(** [extractAddress] returns without throwing: both of its groups are
    mandatory. *)
Lemma extractAddress_total rawText : exists v, Details.extractAddress rawText = inr v.
Proof.
  unfold Details.extractAddress.
  destruct (str_match rawText re_address) as [mt|] eqn:E; [|eauto].
  destruct (match_n_defined _ _ _ 0 E) as [g1 ->]; [rewrite mandatory_address; now left|].
  destruct (match_n_defined _ _ _ 1 E) as [g2 ->]; [rewrite mandatory_address; right; now left|].
  simpl; eauto.
Qed.

(** [extractDOB] and [extractGender] never return [undefined]. *)
Lemma extractDOB_defined rawText : Details.extractDOB rawText <> JUndef.
Proof.
  unfold Details.extractDOB. destruct (str_match rawText re_dob) as [mt|] eqn:E; [|discriminate].
  destruct (match_n_defined _ _ _ 0 E) as [g ->]; [rewrite mandatory_dob; now left | discriminate].
Qed.

Lemma extractGender_defined rawText : Details.extractGender rawText <> JUndef.
Proof.
  unfold Details.extractGender. destruct (str_match rawText re_gender) as [mt|] eqn:E; [|discriminate].
  destruct (match_n_defined _ _ _ 0 E) as [g ->]; [rewrite mandatory_gender; now left | discriminate].
Qed.

(** ** The PIN extractor *)

(** A standalone run of [n] digits at [i]: the [n] code units from [i]
    are digits, the one before is not a word character (or [i = 0]),
    and neither is the one after (or it is the end). *)
Definition standalone_digits (input : list ascii) (n i : nat) : bool :=
  negb (word_before input i) && span input is_digit i n && negb (is_word_at input (i + n)).

(** The first standalone 6-digit run, by a direct scan. *)
Definition find_pin (input : list ascii) : option nat :=
  find (standalone_digits input 6) (seq 0 (S (length input))).

Lemma span_digit_word input i n : span input is_digit i (S n) = true ->
  is_word_at input i = true /\ word_before input (i + S n) = true.
Proof.
  intros H. split.
  - destruct (span_nth _ _ _ _ 0 H ltac:(lia)) as (c & E & D).
    rewrite Nat.add_0_r in E. unfold is_word_at. rewrite E. auto with ocr.
  - destruct (span_nth _ _ _ _ n H ltac:(lia)) as (c & E & D).
    rewrite Nat.add_succ_r. simpl. unfold is_word_at. rewrite E. auto with ocr.
Qed.

(** [/\b\d{6}\b/] matches at [i] exactly at a standalone 6-digit run. *)
Lemma match_at_pin input i :
  match_at input false (pattern re_pin) i
  = if standalone_digits input 6 i then Some (MState (i + 6) []) else None.
Proof.
  unfold match_at, re_pin, plain, seqs, times, digit. cbn [pattern fold_left ngroups compile].
  unfold word_boundary_matcher at 1. cbn [endIndex captures].
  unfold repeat_fuel. cbn [endIndex].
  unfold standalone_digits. change (esc_mem EscDigit) with is_digit.
  destruct (span input is_digit i 6) eqn:Sp.
  - destruct (span_digit_word input i 5 Sp) as [W1 W2].
    rewrite W1. destruct (word_before input i); cbv [xorb Bool.eqb negb andb]; [reflexivity|].
    rewrite repeat_exact_char by lia. cbn [endIndex captures]. rewrite Sp.
    unfold word_boundary_matcher. cbn [endIndex]. rewrite W2.
    destruct (is_word_at input (i + 6)); reflexivity.
  - destruct (Bool.eqb _ _); [|rewrite !andb_false_r; reflexivity].
    rewrite repeat_exact_char by lia. cbn [endIndex]. rewrite Sp, !andb_false_r. reflexivity.
Qed.

(** [extractPin] is the direct scan [find_pin]. *)
Lemma extractPin_find_pin rawText :
  Details.extractPin rawText =
  match find_pin (list_ascii_of_string rawText) with
  | Some i => JStr (string_of_list_ascii (substr (list_ascii_of_string rawText) i (i + 6)))
  | None => JNull
  end.
Proof.
  unfold Details.extractPin, str_match, find_pin. set (inp := list_ascii_of_string rawText).
  destruct (exec re_pin inp) as [mt|] eqn:E.
  - apply exec_leftmost in E as (B & H & L). cbn [ignoreCase re_pin plain] in H, L.
    rewrite match_at_pin in H. destruct (standalone_digits inp 6 (m_index mt)) eqn:Sd; [|discriminate].
    injection H as He _.
    assert (F : find (standalone_digits inp 6) (seq 0 (S (length inp))) = Some (m_index mt)).
    { apply find_seq_Some. split; [lia|]. split; [exact Sd|]. intros l Hl.
      specialize (L l ltac:(lia)). rewrite match_at_pin in L.
      destruct (standalone_digits inp 6 l); [discriminate | reflexivity]. }
    rewrite F. unfold match0, matched_string. rewrite He. reflexivity.
  - pose proof (proj1 (exec_None re_pin inp) E) as E0. clear E. rename E0 into E.
    cbn [ignoreCase re_pin plain] in E.
    assert (F : find (standalone_digits inp 6) (seq 0 (S (length inp))) = None).
    { apply find_seq_None. intros l Hl. specialize (E l ltac:(lia)). rewrite match_at_pin in E.
      destruct (standalone_digits inp 6 l); [discriminate | reflexivity]. }
    rewrite F. reflexivity.
Qed.

(** C24: a PIN, when one is returned, is six digits that stand alone: the
    code units around it are not word characters. *)
Theorem extractPin_six_digits rawText p :
  Details.extractPin rawText = JStr p ->
  String.length p = 6 /\ forallb is_digit (list_ascii_of_string p) = true
  /\ exists i, p = string_of_list_ascii (substr (list_ascii_of_string rawText) i (i + 6))
       /\ standalone_digits (list_ascii_of_string rawText) 6 i = true.
Proof.
  rewrite extractPin_find_pin. destruct (find_pin _) as [i|] eqn:F; [|discriminate].
  intros [= <-]. unfold find_pin in F. apply find_seq_Some in F as (_ & Sd & _).
  pose proof Sd as Sp. unfold standalone_digits in Sp.
  apply andb_prop in Sp as [Sp _]. apply andb_prop in Sp as [_ Sp].
  destruct (span_substr _ _ _ _ Sp) as [L D].
  rewrite length_string_of_list_ascii, list_ascii_of_string_of_list_ascii.
  split; [exact L|]. split; [exact D|]. eauto.
Qed.

(** A standalone run of at least one digit starts inside the input. *)
Lemma standalone_digits_in_input inp n i :
  standalone_digits inp n i = true -> 0 < n -> i < length inp.
Proof.
  unfold standalone_digits. intros H Hn.
  destruct (span inp is_digit i n) eqn:Sp; [|rewrite andb_false_r in H; discriminate].
  destruct (span_nth _ _ _ _ 0 Sp Hn) as (c & E & _).
  rewrite Nat.add_0_r in E. apply nth_error_Some. congruence.
Qed.

(** C4: [extractPin] returns the substring at the first position [i]
    where a standalone run of six digits starts, and [null] exactly when
    there is no such position. *)
Theorem extractPin_spec rawText :
  let inp := list_ascii_of_string rawText in
  (forall p, Details.extractPin rawText = JStr p <->
     exists i, standalone_digits inp 6 i = true
       /\ (forall l, l < i -> standalone_digits inp 6 l = false)
       /\ p = string_of_list_ascii (substr inp i (i + 6)))
  /\ (Details.extractPin rawText = JNull <->
       forall i, i <= length inp -> standalone_digits inp 6 i = false).
Proof.
  intros inp. rewrite extractPin_find_pin. fold inp. unfold find_pin.
  destruct (find (standalone_digits inp 6) (seq 0 (S (length inp)))) as [i|] eqn:F.
  - apply find_seq_Some in F as (B & Sd & L). split.
    + intros p. split.
      * intros [= <-]. exists i. split; [exact Sd|]. split; [intros l Hl; apply L; lia | reflexivity].
      * intros (j & Sj & Lj & ->). f_equal. f_equal.
        destruct (Nat.lt_total i j) as [Hij|[->|Hji]]; [..|reflexivity|].
        -- rewrite Lj in Sd by exact Hij. discriminate.
        -- assert (j <= length inp).
           { apply standalone_digits_in_input in Sj; lia. }
           rewrite L in Sj by lia. discriminate.
    + split; [discriminate|]. intros H. rewrite H in Sd by lia. discriminate.
  - pose proof (proj1 (find_seq_None _ _ _) F) as F0. clear F. rename F0 into F. split.
    + intros p. split; [discriminate|]. intros (j & Sj & _ & _).
      pose proof (standalone_digits_in_input _ _ _ Sj ltac:(lia)).
      rewrite F in Sj by lia. discriminate.
    + split; [intros _ i Hi; exact (F i ltac:(lia)) | reflexivity].
Qed.

Lemma extractPin_six_digits_witness :
  Details.extractPin "PIN 560001." = JStr "560001" /\
  (String.length "560001" = 6 /\ forallb is_digit (list_ascii_of_string "560001") = true
   /\ exists i, "560001"%string = string_of_list_ascii (substr (list_ascii_of_string "PIN 560001.") i (i + 6))
        /\ standalone_digits (list_ascii_of_string "PIN 560001.") 6 i = true).
Proof.
  split; [vm_compute; reflexivity|].
  apply (extractPin_six_digits "PIN 560001." "560001"). vm_compute. reflexivity.
Defined.
