(* ===== verification/Normalizer.v ===== *)
(** * The text normaliser

    [text.replace(/\s+/g, " ").trim()] (server.js:70) is the first step
    of [cleanOCRText]; every extractor reads its result.  This file
    proves that the ECMAScript replace loop on [/\s+/g] is the direct
    collapse of white-space runs [collapse_ws].  It follows that the
    normaliser's output is in canonical form (single spaces between
    non-space characters, none at either end), that the normaliser keeps
    every other character in order, and that it is idempotent. *)

From Stdlib Require Import Ascii String List Bool Arith Lia.
From S2P Require Import Prelude Chars Regex RegexFacts StringOps Extractors.
Import ListNotations.

(** server.js:70 [text.replace(/\s+/g, " ").trim()] *)
Definition normalize (text : string) : string :=
  trim (replace_global text re_whitespace_run " ").

(** ** The reference: collapsing runs directly *)

(** Copy the input, writing one space for each maximal run of white
    space; [in_run] says the previous code unit was white space. *)
Fixpoint collapse_go (in_run : bool) (l : list ascii) : list ascii :=
  match l with
  | [] => []
  | c :: t =>
      if is_js_space c
      then if in_run then collapse_go true t else " "%char :: collapse_go true t
      else c :: collapse_go false t
  end.

Definition collapse_ws (l : list ascii) : list ascii := collapse_go false l.

Definition not_space (c : ascii) : bool := negb (is_js_space c).

Lemma collapse_go_app_nospace u r :
  forallb not_space u = true -> collapse_go false (u ++ r) = u ++ collapse_go false r.
Proof.
  induction u as [|c u IH]; intros H; [reflexivity|]. simpl in *.
  apply andb_prop in H as [Hc H]. unfold not_space in Hc.
  destruct (is_js_space c); [discriminate|]. rewrite IH by exact H. reflexivity.
Qed.

Lemma collapse_go_run w r :
  forallb is_js_space w = true ->
  collapse_go true (w ++ r) = collapse_go true r.
Proof.
  induction w as [|c w IH]; intros H; [reflexivity|]. simpl in *.
  apply andb_prop in H as [Hc H]. rewrite Hc. apply IH, H.
Qed.

Lemma collapse_go_start_nospace r :
  holds_at is_js_space r 0 = false -> collapse_go true r = collapse_go false r.
Proof.
  destruct r as [|c r]; [reflexivity|]. unfold holds_at. simpl. intros ->. reflexivity.
Qed.

(** ** [/\s+/] at one position *)

Lemma match_at_whitespace_run input i :
  match_at input false (pattern re_whitespace_run) i
  = if holds_at is_js_space input i
    then Some (MState (i + max_run input is_js_space i) []) else None.
Proof.
  unfold match_at, re_whitespace_run, seqs, plus, space. cbn [pattern fold_left ngroups compile].
  change (esc_mem EscSpace) with is_js_space.
  rewrite repeat_greedy_char by (unfold repeat_fuel; simpl; lia).
  rewrite greedy_tries_accept. cbn [endIndex captures repeat].
  unfold holds_at. destruct (nth_error input i) as [c|] eqn:E.
  - rewrite (max_run_cons input is_js_space i c E). destruct (is_js_space c); reflexivity.
  - rewrite (max_run_end input is_js_space i E). reflexivity.
Qed.

Lemma collapse_go_space_run w r :
  forallb is_js_space w = true -> w <> [] ->
  collapse_go false (w ++ r) = " "%char :: collapse_go true r.
Proof.
  destruct w as [|c w]; intros H N; [congruence|]. simpl in H.
  apply andb_prop in H as [Hc H]. simpl. rewrite Hc, collapse_go_run by exact H. reflexivity.
Qed.

(** ** The replace loop on [/\s+/g] *)

Section Loop.
Variable input : list ascii.

Lemma holds_at_not_space n :
  n < length input -> holds_at not_space input n = negb (holds_at is_js_space input n).
Proof.
  intros H. unfold holds_at. destruct (nth_error input n) eqn:E; [reflexivity|].
  apply nth_error_None in E. lia.
Qed.

(** Where [/\s+/] does not match, the code unit is not white space. *)
Lemma no_match_not_space l :
  match_at input false (pattern re_whitespace_run) l = None -> l < length input ->
  holds_at not_space input l = true.
Proof.
  intros H Hl. rewrite holds_at_not_space by exact Hl.
  rewrite match_at_whitespace_run in H. destruct (holds_at is_js_space input l); easy.
Qed.

Lemma no_space_prefix last p :
  last <= p <= length input ->
  (forall l, last <= l < p -> match_at input false (pattern re_whitespace_run) l = None) ->
  collapse_go false (skipn last input) = substr input last p ++ collapse_go false (skipn p input).
Proof.
  intros Hp H. rewrite (skipn_substr_app input last p) by lia. apply collapse_go_app_nospace.
  apply forallb_substr; [lia|]. intros n Hn. apply no_match_not_space; [apply H|]; lia.
Qed.

(** The loop of @@replace with replacement [" "] computes the collapse
    of the input from [last] on, whenever its fuel exceeds the length
    still to scan. *)
Lemma replace_loop_collapse : forall fuel last,
  length input - last < fuel ->
  splice input [" "%char] last (collect_matches re_whitespace_run input fuel last)
  = collapse_go false (skipn last input).
Proof.
  induction fuel as [|f IH]; intros last Hf; [lia|]. cbn [collect_matches].
  destruct (exec_from re_whitespace_run input last) as [[p q caps]|] eqn:E.
  - apply exec_from_Some in E as (B & H & L). cbn [ignoreCase m_index m_end m_caps] in *.
    rewrite match_at_whitespace_run in H.
    destruct (holds_at is_js_space input p) eqn:Sp; [|discriminate]. injection H as <- <-.
    set (n := max_run input is_js_space p) in *.
    assert (Hp : p < length input).
    { unfold holds_at in Sp. destruct (nth_error input p) eqn:Ep; [|discriminate].
      apply nth_error_Some. congruence. }
    assert (Hn : 1 <= n).
    { unfold holds_at in Sp. destruct (nth_error input p) eqn:Ep; [|discriminate].
      unfold n. rewrite (max_run_cons input is_js_space p a Ep), Sp. lia. }
    assert (Hq : p + n <= length input) by (pose proof (max_run_le input is_js_space p); lia).
    cbn [splice m_index m_end]. rewrite (Nat.min_l p) by lia.
    replace (p + n =? p) with false by (symmetry; apply Nat.eqb_neq; lia).
    rewrite (proj2 (Nat.leb_le last p)) by lia.
    replace (p + (p + n - p)) with (p + n) by lia.
    rewrite IH by lia. rewrite (no_space_prefix last p) by (lia || exact L). f_equal.
    destruct (span_substr input is_js_space p n (span_max_run input is_js_space p)) as [Ln F].
    rewrite (skipn_substr_app input p (p + n)) by lia.
    rewrite collapse_go_space_run by (exact F || (intros Z; rewrite Z in Ln; simpl in Ln; lia)).
    rewrite collapse_go_start_nospace; [reflexivity|].
    pose proof (max_run_stop input is_js_space p) as St. fold n in St.
    unfold holds_at. rewrite nth_error_skipn, Nat.add_0_r.
    destruct (nth_error input (p + n)); [exact St | reflexivity].
  - rewrite exec_from_None in E. cbn [ignoreCase] in E. cbn [splice].
    destruct (length input <=? last) eqn:Hl.
    + apply Nat.leb_le in Hl. rewrite skipn_all2 by exact Hl. reflexivity.
    + apply Nat.leb_gt in Hl.
      rewrite (no_space_prefix last (length input)) by (lia || (intros; apply E; lia)).
      rewrite skipn_all, app_nil_r, substr_to_end. reflexivity.
Qed.
End Loop.

(** The normaliser is the collapse of white-space runs followed by
    TrimString. *)
Lemma normalize_collapse_list text :
  list_ascii_of_string (normalize text)
  = trim_list (collapse_ws (list_ascii_of_string text)).
Proof.
  unfold normalize, trim, replace_global, replace_all_list, replace_fuel.
  rewrite !list_ascii_of_string_of_list_ascii.
  change (list_ascii_of_string " ") with [" "%char].
  rewrite replace_loop_collapse by lia. reflexivity.
Qed.

(** ** Canonical form *)

(** Every white-space code unit is a single [" "] that does not follow
    another one; [prev] says the previous code unit was white space. *)
Fixpoint canonical (prev : bool) (l : list ascii) : bool :=
  match l with
  | [] => true
  | c :: t =>
      if is_js_space c then negb prev && Ascii.eqb c " " && canonical true t
      else canonical false t
  end.

Lemma canonical_collapse : forall l b, canonical b (collapse_go b l) = true.
Proof.
  induction l as [|c l IH]; intros b; [reflexivity|]. simpl.
  destruct (is_js_space c) eqn:Ec; [destruct b|]; simpl; rewrite ?Ec, ?IH; reflexivity.
Qed.

Lemma collapse_canonical : forall l b, canonical b l = true -> collapse_go b l = l.
Proof.
  induction l as [|c l IH]; intros b H; [reflexivity|]. simpl in *.
  destruct (is_js_space c); [|rewrite IH; auto].
  destruct b; [discriminate|]. apply andb_prop in H as [H Hl].
  apply Ascii.eqb_eq in H as ->. rewrite IH; auto.
Qed.

Lemma canonical_app_l : forall u r b, canonical b (u ++ r) = true -> canonical b u = true.
Proof.
  induction u as [|c u IH]; intros r b H; [reflexivity|]. simpl in *.
  destruct (is_js_space c); [apply andb_prop in H as [H1 H2]; rewrite H1|]; simpl; eauto.
Qed.

Lemma canonical_true_head l : canonical true l = true -> holds_at is_js_space l 0 = false.
Proof. destruct l as [|c l]; [reflexivity|]. unfold holds_at. simpl. now destruct (is_js_space c). Qed.

Lemma canonical_trim_start : forall l b, canonical b l = true -> canonical false (trim_start l) = true.
Proof.
  induction l as [|c l IH]; intros b H; [reflexivity|]. simpl in *.
  destruct (is_js_space c) eqn:Ec.
  - apply andb_prop in H as [_ H]. eauto.
  - simpl. rewrite Ec. exact H.
Qed.

(** The space at position [i] of a canonical list is [" "], follows a
    non-space (or the list starts after a non-space when [prev] is
    false) and is not followed by a space. *)
Lemma canonical_nth : forall l b i c,
  canonical b l = true -> nth_error l i = Some c -> is_js_space c = true ->
  c = " "%char
  /\ match i with 0 => b = false | S j => holds_at not_space l j = true end
  /\ holds_at is_js_space l (S i) = false.
Proof.
  induction l as [|c' l IH]; intros b i c H Hi Hc; [destruct i; discriminate|].
  simpl in H. destruct i as [|j].
  - injection Hi as <-. rewrite Hc in H. destruct b; [discriminate|].
    apply andb_prop in H as [H Hl]. apply Ascii.eqb_eq in H.
    split; [exact H|]. split; [reflexivity|]. apply canonical_true_head, Hl.
  - simpl in Hi. assert (Hl : canonical (is_js_space c') l = true)
      by (destruct (is_js_space c'); [apply andb_prop in H as [_ H]|]; exact H).
    destruct (IH _ j c Hl Hi Hc) as (E & P & N). split; [exact E|]. split; [|exact N].
    destruct j as [|k]; [|exact P]. unfold holds_at, not_space. simpl. now rewrite P.
Qed.

(** ** TrimString *)

Lemma forallb_rev {A} (f : A -> bool) l : forallb f (rev l) = forallb f l.
Proof.
  apply Bool.eq_iff_eq_true. rewrite !forallb_forall.
  split; intros H x Hx; apply H; apply in_rev; rewrite ?rev_involutive; exact Hx.
Qed.

Lemma trim_start_split l : exists w, forallb is_js_space w = true /\ l = w ++ trim_start l.
Proof.
  induction l as [|c l [w [Hw E]]]; [exists []; auto|]. simpl.
  destruct (is_js_space c) eqn:Ec.
  - exists (c :: w). simpl. rewrite Ec, Hw. split; [reflexivity|]. simpl. congruence.
  - exists []. auto.
Qed.

Lemma trim_end_split l : exists w, forallb is_js_space w = true /\ l = trim_end l ++ w.
Proof.
  destruct (trim_start_split (rev l)) as [w [Hw E]]. exists (rev w).
  rewrite forallb_rev. split; [exact Hw|]. unfold trim_end.
  set (t := trim_start (rev l)) in *. rewrite <- rev_app_distr, <- E, rev_involutive. reflexivity.
Qed.

Lemma trim_start_head l : holds_at is_js_space (trim_start l) 0 = false.
Proof.
  induction l as [|c l IH]; [reflexivity|]. simpl.
  destruct (is_js_space c) eqn:Ec; [exact IH|]. unfold holds_at. simpl. exact Ec.
Qed.

Lemma trim_start_id l : holds_at is_js_space l 0 = false -> trim_start l = l.
Proof. destruct l as [|c l]; [reflexivity|]. unfold holds_at. simpl. now intros ->. Qed.

Lemma holds_at_app_head {A} (f : A -> bool) u r :
  u <> [] -> holds_at f (u ++ r) 0 = holds_at f u 0.
Proof. destruct u; [congruence|reflexivity]. Qed.

Lemma trim_start_trim_end l :
  holds_at is_js_space l 0 = false -> trim_start (trim_end l) = trim_end l.
Proof.
  intros H. destruct (trim_end_split l) as [w [_ E]].
  destruct (trim_end l) as [|c u] eqn:T; [reflexivity|].
  apply trim_start_id. rewrite E, holds_at_app_head in H by discriminate. exact H.
Qed.

Lemma trim_end_idem l : trim_end (trim_end l) = trim_end l.
Proof. unfold trim_end. rewrite rev_involutive, trim_start_id by apply trim_start_head. reflexivity. Qed.

Lemma trim_end_last l : holds_at is_js_space (rev (trim_end l)) 0 = false.
Proof. unfold trim_end. rewrite rev_involutive. apply trim_start_head. Qed.

(** TrimString leaves no white space at either end, and keeps a
    property every code unit of its input has. *)
Lemma trim_list_ends l :
  holds_at is_js_space (trim_list l) 0 = false /\ holds_at is_js_space (rev (trim_list l)) 0 = false.
Proof.
  unfold trim_list. split; [|apply trim_end_last].
  rewrite <- trim_start_trim_end by apply trim_start_head. apply trim_start_head.
Qed.


Lemma trim_start_app_nonspace a c b :
  is_js_space c = false -> trim_start (a ++ c :: b) = trim_start a ++ c :: b.
Proof.
  intros Hc. induction a as [|d a IH]; simpl; [now rewrite Hc|].
  destruct (is_js_space d); [exact IH | reflexivity].
Qed.

Lemma trim_end_app_nonspace a c b :
  is_js_space c = false -> trim_end (a ++ c :: b) = a ++ c :: trim_end b.
Proof.
  intros Hc. unfold trim_end. rewrite rev_app_distr. simpl. rewrite <- app_assoc. simpl.
  rewrite trim_start_app_nonspace by exact Hc. rewrite rev_app_distr. simpl.
  rewrite rev_involutive, <- app_assoc. reflexivity.
Qed.

Lemma forallb_trim_start f l : forallb f l = true -> forallb f (trim_start l) = true.
Proof.
  destruct (trim_start_split l) as [w [_ E]]. rewrite E at 1. rewrite forallb_app.
  now intros [_ H]%andb_prop.
Qed.

Lemma forallb_trim_end f l : forallb f l = true -> forallb f (trim_end l) = true.
Proof.
  destruct (trim_end_split l) as [w [_ E]]. rewrite E at 1. rewrite forallb_app.
  now intros [H _]%andb_prop.
Qed.

Lemma forallb_trim_list f l : forallb f l = true -> forallb f (trim_list l) = true.
Proof. intros H. apply forallb_trim_end, forallb_trim_start, H. Qed.

(** ** The normal form *)

Lemma trim_collapse_canonical x :
  canonical false (trim_list (collapse_ws x)) = true
  /\ holds_at is_js_space (trim_list (collapse_ws x)) 0 = false
  /\ holds_at is_js_space (rev (trim_list (collapse_ws x))) 0 = false.
Proof.
  split; [|apply trim_list_ends].
  unfold trim_list, collapse_ws. set (z := trim_start (collapse_go false x)).
  destruct (trim_end_split z) as [w [_ E]].
  apply (canonical_app_l _ w). rewrite <- E. apply (canonical_trim_start _ false), canonical_collapse.
Qed.

Lemma trim_collapse_id y :
  canonical false y = true -> holds_at is_js_space y 0 = false ->
  holds_at is_js_space (rev y) 0 = false -> trim_list (collapse_ws y) = y.
Proof.
  intros C H0 Hl. unfold trim_list, collapse_ws, trim_end.
  rewrite collapse_canonical by exact C.
  rewrite (trim_start_id y H0), (trim_start_id (rev y) Hl), rev_involutive. reflexivity.
Qed.

Lemma filter_spaces w : forallb is_js_space w = true -> filter not_space w = [].
Proof.
  induction w as [|c w IH]; intros H; [reflexivity|]. simpl in *.
  apply andb_prop in H as [Hc H]. unfold not_space at 1. rewrite Hc. apply IH, H.
Qed.

Lemma filter_collapse : forall l b, filter not_space (collapse_go b l) = filter not_space l.
Proof.
  induction l as [|c l IH]; intros b; [reflexivity|]. simpl.
  unfold not_space at 2 4; destruct (is_js_space c) eqn:Ec; [destruct b|]; simpl; unfold not_space at 1; rewrite ?Ec; simpl; rewrite ?IH; reflexivity.
Qed.

Lemma filter_trim_list l : filter not_space (trim_list l) = filter not_space l.
Proof.
  unfold trim_list. destruct (trim_start_split l) as [w1 [H1 E1]].
  destruct (trim_end_split (trim_start l)) as [w2 [H2 E2]].
  rewrite E1 at 2. rewrite filter_app, (filter_spaces w1 H1). simpl.
  rewrite E2 at 2. rewrite filter_app, (filter_spaces w2 H2), app_nil_r. reflexivity.
Qed.

(** A white-space code unit that is the first of the list or the last
    has its list's first or last position. *)
Lemma space_not_last {A} (f : A -> bool) y i c :
  holds_at f (rev y) 0 = false -> nth_error y i = Some c -> f c = true -> S i < length y.
Proof.
  intros Hl Hi Hc. destruct (nth_error_split y i Hi) as (l1 & l2 & -> & <-).
  destruct l2 as [|d l2].
  - unfold holds_at in Hl. rewrite rev_app_distr in Hl. simpl in Hl. congruence.
  - rewrite length_app. simpl. lia.
Qed.

(** ** What the normaliser guarantees *)

(** C18: [text.replace(/\s+/g, " ").trim()] is the direct collapse of
    every maximal run of white space to one space, then trimmed. *)
Theorem normalize_spec text :
  normalize text = string_of_list_ascii (trim_list (collapse_ws (list_ascii_of_string text))).
Proof. rewrite <- normalize_collapse_list, string_of_list_ascii_of_string. reflexivity. Qed.

(** C9: in the normaliser's output every white-space code unit is a
    single [" "] with a non-space code unit on each side: none leads,
    none trails and no two are adjacent. *)
Theorem normalize_canonical text i c :
  nth_error (list_ascii_of_string (normalize text)) i = Some c -> is_js_space c = true ->
  c = " "%char /\ 0 < i
  /\ holds_at not_space (list_ascii_of_string (normalize text)) (i - 1) = true
  /\ holds_at not_space (list_ascii_of_string (normalize text)) (S i) = true.
Proof.
  rewrite normalize_collapse_list. set (y := trim_list _). intros Hi Hc.
  destruct (trim_collapse_canonical (list_ascii_of_string text)) as (C & H0 & Hl). fold y in C, H0, Hl.
  destruct (canonical_nth y false i c C Hi Hc) as (E & P & N).
  assert (Hs : S i < length y) by exact (space_not_last _ y i c Hl Hi Hc).
  split; [exact E|]. rewrite (holds_at_not_space y (S i) Hs), N.
  destruct i as [|j]; [unfold holds_at in H0; rewrite Hi in H0; congruence|].
  split; [lia|]. split; [simpl; rewrite Nat.sub_0_r; exact P | reflexivity].
Qed.

Lemma normalize_canonical_witness :
  nth_error (list_ascii_of_string (normalize " Ram	 Kumar ")) 3 = Some " "%char
  /\ is_js_space " " = true
  /\ " "%char = " "%char /\ 0 < 3
  /\ holds_at not_space (list_ascii_of_string (normalize " Ram	 Kumar ")) (3 - 1) = true
  /\ holds_at not_space (list_ascii_of_string (normalize " Ram	 Kumar ")) (S 3) = true.
Proof.
  assert (H1 : nth_error (list_ascii_of_string (normalize " Ram	 Kumar ")) 3 = Some " "%char)
    by (vm_compute; reflexivity).
  assert (H2 : is_js_space " " = true) by reflexivity.
  split; [exact H1|]. split; [exact H2|]. exact (normalize_canonical _ 3 " " H1 H2).
Defined.

(** C17: normalising twice is normalising once (the spec's first
    testable property of [cleanOCRText]). *)
Theorem normalize_idempotent text : normalize (normalize text) = normalize text.
Proof.
  apply list_ascii_of_string_inj. rewrite (normalize_collapse_list (normalize text)), normalize_collapse_list.
  destruct (trim_collapse_canonical (list_ascii_of_string text)) as (C & H0 & Hl).
  apply trim_collapse_id; assumption.
Qed.

(** The normaliser removes white space only: the other code units
    of its input come out unchanged and in order. *)
Theorem normalize_keeps_text text :
  filter not_space (list_ascii_of_string (normalize text))
  = filter not_space (list_ascii_of_string text).
Proof. rewrite normalize_collapse_list, filter_trim_list. apply filter_collapse. Qed.
