(* ===== verification/FieldShapes.v ===== *)
(** * The shape of the extracted fields

    The spec promises a 12-digit document number, a [DD/MM/YYYY] date
    of birth, a gender among [Male], [Female] and [Other], a 6-digit
    postal code, a name of two capitalised words (inline) or following
    a [Name:] label, and an address joined from two labelled fragments.
    These theorems read the shape of each returned field off the
    declarative semantics of its pattern ([RegexSem.sem]), through the
    soundness of the matcher: one lemma per pattern walks its terms,
    then one theorem per extractor adds the string operations around
    the match ([replace(/\s/g, "")], [.trim()], the template string of
    the address).  [null_or] states the format of a field that may be
    [null]; [Assembler] uses it for the whole record. *)

From Stdlib Require Import Ascii String List Bool Arith Lia.
From S2P Require Import Prelude Chars Regex RegexFacts RegexSem StringOps Extractors Normalizer.
Import ListNotations.

(** ** [replace(/\s/g, "")] *)

Lemma match_at_space input i :
  match_at input false (pattern re_space_g) i
  = if holds_at is_js_space input i then Some (MState (S i) []) else None.
Proof.
  unfold match_at, re_space_g, seqs, space. cbn [pattern fold_left ngroups compile repeat].
  unfold char_set_matcher, holds_at. change (esc_mem EscSpace) with is_js_space.
  cbn [endIndex captures Nat.add repeat].
  destruct (nth_error input i) as [c|]; [|reflexivity]. now destruct (is_js_space c).
Qed.

Lemma filter_nospace u : forallb not_space u = true -> filter not_space u = u.
Proof.
  induction u as [|c u IH]; intros H; [reflexivity|]. simpl in *.
  apply andb_prop in H as [Hc H]. rewrite Hc, IH by exact H. reflexivity.
Qed.

Section Strip.
Variable input : list ascii.

Lemma strip_loop : forall fuel last,
  length input - last < fuel ->
  splice input [] last (collect_matches re_space_g input fuel last)
  = filter not_space (skipn last input).
Proof.
  induction fuel as [|f IH]; intros last Hf; [lia|]. cbn [collect_matches].
  destruct (exec_from re_space_g input last) as [[p q caps]|] eqn:E.
  - apply exec_from_Some in E as (B & H & L). cbn [ignoreCase m_index m_end m_caps] in *.
    rewrite match_at_space in H.
    destruct (holds_at is_js_space input p) eqn:Sp; [|discriminate]. injection H as <- <-.
    unfold holds_at in Sp. destruct (nth_error input p) as [c|] eqn:Ep; [|discriminate].
    assert (Hp : p < length input) by (apply nth_error_Some; congruence).
    cbn [splice m_index m_end]. rewrite (Nat.min_l p) by lia.
    replace (S p =? p) with false by (symmetry; apply Nat.eqb_neq; lia).
    rewrite (proj2 (Nat.leb_le last p)) by lia. replace (p + (S p - p)) with (S p) by lia.
    rewrite IH by lia. rewrite (skipn_substr_app input last p), (skipn_nth_error_cons input p c Ep)
      by lia.
    rewrite filter_app, (filter_nospace (substr input last p)).
    + cbn [filter app]. replace (not_space c) with false by (unfold not_space; now rewrite Sp). reflexivity.
    + apply forallb_substr; [lia|]. intros n Hn. rewrite holds_at_not_space by lia.
      specialize (L n Hn). cbn [ignoreCase] in L. rewrite match_at_space in L.
      now destruct (holds_at is_js_space input n).
  - rewrite exec_from_None in E. cbn [ignoreCase] in E. cbn [splice].
    destruct (length input <=? last) eqn:Hl.
    + apply Nat.leb_le in Hl. rewrite skipn_all2 by exact Hl. reflexivity.
    + apply Nat.leb_gt in Hl. rewrite <- substr_to_end, filter_nospace; [reflexivity|].
      apply forallb_substr; [lia|]. intros n Hn. rewrite holds_at_not_space by lia.
      specialize (E n ltac:(lia)). rewrite match_at_space in E.
      now destruct (holds_at is_js_space input n).
Qed.
End Strip.

(** [s.replace(/\s/g, "")] keeps exactly the code units that are not
    white space. *)
Lemma strip_spaces s :
  list_ascii_of_string (replace_global s re_space_g "") = filter not_space (list_ascii_of_string s).
Proof.
  unfold replace_global, replace_all_list, replace_fuel.
  rewrite list_ascii_of_string_of_list_ascii. apply strip_loop. lia.
Qed.

(** ** The document number *)

Lemma digits_not_space w : forallb is_digit w = true -> forallb not_space w = true.
Proof.
  induction w as [|c w IH]; intros H; [reflexivity|]. simpl in *.
  apply andb_prop in H as [Hc H]. unfold not_space at 1. rewrite (digit_not_space c Hc). auto.
Qed.

Section Shapes.
Variable input : list ascii.

(** What [/\b\d{4}\s?\d{4}\s?\d{4}\b/] matches: three runs of four
    digits, with at most one white-space code unit between them. *)
Lemma aadhar_shape x y :
  sem input false (pattern re_aadhar) 0 x y -> endIndex y <= length input ->
  exists w1 s1 w2 s2 w3,
    substr input (endIndex x) (endIndex y) = w1 ++ s1 ++ w2 ++ s2 ++ w3
    /\ length w1 = 4 /\ length w2 = 4 /\ length w3 = 4 /\ length s1 <= 1 /\ length s2 <= 1
    /\ forallb is_digit (w1 ++ w2 ++ w3) = true /\ forallb is_js_space (s1 ++ s2) = true.
Proof.
  intros H Hy. apply sem_seqs in H.
  sem_next H y1 S1. sem_next H y2 S2. sem_next H y3 S3. sem_next H y4 S4.
  sem_next H y5 S5. sem_next H y6 S6. sem_next H y7 S7. apply sem_list_nil_inv in H. subst y.
  apply sem_boundary_inv in S1 as [-> _]. apply sem_boundary_inv in S7 as [-> _].
  pose proof (sem_le _ _ _ _ _ _ S2). pose proof (sem_le _ _ _ _ _ _ S3).
  pose proof (sem_le _ _ _ _ _ _ S4).
  pose proof (sem_le _ _ _ _ _ _ S5). pose proof (sem_le _ _ _ _ _ _ S6).
  apply (sem_repeat_plain _ _ _ _ _ is_digit) in S2 as (_ & _ & M2 & X2 & F2); [|reflexivity|simpl; lia|lia].
  apply (sem_repeat_plain _ _ _ _ _ is_js_space) in S3 as (_ & _ & M3 & X3 & F3); [|reflexivity|simpl; lia|lia].
  apply (sem_repeat_plain _ _ _ _ _ is_digit) in S4 as (_ & _ & M4 & X4 & F4); [|reflexivity|simpl; lia|lia].
  apply (sem_repeat_plain _ _ _ _ _ is_js_space) in S5 as (_ & _ & M5 & X5 & F5); [|reflexivity|simpl; lia|lia].
  apply (sem_repeat_plain _ _ _ _ _ is_digit) in S6 as (_ & _ & M6 & X6 & F6); [|reflexivity|simpl; lia|lia].
  simpl in X2, X3, X4, X5, X6.
  do 5 eexists. split.
  { rewrite (substr_app input (endIndex x) (endIndex y2)), (substr_app input (endIndex y2) (endIndex y3)),
      (substr_app input (endIndex y3) (endIndex y4)), (substr_app input (endIndex y4) (endIndex y5))
      by lia.
    reflexivity. }
  rewrite !forallb_app. rewrite F2, F4, F6.
  rewrite F3, F5. repeat split; lia.
Qed.

(** ** The date of birth *)

(** A PatternCharacter without the [i] flag consumes exactly itself. *)
Lemma sem_char_plain c gi x y :
  sem input false (Char c) gi x y ->
  nth_error input (endIndex x) = Some c /\ y = MState (S (endIndex x)) (captures x).
Proof.
  intros H. apply (sem_atom_inv input false (Char c) (fun a => (a =? c)%char) false) in H
    as (ch & E & A & ->); [|reflexivity].
  rewrite char_accepts_plain in A. apply Ascii.eqb_eq in A as ->. auto.
Qed.

(** What the group [(\d{2}\/\d{2}\/\d{4})] of the date pattern
    captures. *)
Lemma dob_body_shape gi x y :
  sem input false (seqs [times 2 digit; Char "/"%char; times 2 digit; Char "/"%char; times 4 digit]) gi x y ->
  endIndex y <= length input ->
  exists w1 w2 w3, substr input (endIndex x) (endIndex y) = w1 ++ "/"%char :: w2 ++ "/"%char :: w3
    /\ length w1 = 2 /\ length w2 = 2 /\ length w3 = 4 /\ forallb is_digit (w1 ++ w2 ++ w3) = true.
Proof.
  intros H Hy. apply sem_seqs in H.
  sem_next H y1 S1. sem_next H y2 S2. sem_next H y3 S3. sem_next H y4 S4. sem_next H y5 S5.
  apply sem_list_nil_inv in H. subst y.
  apply sem_char_plain in S2 as [E2 ->]. apply sem_char_plain in S4 as [E4 ->].
  pose proof (sem_le _ _ _ _ _ _ S1). pose proof (sem_le _ _ _ _ _ _ S3).
  pose proof (sem_le _ _ _ _ _ _ S5). cbn [endIndex] in *.
  apply (sem_repeat_plain _ _ _ _ _ is_digit) in S1 as (_ & _ & M1 & X1 & F1); [|reflexivity|simpl; lia|lia].
  apply (sem_repeat_plain _ _ _ _ _ is_digit) in S3 as (_ & _ & M3 & X3 & F3); [|reflexivity|simpl; lia|lia].
  apply (sem_repeat_plain _ _ _ _ _ is_digit) in S5 as (_ & _ & M5 & X5 & F5); [|reflexivity|simpl; lia|lia].
  cbn [endIndex le_max] in *. do 3 eexists. split.
  { rewrite (substr_app input (endIndex x) (endIndex y1)), (substr_cons_lt input (endIndex y1) _ "/"%char),
      (substr_app input (S (endIndex y1)) (endIndex y3)), (substr_cons_lt input (endIndex y3) _ "/"%char)
      by (lia || assumption).
    reflexivity. }
  rewrite !forallb_app, F1, F3, F5. repeat split; lia.
Qed.

(** What [/DOB[:\s~]*(\d{2}\/\d{2}\/\d{4})/] captures in its group. *)
Lemma dob_shape x y :
  sem input false (pattern re_dob) 0 x y -> endIndex y <= length input -> length (captures x) = 1 ->
  exists p q w1 w2 w3, nth_error (captures y) 0 = Some (Some (p, q))
    /\ substr input p q = w1 ++ "/"%char :: w2 ++ "/"%char :: w3
    /\ length w1 = 2 /\ length w2 = 2 /\ length w3 = 4 /\ forallb is_digit (w1 ++ w2 ++ w3) = true.
Proof.
  intros H Hy Hc. apply sem_seqs in H. cbn [lit map list_ascii_of_string app] in H.
  sem_next H y1 S1. sem_next H y2 S2. sem_next H y3 S3. sem_next H y4 S4. sem_next H y5 S5.
  apply sem_list_nil_inv in H. subst y.
  apply sem_char_plain in S1 as [_ ->]. apply sem_char_plain in S2 as [_ ->].
  apply sem_char_plain in S3 as [_ ->]. cbn [ngroups star Nat.add] in *.
  apply sem_group_inv in S5 as (w & Sw & ->). cbn [endIndex captures] in *.
  pose proof (sem_caps_length _ _ _ _ _ _ S4). pose proof (sem_caps_length _ _ _ _ _ _ Sw).
  apply dob_body_shape in Sw as (w1 & w2 & w3 & Eq & Hw); [|exact Hy].
  exists (endIndex y4), (endIndex w), w1, w2, w3. split; [|exact (conj Eq Hw)].
  apply nth_error_set_nth_eq. cbn [captures] in *. lia.
Qed.

(** ** The gender *)

(** An Alternative of PatternCharacters with the [i] flag consumes a
    string equal to the literal up to case. *)
Lemma sem_lit_ignore_case v gi x y :
  sem input true (seqs (lit v)) gi x y ->
  map canonicalize (substr input (endIndex x) (endIndex y)) = map canonicalize (list_ascii_of_string v).
Proof. intros H. apply sem_seqs, sem_lit in H as (_ & _ & Ok). apply lit_ok_ignore_case, Ok. Qed.

(** What [/\b(Male|Female|Other)\b/i] captures in its group. *)
Lemma gender_shape x y :
  sem input true (pattern re_gender) 0 x y -> length (captures x) = 1 ->
  exists p q v, nth_error (captures y) 0 = Some (Some (p, q))
    /\ In v ["Male"; "Female"; "Other"]%string
    /\ map canonicalize (substr input p q) = map canonicalize (list_ascii_of_string v).
Proof.
  intros H Hc. apply sem_seqs in H.
  sem_next H y1 S1. sem_next H y2 S2. sem_next H y3 S3. apply sem_list_nil_inv in H. subst y.
  apply sem_boundary_inv in S1 as [-> _]. apply sem_boundary_inv in S3 as [-> _].
  cbn [ngroups Nat.add] in *. apply sem_group_inv in S2 as (w & Sw & ->).
  pose proof (sem_caps_length _ _ _ _ _ _ Sw) as Lw.
  exists (endIndex x), (endIndex w). cbn [captures endIndex].
  apply sem_alt_inv in Sw as [Sw|Sw]; [|apply sem_alt_inv in Sw as [Sw|Sw]];
    apply sem_lit_ignore_case in Sw; eexists; (split; [apply nth_error_set_nth_eq; lia|]);
    (split; [|exact Sw]); simpl; tauto.
Qed.

(** ** The names *)

Lemma class_mem_upper c : class_mem [ClassRange "A" "Z"] c = is_upper c.
Proof. unfold class_mem, is_upper. simpl. apply orb_false_r. Qed.

Lemma class_mem_lower c : class_mem [ClassRange "a" "z"] c = is_lower c.
Proof. unfold class_mem, is_lower. simpl. apply orb_false_r. Qed.

(** What [/[A-Z][a-z]+ [A-Z][a-z]+/] matches: two capitalised words
    separated by one space. *)
Lemma inline_name_shape x y :
  sem input false (pattern re_name_inline) 0 x y -> endIndex y <= length input ->
  exists u1 w1 u2 w2,
    substr input (endIndex x) (endIndex y) = u1 :: w1 ++ " "%char :: u2 :: w2
    /\ is_upper u1 = true /\ is_upper u2 = true /\ w1 <> [] /\ w2 <> []
    /\ forallb is_lower (w1 ++ w2) = true.
Proof.
  intros H Hy. apply sem_seqs in H.
  sem_next H y1 S1. sem_next H y2 S2. sem_next H y3 S3. sem_next H y4 S4. sem_next H y5 S5.
  apply sem_list_nil_inv in H. subst y.
  apply (sem_atom_plain input upper_class (class_mem [ClassRange "A" "Z"]) _ _ _ eq_refl) in S1 as (u1 & E1 & U1 & ->).
  apply sem_char_plain in S3 as [E3 ->].
  apply (sem_atom_plain input upper_class (class_mem [ClassRange "A" "Z"]) _ _ _ eq_refl) in S4 as (u2 & E4 & U2 & ->).
  pose proof (sem_le _ _ _ _ _ _ S2). pose proof (sem_le _ _ _ _ _ _ S5). cbn [endIndex captures] in *.
  apply (sem_repeat_plain _ _ _ _ _ (class_mem [ClassRange "a" "z"])) in S2
    as (_ & _ & M2 & _ & F2); [|reflexivity|exact I|lia].
  apply (sem_repeat_plain _ _ _ _ _ (class_mem [ClassRange "a" "z"])) in S5
    as (_ & _ & M5 & _ & F5); [|reflexivity|exact I|lia].
  rewrite class_mem_upper in U1, U2. cbn [endIndex] in M2, F2, M5, F5.
  exists u1, (substr input (S (endIndex x)) (endIndex y2)), u2,
    (substr input (S (S (endIndex y2))) (endIndex y5)).
  split.
  { rewrite (substr_cons_lt input (endIndex x) _ u1), (substr_app input (S (endIndex x)) (endIndex y2)),
      (substr_cons_lt input (endIndex y2) _ " "%char), (substr_cons_lt input (S (endIndex y2)) _ u2)
      by (lia || assumption).
    reflexivity. }
  split; [exact U1|]. split; [exact U2|].
  split; [intros Z; rewrite Z in M2; simpl in M2; lia|].
  split; [intros Z; rewrite Z in M5; simpl in M5; lia|].
  rewrite (forallb_ext_in _ _ _ class_mem_lower) in F2. rewrite (forallb_ext_in _ _ _ class_mem_lower) in F5.
  rewrite forallb_app, F2, F5. reflexivity.
Qed.

(** The code units of [[A-Za-z\s]]. *)
Definition name_char (c : ascii) : bool := is_upper c || is_lower c || is_js_space c.

Lemma class_mem_name c :
  class_mem [ClassRange "A" "Z"; ClassRange "a" "z"; ClassEsc EscSpace] c = name_char c.
Proof.
  unfold class_mem, name_char, is_upper, is_lower. simpl. rewrite orb_false_r.
  now destruct (in_range "A" "Z" c), (in_range "a" "z" c).
Qed.

(** What [/Name:\s?([A-Za-z\s]+)/] captures in its group: a non-empty
    run of letters and white space. *)
Lemma label_name_shape x y :
  sem input false (pattern re_name_label) 0 x y -> endIndex y <= length input ->
  length (captures x) = 1 ->
  exists p q, nth_error (captures y) 0 = Some (Some (p, q)) /\ p < q
    /\ forallb name_char (substr input p q) = true.
Proof.
  intros H Hy Hc. apply sem_seqs in H. cbn [lit map list_ascii_of_string app] in H.
  sem_next H y1 S1. sem_next H y2 S2. sem_next H y3 S3. sem_next H y4 S4. sem_next H y5 S5.
  sem_next H y6 S6. sem_next H y7 S7. apply sem_list_nil_inv in H. subst y.
  apply sem_char_plain in S1 as [_ ->]. apply sem_char_plain in S2 as [_ ->].
  apply sem_char_plain in S3 as [_ ->]. apply sem_char_plain in S4 as [_ ->].
  apply sem_char_plain in S5 as [_ ->]. cbn [ngroups opt space Nat.add] in *.
  apply sem_group_inv in S7 as (w & Sw & ->). cbn [endIndex captures] in *.
  pose proof (sem_caps_length _ _ _ _ _ _ S6). pose proof (sem_caps_length _ _ _ _ _ _ Sw).
  apply sem_seqs in Sw. sem_next Sw w1 B1. apply sem_list_nil_inv in Sw. subst w.
  apply (sem_repeat_plain _ _ _ _ _ (class_mem [ClassRange "A" "Z"; ClassRange "a" "z"; ClassEsc EscSpace]))
    in B1 as (C & L & M & _ & F); [|reflexivity|exact I|exact Hy].
  rewrite (forallb_ext_in _ _ _ class_mem_name) in F. rewrite length_substr in M by exact Hy.
  exists (endIndex y6), (endIndex w1). split; [apply nth_error_set_nth_eq; cbn [captures] in *; lia|].
  split; [lia | exact F].
Qed.

(** ** The address *)

(** A literal without the [i] flag consumes exactly itself. *)
Lemma sem_lit_plain v gi x y :
  sem_list input false (lit v) gi x y ->
  captures y = captures x /\ endIndex y = endIndex x + length (list_ascii_of_string v)
  /\ substr input (endIndex x) (endIndex y) = list_ascii_of_string v.
Proof.
  intros H. apply sem_lit in H as (C & E & Ok). apply lit_ok_plain in Ok. auto.
Qed.

Definition word_or_space (c : ascii) : bool := is_word_char c || is_js_space c.
Definition not_comma (c : ascii) : bool := negb (c =? ",")%char.

Lemma class_mem_word_space c : class_mem [ClassEsc EscWord; ClassEsc EscSpace] c = word_or_space c.
Proof. unfold class_mem, word_or_space. simpl. now rewrite orb_false_r. Qed.

Lemma accepts_not_comma ch : char_accepts false (class_mem [ClassChar ","]) true ch = not_comma ch.
Proof.
  unfold char_accepts, class_mem, not_comma. cbn [existsb class_atom_mem].
  rewrite orb_false_r, Ascii.eqb_sym. now destruct (ch =? ",")%char.
Qed.

(** The first group of the address pattern, [(\w[\w\s]+)]. *)
Lemma address_group1 gi x y :
  sem input false (seqs [Esc EscWord; plus (CharClass false [ClassEsc EscWord; ClassEsc EscSpace])]) gi x y ->
  endIndex y <= length input ->
  captures y = captures x /\ endIndex x < endIndex y
  /\ exists c r, substr input (endIndex x) (endIndex y) = c :: r
       /\ is_word_char c = true /\ forallb word_or_space r = true.
Proof.
  intros H Hy. apply sem_seqs in H. sem_next H y1 S1. sem_next H y2 S2.
  apply sem_list_nil_inv in H. subst y.
  apply (sem_atom_plain input (Esc EscWord) is_word_char _ _ _ eq_refl) in S1 as (c & E & W & ->).
  apply (sem_repeat_plain _ _ _ _ _ (class_mem [ClassEsc EscWord; ClassEsc EscSpace])) in S2
    as (C & L & M & _ & F); [|reflexivity|exact I|exact Hy].
  cbn [endIndex captures] in *. rewrite (forallb_ext_in _ _ _ class_mem_word_space) in F.
  split; [exact C|]. split; [lia|]. exists c, (substr input (S (endIndex x)) (endIndex y2)).
  split; [apply substr_cons_lt; [lia | exact E]|]. auto.
Qed.

(** The second group of the address pattern, [([^,]+,[^,]+)]. *)
Lemma address_group2 gi x y :
  sem input false (seqs [plus (CharClass true [ClassChar ","]); Char ",";
                         plus (CharClass true [ClassChar ","])]) gi x y ->
  endIndex y <= length input ->
  captures y = captures x /\ endIndex x <= endIndex y
  /\ exists a b, substr input (endIndex x) (endIndex y) = a ++ ","%char :: b
       /\ forallb not_comma (a ++ b) = true.
Proof.
  intros H Hy. apply sem_seqs in H. sem_next H y1 S1. sem_next H y2 S2. sem_next H y3 S3.
  apply sem_list_nil_inv in H. subst y.
  pose proof (sem_le _ _ _ _ _ _ S1) as L1. pose proof (sem_le _ _ _ _ _ _ S3) as L3.
  apply (sem_repeat_atom _ _ _ _ _ _ (class_mem [ClassChar ","]) true) in S1
    as (C1 & _ & _ & _ & F1); [|reflexivity|exact I].
  apply sem_char_plain in S2 as [E2 ->]. cbn [endIndex captures] in *.
  apply (sem_repeat_atom _ _ _ _ _ _ (class_mem [ClassChar ","]) true) in S3
    as (C3 & _ & _ & _ & F3); [|reflexivity|exact I].
  cbn [endIndex captures] in *.
  rewrite (forallb_ext_in _ _ _ accepts_not_comma) in F1.
  rewrite (forallb_ext_in _ _ _ accepts_not_comma) in F3.
  split; [congruence|]. split; [lia|].
  exists (substr input (endIndex x) (endIndex y1)), (substr input (S (endIndex y1)) (endIndex y3)).
  split; [|rewrite forallb_app, F1, F3; reflexivity].
  rewrite (substr_app input (endIndex x) (endIndex y1)), (substr_cons_lt input (endIndex y1) _ ","%char)
    by (lia || exact E2).
  reflexivity.
Qed.

(** What [/Addresss\/[^\w]*(\w[\w\s]+).*?wa:\s([^,]+,[^,]+)/]
    matches: the label [Addresss/], then later the label [wa:], the first
    group a word character followed by word characters and spaces, the
    second group two comma-free runs around one comma. *)
Lemma address_shape x y :
  sem input false (pattern re_address) 0 x y -> endIndex y <= length input ->
  length (captures x) = 2 ->
  exists i j p1 q1 p2 q2,
    substr input i (i + 9) = list_ascii_of_string "Addresss/" /\ i + 9 <= j
    /\ substr input j (j + 3) = list_ascii_of_string "wa:"
    /\ nth_error (captures y) 0 = Some (Some (p1, q1))
    /\ nth_error (captures y) 1 = Some (Some (p2, q2))
    /\ (exists c r, substr input p1 q1 = c :: r /\ is_word_char c = true
                    /\ forallb word_or_space r = true)
    /\ (exists a b, substr input p2 q2 = a ++ ","%char :: b /\ forallb not_comma (a ++ b) = true).
Proof.
  intros H Hy Hc. apply sem_seqs, sem_list_app in H as (y1 & L1 & H).
  apply sem_list_app in H as (y2 & L2 & H). apply sem_list_app in H as (y3 & L3 & H).
  sem_next L2 z1 T1. sem_next L2 z2 T2. sem_next L2 z3 T3. apply sem_list_nil_inv in L2. subst y2.
  sem_next H z4 T4. sem_next H z5 T5. apply sem_list_nil_inv in H. subst y.
  apply sem_lit_plain in L1 as (C1 & E1 & A1). apply sem_lit_plain in L3 as (C3 & E3 & A3).
  pose proof (sem_le _ _ _ _ _ _ T1). pose proof (sem_le _ _ _ _ _ _ T3).
  apply (sem_repeat_atom _ _ _ _ _ _ (class_mem [ClassEsc EscWord]) true) in T1
    as (CT1 & _); [|reflexivity|exact I].
  apply (sem_repeat_atom _ _ _ _ _ _ (fun a => negb (is_line_terminator a)) false) in T3
    as (CT3 & _); [|reflexivity|exact I].
  apply (sem_atom_plain input (Esc EscSpace) is_js_space _ _ _ eq_refl) in T4 as (sp & Esp & _ & ->).
  apply sem_group_inv in T2 as (w & Sw & ->). apply sem_group_inv in T5 as (w' & Sw' & ->).
  cbn [endIndex captures] in *. pose proof (sem_le _ _ _ _ _ _ Sw').
  apply address_group2 in Sw' as (Cw' & _ & G2); [|exact Hy].
  pose proof (sem_le _ _ _ _ _ _ Sw).
  apply address_group1 in Sw as (Cw & _ & G1); [|cbn [endIndex] in *; lia].
  cbn [endIndex captures] in *.
  exists (endIndex x), (endIndex z3), (endIndex z1), (endIndex w), (S (endIndex y3)), (endIndex w').
  rewrite E1 in A1. rewrite E3 in A3. simpl in E1, E3.
  split; [exact A1|]. split; [lia|]. split; [exact A3|].
  norm_groups.
  assert (Cap : captures w' = set_nth 0 (Some (endIndex z1, endIndex w)) (captures w)) by congruence.
  assert (Lw : length (captures w) = 2) by congruence.
  split; [rewrite nth_error_set_nth_ne by lia; rewrite Cap; apply nth_error_set_nth_eq; lia|].
  split; [apply nth_error_set_nth_eq; rewrite Cap, length_set_nth; lia|].
  split; [exact G1 | exact G2].
Qed.
End Shapes.

(** ** The fields as the record holds them *)

(** The formats of the specification's DocumentRecord (§3). *)
Definition twelve_digits (l : list ascii) : Prop := length l = 12 /\ forallb is_digit l = true.

Definition dd_mm_yyyy (l : list ascii) : Prop :=
  exists w1 w2 w3, l = w1 ++ "/"%char :: w2 ++ "/"%char :: w3
    /\ length w1 = 2 /\ length w2 = 2 /\ length w3 = 4 /\ forallb is_digit (w1 ++ w2 ++ w3) = true.

Definition gender_word (l : list ascii) : Prop :=
  exists v, In v ["Male"; "Female"; "Other"]%string
    /\ map canonicalize l = map canonicalize (list_ascii_of_string v).

Definition six_digits (l : list ascii) : Prop := length l = 6 /\ forallb is_digit l = true.

(** A field value: [null], or a string of the given format. *)
Definition null_or (P : list ascii -> Prop) (v : jsv) : Prop :=
  match v with JNull => True | JStr s => P (list_ascii_of_string s) | JUndef => False end.

Lemma null_or_str P v s : null_or P v -> v = JStr s -> P (list_ascii_of_string s).
Proof. now intros H ->. Qed.

(** The digits of a match of the document-number pattern, kept by a
    filter that keeps digits and drops its white space. *)
Lemma filter_shape (f : ascii -> bool) (a1 b1 a2 b2 a3 : list ascii) :
  forallb f (a1 ++ a2 ++ a3) = true -> filter f (b1 ++ b2) = [] ->
  filter f (a1 ++ b1 ++ a2 ++ b2 ++ a3) = a1 ++ a2 ++ a3.
Proof.
  intros D B. rewrite filter_app in B. apply app_eq_nil in B as [B1 B2].
  rewrite !forallb_app in D. apply andb_prop in D as [D1 D]. apply andb_prop in D as [D2 D3].
  rewrite !filter_app, B1, B2, !forallb_filter_id by assumption. reflexivity.
Qed.

Lemma spaces_no_digit w : forallb is_js_space w = true -> filter is_digit w = [].
Proof.
  induction w as [|c w IH]; intros H; [reflexivity|]. simpl in *. apply andb_prop in H as [Hc H].
  destruct (is_digit c) eqn:Dc; [rewrite (digit_not_space c Dc) in Hc; discriminate | auto].
Qed.

Lemma number_null_or text : null_or twelve_digits (Server.extractAadharNumber text).
Proof.
  unfold Server.extractAadharNumber, match0, str_match, exec, matched_string.
  destruct (exec_from re_aadhar (list_ascii_of_string text) 0) as [mt|] eqn:E; [|exact I].
  cbn [null_or]. rewrite strip_spaces, list_ascii_of_string_of_list_ascii.
  pose proof (exec_from_range _ _ _ _ E) as R. apply exec_sound in E.
  apply aadhar_shape in E as (w1 & s1 & w2 & s2 & w3 & Eq & L1 & L2 & L3 & _ & _ & D & Sp);
    [|simpl; lia].
  cbn [endIndex] in Eq. rewrite Eq, filter_shape by (apply digits_not_space || apply filter_spaces; assumption).
  unfold twelve_digits. rewrite !length_app, D. split; [lia | reflexivity].
Qed.

Lemma dob_null_or text : null_or dd_mm_yyyy (Details.extractDOB text).
Proof.
  unfold Details.extractDOB, match_n, match_group, str_match, exec.
  destruct (exec_from re_dob (list_ascii_of_string text) 0) as [mt|] eqn:E; [|exact I].
  pose proof (exec_from_range _ _ _ _ E) as R. apply exec_sound in E.
  apply dob_shape in E as (p & q & w1 & w2 & w3 & Hc & Eq & Hw); [|simpl; lia|reflexivity].
  cbn [captures pred] in *. rewrite Hc. cbn [null_or].
  rewrite list_ascii_of_string_of_list_ascii, Eq. unfold dd_mm_yyyy. eauto.
Qed.

Lemma gender_null_or text : null_or gender_word (Details.extractGender text).
Proof.
  unfold Details.extractGender, match_n, match_group, str_match, exec.
  destruct (exec_from re_gender (list_ascii_of_string text) 0) as [mt|] eqn:E; [|exact I].
  apply exec_sound in E. apply gender_shape in E as (p & q & v & Hc & Iv & Eq); [|reflexivity].
  cbn [captures pred] in *. rewrite Hc. cbn [null_or].
  rewrite list_ascii_of_string_of_list_ascii. unfold gender_word. eauto.
Qed.

Lemma pin_null_or text : null_or six_digits (Details.extractPin text).
Proof.
  rewrite extractPin_find_pin. destruct (find_pin _) as [i|] eqn:F; [|exact I].
  unfold find_pin in F. apply find_seq_Some in F as (_ & Sd & _).
  unfold standalone_digits in Sd. apply andb_prop in Sd as [Sd _]. apply andb_prop in Sd as [_ Sd].
  cbn [null_or]. rewrite list_ascii_of_string_of_list_ascii. exact (span_substr _ _ _ _ Sd).
Qed.

(** C8: a document number, when one is found, is twelve decimal digits:
    the match is three groups of four digits with at most one white-space
    code unit between groups, and [replace(/\s/g, "")] removes that
    white space. *)
Theorem extractAadharNumber_digits text s :
  Server.extractAadharNumber text = JStr s ->
  length (list_ascii_of_string s) = 12 /\ forallb is_digit (list_ascii_of_string s) = true.
Proof. exact (null_or_str _ _ s (number_null_or text)). Qed.

Lemma extractAadharNumber_digits_witness :
  Server.extractAadharNumber "ID 1234 5678 9012" = JStr "123456789012"
  /\ length (list_ascii_of_string "123456789012") = 12
  /\ forallb is_digit (list_ascii_of_string "123456789012") = true.
Proof.
  assert (H : Server.extractAadharNumber "ID 1234 5678 9012" = JStr "123456789012")
    by (vm_compute; reflexivity).
  split; [exact H|]. exact (extractAadharNumber_digits _ _ H).
Defined.

(** C10: a date of birth, when one is returned, has the shape [DD/MM/YYYY]:
    two digits, a slash, two digits, a slash and four digits. *)
Theorem extractDOB_shape text s :
  Details.extractDOB text = JStr s ->
  exists w1 w2 w3, list_ascii_of_string s = w1 ++ "/"%char :: w2 ++ "/"%char :: w3
    /\ length w1 = 2 /\ length w2 = 2 /\ length w3 = 4 /\ forallb is_digit (w1 ++ w2 ++ w3) = true.
Proof. exact (null_or_str _ _ s (dob_null_or text)). Qed.

Lemma extractDOB_shape_witness :
  Details.extractDOB "DOB: 05/06/1990" = JStr "05/06/1990"
  /\ exists w1 w2 w3, list_ascii_of_string "05/06/1990" = w1 ++ "/"%char :: w2 ++ "/"%char :: w3
    /\ length w1 = 2 /\ length w2 = 2 /\ length w3 = 4 /\ forallb is_digit (w1 ++ w2 ++ w3) = true.
Proof.
  assert (H : Details.extractDOB "DOB: 05/06/1990" = JStr "05/06/1990") by (vm_compute; reflexivity).
  split; [exact H|]. exact (extractDOB_shape _ _ H).
Defined.

(** C19: a gender, when one is returned, is [Male], [Female] or [Other]
    up to case, as the text has it (the match is case-insensitive and
    the captured text is returned unchanged). *)
Theorem extractGender_value text s :
  Details.extractGender text = JStr s ->
  exists v, In v ["Male"; "Female"; "Other"]%string
    /\ map canonicalize (list_ascii_of_string s) = map canonicalize (list_ascii_of_string v).
Proof. exact (null_or_str _ _ s (gender_null_or text)). Qed.

Lemma extractGender_value_witness :
  Details.extractGender "Sex: FEMALE" = JStr "FEMALE"
  /\ exists v, In v ["Male"; "Female"; "Other"]%string
    /\ map canonicalize (list_ascii_of_string "FEMALE") = map canonicalize (list_ascii_of_string v).
Proof.
  assert (H : Details.extractGender "Sex: FEMALE" = JStr "FEMALE") by (vm_compute; reflexivity).
  split; [exact H|]. exact (extractGender_value _ _ H).
Defined.

(** C22: the labelled fallback of [extractName] returns letters and white
    space only, with no white space at either end (it may be empty). *)
Theorem labelled_name_letters text s :
  Details.extractName text JNull = inr (JStr s) ->
  forallb name_char (list_ascii_of_string s) = true
  /\ holds_at is_js_space (list_ascii_of_string s) 0 = false
  /\ holds_at is_js_space (rev (list_ascii_of_string s)) 0 = false.
Proof.
  unfold Details.extractName, match_n, match_group, str_match, exec. cbn [js_truthy].
  destruct (exec_from re_name_label (list_ascii_of_string text) 0) as [mt|] eqn:E; [|discriminate].
  pose proof (exec_from_range _ _ _ _ E) as R. apply exec_sound in E.
  apply label_name_shape in E as (p & q & Hc & _ & F); [|simpl; lia|reflexivity].
  cbn [captures pred] in *. rewrite Hc. cbn. intros [= <-].
  unfold trim. rewrite list_ascii_of_string_of_list_ascii, list_ascii_of_string_of_list_ascii.
  split; [apply forallb_trim_list, F | apply trim_list_ends].
Qed.

Lemma labelled_name_letters_witness :
  Details.extractName "Name: Ravi 12" JNull = inr (JStr "Ravi")
  /\ forallb name_char (list_ascii_of_string "Ravi") = true
  /\ holds_at is_js_space (list_ascii_of_string "Ravi") 0 = false
  /\ holds_at is_js_space (rev (list_ascii_of_string "Ravi")) 0 = false.
Proof.
  assert (H : Details.extractName "Name: Ravi 12" JNull = inr (JStr "Ravi")) by (vm_compute; reflexivity).
  split; [exact H|]. exact (labelled_name_letters _ _ H).
Defined.

(** C21: the inline name found by [cleanOCRText] is two capitalised words
    separated by one space: an upper-case letter and at least one
    lower-case letter, twice. *)
Theorem inline_name_words text s :
  Server.extractName text = JStr s ->
  exists u1 w1 u2 w2, list_ascii_of_string s = u1 :: w1 ++ " "%char :: u2 :: w2
    /\ is_upper u1 = true /\ is_upper u2 = true /\ w1 <> [] /\ w2 <> []
    /\ forallb is_lower (w1 ++ w2) = true.
Proof.
  unfold Server.extractName, match0, matched_string, str_match, exec.
  destruct (exec_from re_name_inline (list_ascii_of_string text) 0) as [mt|] eqn:E; [|discriminate].
  intros [= <-]. rewrite list_ascii_of_string_of_list_ascii.
  pose proof (exec_from_range _ _ _ _ E) as R. apply exec_sound in E.
  apply inline_name_shape in E; [exact E | simpl; lia].
Qed.

Lemma inline_name_words_witness :
  Server.extractName "NAME Ravi Kumar 1990" = JStr "Ravi Kumar"
  /\ exists u1 w1 u2 w2, list_ascii_of_string "Ravi Kumar" = u1 :: w1 ++ " "%char :: u2 :: w2
    /\ is_upper u1 = true /\ is_upper u2 = true /\ w1 <> [] /\ w2 <> []
    /\ forallb is_lower (w1 ++ w2) = true.
Proof.
  assert (H : Server.extractName "NAME Ravi Kumar 1990" = JStr "Ravi Kumar") by (vm_compute; reflexivity).
  split; [exact H|]. exact (inline_name_words _ _ H).
Defined.

(** C20: an address, when one is returned, needs both labels: [Addresss/]
    and, later, [wa:] occur in the text.  It is the first fragment, which
    starts with a word character and holds word characters and spaces,
    then [", "], then the second fragment, which holds exactly one comma. *)
Theorem extractAddress_parts text s :
  Details.extractAddress text = inr (JStr s) ->
  (exists i j, i + 9 <= j
     /\ substr (list_ascii_of_string text) i (i + 9) = list_ascii_of_string "Addresss/"
     /\ substr (list_ascii_of_string text) j (j + 3) = list_ascii_of_string "wa:")
  /\ exists c n a b, list_ascii_of_string s = c :: n ++ ","%char :: " "%char :: a ++ ","%char :: b
       /\ is_word_char c = true /\ forallb word_or_space n = true /\ forallb not_comma (a ++ b) = true.
Proof.
  unfold Details.extractAddress, str_match, exec.
  destruct (exec_from re_address (list_ascii_of_string text) 0) as [mt|] eqn:E; [|discriminate].
  pose proof (exec_from_range _ _ _ _ E) as R. apply exec_sound in E.
  apply address_shape in E
    as (i & j & p1 & q1 & p2 & q2 & A1 & Hij & A3 & N1 & N2 & (c & r & G1 & Wc & Fr) & (a & b & G2 & Fab));
    [|simpl; lia|reflexivity].
  unfold match_n, match_group. cbn [m_caps captures pred] in *. rewrite N1, N2. cbn [js_trim].
  intros [= <-]. split; [eauto|].
  unfold trim. rewrite !list_ascii_of_string_app, !list_ascii_of_string_of_list_ascii, G1, G2.
  unfold trim_list. rewrite trim_start_id by (unfold holds_at; simpl; auto with ocr).
  rewrite (trim_end_app_nonspace [] c r (word_not_space c Wc) : trim_end (c :: r) = c :: trim_end r).
  rewrite trim_start_app_nonspace, trim_end_app_nonspace by reflexivity.
  rewrite forallb_app in Fab. apply andb_prop in Fab as [Fa Fb].
  exists c, (trim_end r), (trim_start a), (trim_end b).
  split; [simpl; rewrite list_ascii_of_string_of_list_ascii; reflexivity|]. split; [exact Wc|].
  split; [apply forallb_trim_end, Fr|].
  rewrite forallb_app, (forallb_trim_start _ _ Fa), (forallb_trim_end _ _ Fb). reflexivity.
Qed.

Lemma extractAddress_parts_witness :
  let text := "Addresss/ 12 Park Street wa: Bangalore, Karnataka 560001"%string in
  let s := "12 Park Street, Bangalore, Karnataka 560001"%string in
  Details.extractAddress text = inr (JStr s)
  /\ (exists i j, i + 9 <= j
       /\ substr (list_ascii_of_string text) i (i + 9) = list_ascii_of_string "Addresss/"
       /\ substr (list_ascii_of_string text) j (j + 3) = list_ascii_of_string "wa:")
  /\ exists c n a b, list_ascii_of_string s = c :: n ++ ","%char :: " "%char :: a ++ ","%char :: b
       /\ is_word_char c = true /\ forallb word_or_space n = true /\ forallb not_comma (a ++ b) = true.
Proof.
  intros text s. assert (H : Details.extractAddress text = inr (JStr s)) by (vm_compute; reflexivity).
  split; [exact H|]. exact (extractAddress_parts text s H).
Defined.
