(* ===== verification/Roundtrip.v ===== *)
(** * The document number read back from its printed form

    The round trip of the document number (server.js:81-86): a text that
    carries twelve digits printed in three groups of four, with at most
    one white-space code unit between the groups and no other digit
    around them, gives back exactly those twelve digits.

    The proof uses the regular expression in both directions.  A
    transition of the pattern in the declarative semantics is built at
    the first group ([RegexSem.sem_times_intro], [sem_opt_intro]); the
    matcher's completeness makes [exec] find its match there and not
    earlier ([exec_from_first_sem]), since every transition starts on a
    digit; and the soundness of the matcher with [aadhar_shape] shows
    that whatever end the matcher picks, the digits it keeps are the
    twelve of the text ([extractAadharNumber_at]).

    The same lemma shows what a date of birth printed before the number
    does ([extractAadharNumber_takes_year]): no transition starts before
    the year, since four code units from any earlier position reach a
    slash or a code unit of the text before the date, so the year is
    read as the first group and the number's last group is cut off. *)

From Stdlib Require Import Ascii String List Bool Arith Lia.
From S2P Require Import Prelude Chars Regex RegexFacts RegexSem StringOps Extractors Normalizer FieldShapes.
Import ListNotations.

(** ** Segments of the input *)

Lemma span_skipn input A : forall w i rest,
  skipn i input = w ++ rest -> forallb A w = true -> span input A i (length w) = true.
Proof.
  induction w as [|c w IH]; intros i rest H F; [reflexivity|]. simpl in F.
  apply andb_prop in F as [Fc F]. cbn [length span]. rewrite (nth_error_skipn0 _ _ _ H). simpl.
  rewrite Fc. apply (IH (S i) rest); [|exact F].
  rewrite <- Nat.add_1_r. exact (skipn_skip_app input i [c] (w ++ rest) H).
Qed.

Lemma sem_times_seg input r A n g gi caps i w rest :
  atom_set r = Some (A, false) -> ngroups r = 0 ->
  skipn i input = w ++ rest -> length w = n -> forallb A w = true ->
  sem input false (Repeat n (Some n) g r) gi (MState i caps) (MState (i + length w) caps).
Proof. intros Hr Hg H <- F. exact (sem_times_intro input r A g gi caps Hr Hg _ i (span_skipn input A w i rest H F)). Qed.

Lemma sem_opt_seg input r A g gi caps i s rest :
  atom_set r = Some (A, false) -> ngroups r = 0 ->
  skipn i input = s ++ rest -> length s <= 1 -> forallb A s = true ->
  sem input false (Repeat 0 (Some 1) g r) gi (MState i caps) (MState (i + length s) caps).
Proof.
  intros Hr Hg H L F. destruct s as [|c [|c' s]]; simpl in L, F; [| |lia].
  - rewrite Nat.add_0_r. apply sem_opt_skip_intro.
  - rewrite andb_true_r in F. rewrite Nat.add_1_r. apply (sem_opt_intro input r A g gi caps Hr Hg i c); [|exact F].
    rewrite (nth_error_skipn0 _ _ _ H). reflexivity.
Qed.

(** ** Word boundaries around the digits *)

Lemma is_word_at_skipn input i rest :
  skipn i input = rest -> is_word_at input i = holds_at is_word_char rest 0.
Proof. intros H. unfold is_word_at, holds_at. now rewrite (nth_error_skipn0 _ _ _ H). Qed.

Lemma word_before_app pre rest :
  word_before (pre ++ rest) (length pre) = holds_at is_word_char pre (length pre - 1).
Proof.
  unfold holds_at. destruct (length pre) as [|p] eqn:E.
  - apply length_zero_iff_nil in E as ->. reflexivity.
  - cbn [word_before]. unfold is_word_at. rewrite nth_error_app1 by lia. now rewrite Nat.sub_1_r.
Qed.

Lemma digits_head_word w r :
  w <> [] -> forallb is_digit w = true -> holds_at is_word_char (w ++ r) 0 = true.
Proof.
  destruct w as [|c w]; intros Hw D; [congruence|]. simpl in D. apply andb_prop in D as [D _].
  apply digit_is_word, D.
Qed.

Lemma word_before_digits input i w rest :
  skipn i input = w ++ rest -> w <> [] -> forallb is_digit w = true ->
  word_before input (i + length w) = true.
Proof.
  intros H Hw D. destruct (exists_last Hw) as (w' & d & ->).
  rewrite <- app_assoc in H. apply skipn_skip_app in H.
  replace (i + length (w' ++ [d])) with (S (i + length w')) by (rewrite length_app; simpl; lia).
  cbn [word_before]. rewrite (is_word_at_skipn _ _ _ H).
  rewrite forallb_app in D. apply andb_prop in D as [_ D]. apply (digits_head_word [d]); [discriminate | exact D].
Qed.

Lemma forallb_app3 {A} (f : A -> bool) a b c :
  forallb f (a ++ b ++ c) = true -> forallb f a = true /\ forallb f b = true /\ forallb f c = true.
Proof.
  rewrite !forallb_app. intros D. apply andb_prop in D as [D1 D]. apply andb_prop in D as [D2 D3]. auto.
Qed.

(** ** The number a match gives *)

(** The first four code units of a transition of the pattern are
    digits. *)
Lemma number_starts_digits input q caps z k :
  sem input false (pattern re_aadhar) 0 (MState q caps) z -> q <= length input -> k < 4 ->
  exists c, nth_error input (q + k) = Some c /\ is_digit c = true.
Proof.
  intros S Hq Hk. assert (B : endIndex z <= length input) by exact (sem_bound _ _ _ _ _ _ S Hq).
  apply aadhar_shape in S as (a1 & b1 & a2 & b2 & a3 & Eq & La1 & _ & _ & _ & _ & Da & _); [|exact B].
  cbn [endIndex] in Eq. destruct (nth_error a1 k) as [c|] eqn:Ek; [|apply nth_error_None in Ek; lia].
  exists c. split.
  - assert (Lt : k < endIndex z - q).
    { pose proof (length_substr input q (endIndex z) B) as Ls. rewrite Eq, !length_app in Ls. lia. }
    rewrite <- (nth_error_substr input q (endIndex z) k Lt), Eq, nth_error_app1 by lia. exact Ek.
  - rewrite forallb_app in Da. apply andb_prop in Da as [Da _]. rewrite forallb_forall in Da.
    apply Da, (nth_error_In _ _ Ek).
Qed.

(** Whatever end the matcher picks, the digits a match from [P] keeps
    are the first twelve digits of the text from [P]: its own digits are
    a prefix of them, and there are twelve. *)
Lemma number_digits input P j a1 b1 a2 b2 a3 :
  P <= j <= length input -> substr input P j = a1 ++ b1 ++ a2 ++ b2 ++ a3 ->
  length a1 = 4 -> length a2 = 4 -> length a3 = 4 ->
  forallb is_digit (a1 ++ a2 ++ a3) = true -> forallb is_js_space (b1 ++ b2) = true ->
  filter not_space (substr input P j) = firstn 12 (filter is_digit (skipn P input)).
Proof.
  intros Hj Eq La1 La2 La3 Da Sb.
  rewrite (skipn_substr_app input P j Hj), filter_app, Eq.
  rewrite (filter_shape is_digit) by (assumption || (apply spaces_no_digit; assumption)).
  rewrite (filter_shape not_space) by (apply digits_not_space || apply filter_spaces; assumption).
  rewrite firstn_app, (firstn_all2 (a1 ++ a2 ++ a3)) by (rewrite !length_app; lia).
  replace (12 - length (a1 ++ a2 ++ a3)) with 0 by (rewrite !length_app; lia). now rewrite app_nil_r.
Qed.

(** A transition from [P] and none before it: [extractAadharNumber]
    returns the first twelve digits of the text from [P]. *)
Lemma extractAadharNumber_at input P y :
  P <= length input -> sem input false (pattern re_aadhar) 0 (MState P []) y ->
  (forall q z, q < P -> ~ sem input false (pattern re_aadhar) 0 (MState q []) z) ->
  Server.extractAadharNumber (string_of_list_ascii input)
  = JStr (string_of_list_ascii (firstn 12 (filter is_digit (skipn P input)))).
Proof.
  intros Hp Sy Hb.
  destruct (exec_from_first_sem re_aadhar input 0 P y) as (mt & Ex & Ix);
    [lia | exact Sy | intros q z Hq; apply Hb; lia|].
  unfold Server.extractAadharNumber, match0, str_match, exec, matched_string.
  rewrite list_ascii_of_string_of_list_ascii, Ex. cbn iota beta. f_equal. apply list_ascii_of_string_inj.
  rewrite strip_spaces, !list_ascii_of_string_of_list_ascii, Ix.
  pose proof (exec_from_range _ _ _ _ Ex) as R. apply exec_sound in Ex. rewrite Ix in Ex, R.
  apply aadhar_shape in Ex as (a1 & b1 & a2 & b2 & a3 & Eq & La1 & La2 & La3 & _ & _ & Da & Sb); [|simpl; lia].
  exact (number_digits input P (m_end mt) a1 b1 a2 b2 a3 ltac:(lia) Eq La1 La2 La3 Da Sb).
Qed.

(** ** The round trip *)

Section Roundtrip.
Variables (pre w1 s1 w2 s2 w3 post : list ascii).
(** Three groups of four digits, *)
Hypotheses (L1 : length w1 = 4) (L2 : length w2 = 4) (L3 : length w3 = 4).
Hypothesis D : forallb is_digit (w1 ++ w2 ++ w3) = true.
(** at most one white-space code unit between two groups, *)
Hypotheses (Ls1 : length s1 <= 1) (Ls2 : length s2 <= 1).
Hypothesis Sp : forallb is_js_space (s1 ++ s2) = true.
(** no other digit in the text, *)
Hypothesis N : forallb (fun c => negb (is_digit c)) (pre ++ post) = true.
(** and no word character right before or after the number. *)
Hypothesis Bl : holds_at is_word_char pre (length pre - 1) = false.
Hypothesis Br : holds_at is_word_char post 0 = false.

Local Abbreviation input := (pre ++ w1 ++ s1 ++ w2 ++ s2 ++ w3 ++ post).
Local Abbreviation P := (length pre).
Local Abbreviation E := (length pre + length w1 + length s1 + length w2 + length s2 + length w3).

Lemma seg_positions :
  skipn P input = w1 ++ s1 ++ w2 ++ s2 ++ w3 ++ post
  /\ skipn (P + length w1) input = s1 ++ w2 ++ s2 ++ w3 ++ post
  /\ skipn (P + length w1 + length s1) input = w2 ++ s2 ++ w3 ++ post
  /\ skipn (P + length w1 + length s1 + length w2) input = s2 ++ w3 ++ post
  /\ skipn (P + length w1 + length s1 + length w2 + length s2) input = w3 ++ post
  /\ skipn E input = post.
Proof.
  pose proof (skipn_skip_app input 0 pre _ eq_refl) as K0. cbn [Nat.add] in K0.
  pose proof (skipn_skip_app _ _ _ _ K0) as K1. pose proof (skipn_skip_app _ _ _ _ K1) as K2.
  pose proof (skipn_skip_app _ _ _ _ K2) as K3. pose proof (skipn_skip_app _ _ _ _ K3) as K4.
  pose proof (skipn_skip_app _ _ _ _ K4) as K5. repeat split; assumption.
Qed.

(** The pattern has a transition over the printed number. *)
Lemma number_sem : sem input false (pattern re_aadhar) 0 (MState P []) (MState E []).
Proof.
  destruct seg_positions as (K0 & K1 & K2 & K3 & K4 & K5).
  destruct (forallb_app3 _ _ _ _ D) as (D1 & D2 & D3).
  pose proof Sp as Sp'. rewrite forallb_app in Sp'. apply andb_prop in Sp' as [Sp1 Sp2].
  assert (W : forall w : list ascii, length w = 4 -> w <> []) by (intros [|] ? ?; discriminate).
  unfold re_aadhar, plain, seqs, times, opt, digit, space. cbn [pattern]. apply sem_seqs_intro.
  eapply sem_cons.
  { apply sem_boundary. cbn [endIndex]. rewrite word_before_app, Bl, (is_word_at_skipn _ _ _ K0).
    now rewrite (digits_head_word w1) by auto. }
  eapply sem_cons; [eapply (sem_times_seg _ _ is_digit); [reflexivity..|exact K0|exact L1|exact D1]|].
  eapply sem_cons; [eapply (sem_opt_seg _ _ is_js_space); [reflexivity..|exact K1|exact Ls1|exact Sp1]|].
  eapply sem_cons; [eapply (sem_times_seg _ _ is_digit); [reflexivity..|exact K2|exact L2|exact D2]|].
  eapply sem_cons; [eapply (sem_opt_seg _ _ is_js_space); [reflexivity..|exact K3|exact Ls2|exact Sp2]|].
  eapply sem_cons; [eapply (sem_times_seg _ _ is_digit); [reflexivity..|exact K4|exact L3|exact D3]|].
  eapply sem_cons; [|apply sem_nil].
  apply sem_boundary. cbn [endIndex]. rewrite (word_before_digits _ _ _ _ K4 (W _ L3) D3).
  now rewrite (is_word_at_skipn _ _ _ K5), Br.
Qed.

(** Every transition of the pattern starts on a digit, and the text has
    none before [P]. *)
Lemma number_no_earlier q z : q < P -> ~ sem input false (pattern re_aadhar) 0 (MState q []) z.
Proof.
  intros Hq S. destruct (number_starts_digits _ _ _ _ 0 S ltac:(rewrite !length_app; lia) ltac:(lia))
    as (c & Hc & Dc).
  rewrite Nat.add_0_r, nth_error_app1 in Hc by exact Hq. apply nth_error_In in Hc.
  rewrite forallb_app in N. apply andb_prop in N as [Np _]. rewrite forallb_forall in Np.
  specialize (Np c Hc). rewrite Dc in Np. discriminate.
Qed.

Lemma digits_of_text : filter is_digit (skipn P input) = w1 ++ w2 ++ w3.
Proof.
  destruct seg_positions as (K0 & _). rewrite K0.
  destruct (forallb_app3 _ _ _ _ D) as (D1 & D2 & D3). rewrite forallb_app in Sp, N.
  apply andb_prop in Sp as [Sp1 Sp2]. apply andb_prop in N as [_ Nq].
  rewrite !filter_app, (spaces_no_digit s1), (spaces_no_digit s2), (filter_none _ post),
    !forallb_filter_id by assumption.
  now rewrite app_nil_r.
Qed.

(** C12: the document number round trip.  Twelve digits printed in three
    groups of four, with at most one white-space code unit between two
    groups, in a text with no other digit and no word character right
    before or after them, are returned by [extractAadharNumber] as the
    twelve digits alone. *)
Theorem extractAadharNumber_roundtrip :
  Server.extractAadharNumber (string_of_list_ascii input) = JStr (string_of_list_ascii (w1 ++ w2 ++ w3)).
Proof.
  rewrite (extractAadharNumber_at input P (MState E [])); [| rewrite !length_app; lia | exact number_sem |].
  - rewrite digits_of_text, firstn_all2 by (rewrite !length_app; lia). reflexivity.
  - intros q z Hq. exact (number_no_earlier q z Hq).
Qed.

End Roundtrip.

Lemma extractAadharNumber_roundtrip_witness :
  Server.extractAadharNumber "No: 1234 5678 9012, DOB" = JStr "123456789012".
Proof.
  exact (extractAadharNumber_roundtrip (list_ascii_of_string "No: ") (list_ascii_of_string "1234")
    [" "%char] (list_ascii_of_string "5678") [" "%char] (list_ascii_of_string "9012")
    (list_ascii_of_string ", DOB") eq_refl eq_refl eq_refl eq_refl ltac:(simpl; lia) ltac:(simpl; lia)
    eq_refl eq_refl eq_refl eq_refl).
Defined.

(** ** A date of birth before the number *)

Lemma nth_error_at_length {A} (l r : list A) c : nth_error (l ++ c :: r) (length l) = Some c.
Proof. rewrite nth_error_app2, Nat.sub_diag by lia. reflexivity. Qed.

Local Ltac assoc_app := repeat (first [rewrite <- app_assoc | rewrite <- app_comm_cons]); reflexivity.
Local Ltac len := repeat (first [rewrite length_app | progress cbn [length]]); lia.

Section DateBefore.
Variables (pre dd mm yyyy s1 w1 s2 w2 post : list ascii).
(** A date [dd/mm/yyyy] (any two code units for the day and the month),
    then two groups of four digits, *)
Hypotheses (Ld : length dd = 2) (Lm : length mm = 2).
Hypotheses (Ly : length yyyy = 4) (L1 : length w1 = 4) (L2 : length w2 = 4).
Hypothesis D : forallb is_digit (yyyy ++ w1 ++ w2) = true.
(** at most one white-space code unit before each group, *)
Hypotheses (Ls1 : length s1 <= 1) (Ls2 : length s2 <= 1).
Hypothesis Sp : forallb is_js_space (s1 ++ s2) = true.
(** no digit before the date and no word character after the number. *)
Hypothesis Npre : forallb (fun c => negb (is_digit c)) pre = true.
Hypothesis Br : holds_at is_word_char post 0 = false.

Local Abbreviation date := (dd ++ "/"%char :: mm ++ ["/"%char]).
Local Abbreviation input := (pre ++ date ++ yyyy ++ s1 ++ w1 ++ s2 ++ w2 ++ post).
Local Abbreviation P := (length (pre ++ date)).

Lemma date_input : (pre ++ date) ++ yyyy ++ s1 ++ w1 ++ s2 ++ w2 ++ post = input.
Proof. assoc_app. Qed.

(** The slashes of the date, at [length pre + 2] and [length pre + 5]. *)
Lemma date_slashes :
  nth_error input (length (pre ++ dd)) = Some "/"%char
  /\ nth_error input (length (pre ++ dd ++ ["/"%char] ++ mm)) = Some "/"%char.
Proof.
  split.
  - replace input with ((pre ++ dd) ++ "/"%char :: mm ++ "/"%char :: yyyy ++ s1 ++ w1 ++ s2 ++ w2 ++ post)
      by assoc_app. apply nth_error_at_length.
  - replace input with ((pre ++ dd ++ ["/"%char] ++ mm) ++ "/"%char :: yyyy ++ s1 ++ w1 ++ s2 ++ w2 ++ post)
      by assoc_app. apply nth_error_at_length.
Qed.

(** No transition of the pattern starts before the year: four code units
    from any earlier position reach a code unit of [pre] or a slash. *)
Lemma date_no_earlier q z : q < P -> ~ sem input false (pattern re_aadhar) 0 (MState q []) z.
Proof.
  intros Hq S. assert (Lp : P = length pre + 6) by len.
  assert (Hin : q <= length input) by len.
  destruct date_slashes as [S1 S2].
  replace (length (pre ++ dd)) with (length pre + 2) in S1 by len.
  replace (length (pre ++ dd ++ ["/"%char] ++ mm)) with (length pre + 5) in S2 by len.
  destruct (Nat.lt_ge_cases q (length pre)) as [Hp|Hp].
  - destruct (number_starts_digits _ _ _ _ 0 S Hin ltac:(lia)) as (c & Hc & Dc).
    rewrite Nat.add_0_r, nth_error_app1 in Hc by exact Hp. apply nth_error_In in Hc.
    rewrite forallb_forall in Npre. specialize (Npre c Hc). rewrite Dc in Npre. discriminate.
  - assert (Ex : exists k, k < 4 /\ nth_error input (q + k) = Some "/"%char).
    { destruct (Nat.lt_ge_cases q (length pre + 3)).
      - exists (length pre + 2 - q). split; [lia|]. rewrite <- S1. f_equal. lia.
      - exists (length pre + 5 - q). split; [lia|]. rewrite <- S2. f_equal. lia. }
    destruct Ex as (k & Hk & Hs). destruct (number_starts_digits _ _ _ _ k S Hin Hk) as (c & Hc & Dc).
    rewrite Hs in Hc. injection Hc as <-. discriminate Dc.
Qed.

(** C13: a date of birth printed before the document number.  The text
    [dd/mm/yyyy] followed by twelve digits printed as three groups of four
    gives, to [extractAadharNumber], the year and the first eight digits
    of the number: the pattern's first match starts at the year, and its
    last group is cut short of the number's last four digits. *)
Theorem extractAadharNumber_takes_year :
  Server.extractAadharNumber (string_of_list_ascii input) = JStr (string_of_list_ascii (yyyy ++ w1 ++ w2)).
Proof.
  assert (Bl : holds_at is_word_char (pre ++ date) (length (pre ++ date) - 1) = false).
  { replace (pre ++ date) with ((pre ++ dd ++ "/"%char :: mm) ++ ["/"%char]) by assoc_app.
    unfold holds_at. rewrite length_app, Nat.add_sub, nth_error_at_length. reflexivity. }
  pose proof (number_sem (pre ++ date) yyyy s1 w1 s2 w2 post Ly L1 L2 D Ls1 Ls2 Sp Bl Br) as Ns.
  rewrite date_input in Ns.
  rewrite (extractAadharNumber_at input P _ ltac:(len) Ns date_no_earlier).
  destruct (seg_positions (pre ++ date) yyyy s1 w1 s2 w2 post) as (K0 & _).
  rewrite date_input in K0. rewrite K0.
  destruct (forallb_app3 _ _ _ _ D) as (D1 & D2 & D3). rewrite forallb_app in Sp.
  apply andb_prop in Sp as [Sp1 Sp2].
  rewrite !filter_app, (spaces_no_digit s1), (spaces_no_digit s2), !forallb_filter_id by assumption.
  cbn [app]. rewrite !app_assoc, firstn_app, firstn_all2 by (rewrite !length_app; lia).
  rewrite !length_app, L1, L2, Ly. cbn [Nat.sub Nat.add firstn]. now rewrite !app_nil_r.
Qed.

End DateBefore.

Lemma extractAadharNumber_takes_year_witness :
  Server.extractAadharNumber "DOB: 01/01/1985 1234 5678 9012 Male" = JStr "198512345678".
Proof.
  exact (extractAadharNumber_takes_year (list_ascii_of_string "DOB: ") (list_ascii_of_string "01")
    (list_ascii_of_string "01") (list_ascii_of_string "1985") [" "%char] (list_ascii_of_string "1234")
    [" "%char] (list_ascii_of_string "5678") (list_ascii_of_string " 9012 Male")
    eq_refl eq_refl eq_refl eq_refl eq_refl eq_refl ltac:(simpl; lia) ltac:(simpl; lia)
    eq_refl eq_refl eq_refl).
Defined.
