(* ===== verification/LabelledName.v ===== *)
(** * What the labelled name fallback returns

    [extractName] of DetailsExtraction.js:13-17 falls back, when no
    inline name was found, to [/Name:\s?([A-Za-z\s]+)/] and returns its
    group trimmed.  The declarative semantics alone does not say which
    run the group takes: the pattern ends after the group, so every
    shorter run is a transition too.  The greedy order of RepeatMatcher
    decides, so this file runs the matcher itself: the literal
    ([run_seq_lit]), the optional white space ([opt_char]) and the
    greedy group ([group_plus_char], through [repeat_greedy_char]).

    The result ([labelled_name_run]): after the first [Name:], the
    fallback takes the whole run of letters and white space and trims
    it.  So it swallows every word that follows the name up to the next
    other code unit, and a label followed by white space and a digit
    gives the empty string, not [null]. *)

From Stdlib Require Import Ascii String List Bool Arith Lia.
From S2P Require Import Prelude Chars Regex RegexFacts StringOps Extractors Normalizer FieldShapes.
Import ListNotations.

(** ** The matcher of a sequence of terms *)

Section Run.
Variable input : list ascii.













End Run.


Section Text.
Variables (pre u rest : list ascii).
(** No [N] before the label, so no earlier position starts a match; *)
Hypothesis Npre : forallb (fun c => negb (c =? "N")%char) pre = true.
(** a run of letters and white space after it, up to a code unit that
    is neither (or the end). *)
Hypotheses (Hu : u <> []) (Fu : forallb name_char u = true) (Br : holds_at name_char rest 0 = false).

Local Abbreviation input := (pre ++ list_ascii_of_string "Name:" ++ u ++ rest).
Local Abbreviation P := (length pre).




End Text.

