(* ===== verification/Assembler.v ===== *)
(** * Normalisation of one side and assembly of the record

    [cleanOCRText] (server.js:69-79) normalises the text of one side.
    It then runs the two side-local extractors and returns the object
    [{aadharNumber, name, rawText}] ([Side.t]).  [extractAadharDetails]
    (DetailsExtraction.js:1-11) builds the six-field record ([Rec.t])
    from the front and back sides.  The fields of the object literal are
    evaluated in source order, so the first extractor that throws
    decides the error.  The normaliser itself is in [Normalizer]; the
    formats of the fields come from [FieldShapes], and
    [record_field_formats] collects them for the whole record. *)

From Stdlib Require Import Ascii String List Bool Arith Lia.
From S2P Require Import Prelude Chars Regex RegexFacts StringOps Extractors Normalizer FieldShapes.
Import ListNotations.

(** The object returned by [cleanOCRText] (the spec's RecognizedSide). *)
Module Side.
Record t := mk { aadharNumber : jsv; name : jsv; rawText : string }.
End Side.

(** The object built by [extractAadharDetails] (the spec's DocumentRecord). *)
Module Rec.
Record t := mk { aadharNumber : jsv; name : jsv; dob : jsv; gender : jsv;
                   address : jsv; pin : jsv }.
End Rec.

(** server.js:69-79 [cleanOCRText] *)
Definition cleanOCRText (text : string) : Side.t :=
  let cleanedText := normalize text in
  Side.mk (Server.extractAadharNumber cleanedText) (Server.extractName cleanedText) cleanedText.

(** DetailsExtraction.js:1-11 [extractAadharDetails(front, back)] *)
Definition extractAadharDetails (front back : Side.t) : result Rec.t :=
  let aadharNumber :=
    js_or (js_or (Side.aadharNumber front) (Side.aadharNumber back)) JNull in
  let? name := Details.extractName (Side.rawText front) (Side.name front) in
  let dob := Details.extractDOB (Side.rawText front) in
  let gender := Details.extractGender (Side.rawText front) in
  let? address := Details.extractAddress (Side.rawText back) in
  let pin := Details.extractPin (Side.rawText back) in
  inr (Rec.mk aadharNumber name dob gender address pin).

(** ** The assembled record *)

(** The record field by field: the two extractors that could throw
    return, and every other field is its extractor applied to its side. *)
Lemma extractAadharDetails_fields front back :
  exists name address,
    Details.extractName (Side.rawText front) (Side.name front) = inr name
    /\ Details.extractAddress (Side.rawText back) = inr address
    /\ extractAadharDetails front back
       = inr (Rec.mk (js_or (js_or (Side.aadharNumber front) (Side.aadharNumber back)) JNull)
                     name (Details.extractDOB (Side.rawText front))
                     (Details.extractGender (Side.rawText front)) address
                     (Details.extractPin (Side.rawText back))).
Proof.
  destruct (extractName_total (Side.rawText front) (Side.name front)) as [name En].
  destruct (extractAddress_total (Side.rawText back)) as [address Ea].
  exists name, address. split; [exact En|]. split; [exact Ea|].
  unfold extractAadharDetails. rewrite En, Ea. reflexivity.
Qed.

(** C1: assembly never throws: for every pair of sides it returns a
    record (spec 8, "total function property"). *)
Theorem extractAadharDetails_total front back :
  exists d, extractAadharDetails front back = inr d.
Proof.
  destruct (extractAadharDetails_fields front back) as (n & a & _ & _ & E). eauto.
Qed.

(** C2: the number is the front's when it is truthy, else the back's when
    that is truthy, else [null]. *)
Theorem aadharNumber_precedence front back :
  exists d, extractAadharDetails front back = inr d /\
    Rec.aadharNumber d =
      (if js_truthy (Side.aadharNumber front) then Side.aadharNumber front
       else if js_truthy (Side.aadharNumber back) then Side.aadharNumber back
       else JNull).
Proof.
  destruct (extractAadharDetails_fields front back) as (n & a & _ & _ & E).
  eexists; split; [exact E|]. simpl. unfold js_or.
  destruct (js_truthy (Side.aadharNumber front)) eqn:Ef; simpl; rewrite ?Ef; [reflexivity|].
  destruct (js_truthy (Side.aadharNumber back)) eqn:Eb; simpl; rewrite ?Eb; reflexivity.
Qed.

(** C3: the name is the inline name found by [cleanOCRText] when that is
    truthy; only otherwise is the labelled [Name:] pattern run on the
    front text. *)
Theorem name_precedence front back :
  exists d, extractAadharDetails front back = inr d /\
    (js_truthy (Side.name front) = true -> Rec.name d = Side.name front) /\
    (js_truthy (Side.name front) = false ->
       Details.extractName (Side.rawText front) JNull = inr (Rec.name d)).
Proof.
  destruct (extractAadharDetails_fields front back) as (n & a & En & _ & E).
  eexists; split; [exact E|]. simpl. unfold Details.extractName in *.
  split; intros T; rewrite T in En.
  - congruence.
  - exact En.
Qed.

(** C25: name, date of birth and gender depend on the front side only;
    address and PIN on the back side only. *)
Theorem fields_side_independent front back front' back' d1 d2 d3 :
  extractAadharDetails front back = inr d1 ->
  extractAadharDetails front back' = inr d2 ->
  extractAadharDetails front' back = inr d3 ->
  (Rec.name d1, Rec.dob d1, Rec.gender d1) = (Rec.name d2, Rec.dob d2, Rec.gender d2)
  /\ (Rec.address d1, Rec.pin d1) = (Rec.address d3, Rec.pin d3).
Proof.
  destruct (extractAadharDetails_fields front back) as (n1 & a1 & N1 & A1 & ->).
  destruct (extractAadharDetails_fields front back') as (n2 & a2 & N2 & A2 & ->).
  destruct (extractAadharDetails_fields front' back) as (n3 & a3 & N3 & A3 & ->).
  intros [= <-] [= <-] [= <-]. simpl. split; congruence.
Qed.

Lemma fields_side_independent_witness :
  let front := cleanOCRText "DOB 01/02/2000 Male" in
  let back := cleanOCRText "Pune 411001" in
  let other := cleanOCRText "" in
  let d1 := Rec.mk JNull JNull (JStr "01/02/2000") (JStr "Male") JNull (JStr "411001") in
  let d2 := Rec.mk JNull JNull (JStr "01/02/2000") (JStr "Male") JNull JNull in
  let d3 := Rec.mk JNull JNull JNull JNull JNull (JStr "411001") in
  extractAadharDetails front back = inr d1 /\ extractAadharDetails front other = inr d2
  /\ extractAadharDetails other back = inr d3
  /\ (Rec.name d1, Rec.dob d1, Rec.gender d1) = (Rec.name d2, Rec.dob d2, Rec.gender d2)
  /\ (Rec.address d1, Rec.pin d1) = (Rec.address d3, Rec.pin d3).
Proof.
  intros front back other d1 d2 d3.
  assert (H1 : extractAadharDetails front back = inr d1) by (vm_compute; reflexivity).
  assert (H2 : extractAadharDetails front other = inr d2) by (vm_compute; reflexivity).
  assert (H3 : extractAadharDetails other back = inr d3) by (vm_compute; reflexivity).
  split; [exact H1|]. split; [exact H2|]. split; [exact H3|].
  exact (fields_side_independent front back other other d1 d2 d3 H1 H2 H3).
Defined.

(** ** The formats of the record *)

Lemma null_or_js_or P a b : null_or P a -> null_or P b -> null_or P (js_or (js_or a b) JNull).
Proof.
  intros Ha Hb. unfold js_or.
  destruct (js_truthy a) eqn:Ea; cbv iota; [rewrite Ea; exact Ha|].
  destruct (js_truthy b); [exact Hb | exact I].
Qed.

(** C7: the record built from two recognised sides has the formats of
    the specification's DocumentRecord (§3): the number is [null] or
    twelve digits, the date of birth [null] or [DD/MM/YYYY], the gender
    [null] or Male/Female/Other up to case, and the postal code [null] or
    six digits. *)
Theorem record_field_formats textFront textBack :
  exists d, extractAadharDetails (cleanOCRText textFront) (cleanOCRText textBack) = inr d
    /\ null_or twelve_digits (Rec.aadharNumber d) /\ null_or dd_mm_yyyy (Rec.dob d)
    /\ null_or gender_word (Rec.gender d) /\ null_or six_digits (Rec.pin d).
Proof.
  destruct (extractAadharDetails_fields (cleanOCRText textFront) (cleanOCRText textBack))
    as (n & a & _ & _ & E).
  eexists; split; [exact E|]. cbn [Rec.aadharNumber Rec.dob Rec.gender Rec.pin cleanOCRText Side.rawText
                                   Side.aadharNumber].
  split; [apply null_or_js_or; apply number_null_or|].
  split; [apply dob_null_or|]. split; [apply gender_null_or | apply pin_null_or].
Qed.
