(* ===== verification/Multer.v ===== *)
(** * multer: what reaches [req.files]

    The upload middleware of server.js:12-29: [multer.memoryStorage()]
    (line 12), the size limit and the [fileFilter] of the [multer({...})]
    call (lines 14-27), and [upload.fields([...])] (line 29).  multer and
    busboy are libraries; their processing of the parts is modelled from
    their documented behaviour ([multer_fields]): a part without a file
    name is drained and skipped, a part of an undeclared or full field is
    a [LIMIT_UNEXPECTED_FILE] error, then the repository's [fileFilter]
    decides, a file over the limit is a [LIMIT_FILE_SIZE] error, and the
    memory storage keeps the bytes in [buffer] and their count in
    [size].  [multer_files_valid] states what the handler may rely on. *)

From Stdlib Require Import Ascii String List Bool Arith NArith Lia.
From S2P Require Import Prelude Chars.
Import ListNotations.

(** ** Parts and files *)

Definition buffer := list Byte.byte.

(** A file part of the multipart body as busboy reports it: its form
    field, its file name, its declared type and its bytes. *)
Record part := Part
  { part_field : string; part_filename : string; part_mimetype : string; part_data : buffer }.

(** The [file] object of [req.files]. *)
Record upload_file := UploadFile
  { fieldname : string; mimetype : string; size : N; file_buffer : buffer }.

(** server.js:12 [multer.memoryStorage()]: [_handleFile] collects the
    stream into [file.buffer] and sets [file.size] to its length. *)
Definition memoryStorage (p : part) : upload_file :=
  UploadFile (part_field p) (part_mimetype p) (N.of_nat (length (part_data p))) (part_data p).

(** ** The configuration *)

(** server.js:20 *)
Definition allowedTypes : list string := ["image/jpeg"; "image/png"; "image/jpg"]%string.

(** server.js:19-26 [fileFilter]: accept, or reject with an error. *)
Definition fileFilter (file : part) : result bool :=
  if existsb (String.eqb (part_mimetype file)) allowedTypes then inr true
  else inl (JsError "Error" "Invalid file type. Only JPEG and PNG are allowed.").

(** server.js:17 [limits.fileSize] *)
Definition fileSizeLimit : N := 5 * 1024 * 1024.

(** server.js:29 [upload.fields([{frontSide, maxCount 1}, {backSide, maxCount 1}])] *)
Definition upload_fields : list (string * nat) := [("frontSide"%string, 1); ("backSide"%string, 1)].

(** ** multer's processing of the parts *)

(** The parts in arrival order.  A part without a file name is drained
    and skipped.  A part whose field is not declared, or is already full,
    is a [LIMIT_UNEXPECTED_FILE] error; otherwise its field's count goes
    down and [fileFilter] decides.  An accepted file longer than the
    limit is a [LIMIT_FILE_SIZE] error; the others are stored and grouped
    by field in [req.files]. *)
Fixpoint multer_fields (left : list (string * nat)) (acc : list (string * list upload_file))
    (parts : list part) : result (list (string * list upload_file)) :=
  match parts with
  | [] => inr acc
  | p :: ps =>
      if String.eqb (part_filename p) "" then multer_fields left acc ps
      else
      match find (fun q => String.eqb (fst q) (part_field p)) left with
      | None | Some (_, 0) => inl (JsError "MulterError" "Unexpected field")
      | Some (_, S n) =>
          let left' := map (fun q => if String.eqb (fst q) (part_field p) then (fst q, n) else q) left in
          match fileFilter p with
          | inl e => inl e
          | inr false => multer_fields left' acc ps
          | inr true =>
              if (fileSizeLimit <? N.of_nat (length (part_data p)))%N
              then inl (JsError "MulterError" "File too large")
              else
                let f := memoryStorage p in
                let acc' :=
                  match find (fun q => String.eqb (fst q) (fieldname f)) acc with
                  | Some _ => map (fun q => if String.eqb (fst q) (fieldname f)
                                            then (fst q, snd q ++ [f]) else q) acc
                  | None => acc ++ [(fieldname f, [f])]
                  end in
                multer_fields left' acc' ps
          end
      end
  end.

(** ** What multer lets through *)

(** The count left for field [k] in multer's table. *)
Definition count_left (left : list (string * nat)) (k : string) : nat :=
  match find (fun q => String.eqb (fst q) k) left with Some (_, n) => n | None => 0 end.

(** A file that passed [fileFilter] and the size limit, as the memory
    storage keeps it. *)
Definition part_ok (p : upload_file) : Prop :=
  In (mimetype p) allowedTypes /\ (size p <= fileSizeLimit)%N /\ size p = N.of_nat (length (file_buffer p)).

(** The invariant of [multer_fields]: every stored part sits under its
    own field and passed the checks, a field's stored parts and its count
    left add up to at most one, the fields stored are distinct and are
    the declared ones. *)
Definition multer_inv (left : list (string * nat)) (acc : list (string * list upload_file)) : Prop :=
  map fst left = ["frontSide"; "backSide"]%string
  /\ (forall k, count_left left k <= 1)
  /\ NoDup (map fst acc)
  /\ forall k l, In (k, l) acc ->
       In k (map fst left) /\ length l + count_left left k <= 1
       /\ forall p, In p l -> fieldname p = k /\ part_ok p.

Lemma find_key_Some {V} (l : list (string * V)) k q :
  find (fun q => String.eqb (fst q) k) l = Some q -> fst q = k /\ In q l.
Proof.
  intros H. destruct (find_some _ _ H) as [I E]. apply String.eqb_eq in E. auto.
Qed.

Lemma find_key_None {V} (l : list (string * V)) k :
  find (fun q => String.eqb (fst q) k) l = None -> ~ In k (map fst l).
Proof.
  intros H Hk. apply in_map_iff in Hk as (q & <- & Iq).
  pose proof (find_none _ _ H q Iq) as E. simpl in E. rewrite String.eqb_refl in E. discriminate.
Qed.

(** Decrementing field [kp] in the table. *)
Lemma count_left_dec left kp n k :
  count_left (map (fun q => if String.eqb (fst q) kp then (fst q, n) else q) left) k
  = if String.eqb k kp then (if existsb (fun q => String.eqb (fst q) k) left then n else 0)
    else count_left left k.
Proof.
  unfold count_left. induction left as [|[k0 c0] left IH]; simpl.
  - now destruct (String.eqb k kp).
  - destruct (String.eqb k0 kp) eqn:E0; simpl; destruct (String.eqb k0 k) eqn:E1; simpl.
    + apply String.eqb_eq in E0, E1. subst. now rewrite String.eqb_refl.
    + rewrite IH. apply String.eqb_eq in E0. subst. destruct (String.eqb k kp) eqn:E; [|reflexivity].
      apply String.eqb_eq in E. subst. rewrite String.eqb_refl in E1. discriminate.
    + apply String.eqb_eq in E1. subst. now rewrite E0.
    + exact IH.
Qed.

Lemma map_fst_update {V} (f : string * V -> V) kp (l : list (string * V)) :
  map fst (map (fun q => if String.eqb (fst q) kp then (fst q, f q) else q) l) = map fst l.
Proof. rewrite map_map. apply map_ext. intros q. now destruct (String.eqb (fst q) kp). Qed.

Lemma fileFilter_true p : fileFilter p = inr true <-> In (part_mimetype p) allowedTypes.
Proof.
  unfold fileFilter.
  destruct (existsb (String.eqb (part_mimetype p)) allowedTypes) eqn:E.
  - split; [intros _|reflexivity]. apply existsb_exists in E as (x & I & X).
    apply String.eqb_eq in X. now subst.
  - split; [discriminate|]. intros I. assert (existsb (String.eqb (part_mimetype p)) allowedTypes = true)
      by (apply existsb_exists; exists (part_mimetype p); split; [exact I | apply String.eqb_refl]).
    congruence.
Qed.

Lemma fileFilter_not_false p : fileFilter p <> inr false.
Proof. unfold fileFilter. now destruct (existsb _ _). Qed.

(** One accepted part keeps the invariant. *)
Lemma multer_inv_store left acc p k0 n :
  multer_inv left acc ->
  find (fun q => String.eqb (fst q) (fieldname p)) left = Some (k0, S n) -> part_ok p ->
  multer_inv (map (fun q => if String.eqb (fst q) (fieldname p) then (fst q, n) else q) left)
    (match find (fun q => String.eqb (fst q) (fieldname p)) acc with
     | Some _ => map (fun q => if String.eqb (fst q) (fieldname p)
                               then (fst q, snd q ++ [p]) else q) acc
     | None => acc ++ [(fieldname p, [p])]
     end).
Proof.
  set (kp := fieldname p). intros (Hk & Hc & Hnd & Hacc) F Ok.
  assert (C : count_left left kp = S n) by (unfold count_left; rewrite F; reflexivity).
  apply find_key_Some in F as [E0 I0]. simpl in E0. subst k0.
  assert (C' : forall k, count_left (map (fun q => if String.eqb (fst q) kp then (fst q, n) else q) left) k
                         = if String.eqb k kp then n else count_left left k).
  { intros k. rewrite count_left_dec. destruct (String.eqb k kp) eqn:E; [|reflexivity].
    apply String.eqb_eq in E. subst k. replace (existsb _ left) with true; [reflexivity|].
    symmetry. apply existsb_exists. exists (kp, S n). split; [exact I0 | apply String.eqb_refl]. }
  assert (Hn : n = 0) by (specialize (Hc kp); lia). subst n.
  pose proof (map_fst_update (fun _ => 0) kp left) as Mf.
  split; [rewrite Mf; exact Hk|]. split; [intros k; rewrite C'; destruct (String.eqb k kp); auto|].
  destruct (find (fun q => String.eqb (fst q) kp) acc) as [q|] eqn:Fa.
  - split; [rewrite map_fst_update; exact Hnd|]. intros k l' I.
    apply in_map_iff in I as ([k1 l1] & Eq & I1). simpl in Eq.
    destruct (Hacc _ _ I1) as (Ik & Lc & Pp). rewrite Mf. split; [|rewrite C'].
    + destruct (String.eqb k1 kp); injection Eq as <- _; exact Ik.
    + destruct (String.eqb k1 kp) eqn:Ek; injection Eq as <- <-.
      * apply String.eqb_eq in Ek. subst k1. rewrite String.eqb_refl, C in *.
        rewrite length_app. split; [simpl; lia|]. intros p0 [I|[<-|[]]]%in_app_or; [exact (Pp p0 I)|].
        split; [reflexivity | exact Ok].
      * rewrite Ek. split; [exact Lc | exact Pp].
  - apply find_key_None in Fa. rewrite map_app. split.
    { apply NoDup_app; [exact Hnd | repeat constructor; simpl; tauto |].
      intros a Ia [<-|[]]. exact (Fa Ia). }
    intros k l I. apply in_app_or in I as [I|[Eq|[]]].
    + destruct (Hacc _ _ I) as (Ik & Lc & Pp). rewrite Mf, C'.
      destruct (String.eqb k kp) eqn:Ek.
      * apply String.eqb_eq in Ek. subst k. exfalso. apply Fa. apply in_map_iff. now exists (kp, l).
      * auto.
    + injection Eq as <- <-. rewrite Mf, C', String.eqb_refl.
      split; [apply in_map_iff; now exists (kp, 1)|]. split; [simpl; lia|].
      intros p0 [<-|[]]. split; [reflexivity | exact Ok].
Qed.

Lemma multer_fields_inv : forall parts left acc files,
  multer_inv left acc -> multer_fields left acc parts = inr files -> exists left', multer_inv left' files.
Proof.
  induction parts as [|p ps IH]; intros left acc files Inv H; cbn [multer_fields] in H.
  - injection H as <-. eauto.
  - destruct (String.eqb (part_filename p) ""); [exact (IH _ _ _ Inv H)|].
    destruct (find (fun q => String.eqb (fst q) (part_field p)) left) as [[k0 [|n]]|] eqn:F;
      try discriminate.
    destruct (fileFilter p) as [e|[|]] eqn:Ff; [discriminate| |exfalso; exact (fileFilter_not_false p Ff)].
    destruct (fileSizeLimit <? N.of_nat (length (part_data p)))%N eqn:Sz; [discriminate|].
    eapply IH; [|exact H]. apply (multer_inv_store _ _ (memoryStorage p) k0); [exact Inv | exact F |].
    split; [apply fileFilter_true, Ff|]. split; [apply N.ltb_ge, Sz | reflexivity].
Qed.

(** A named part whose type the filter rejects makes multer fail,
    wherever it comes among the parts: an earlier part may fail first,
    its field may be undeclared or full, or the filter rejects it. *)
Lemma multer_fields_bad_type p : forall parts left acc,
  In p parts -> part_filename p <> ""%string ->
  existsb (String.eqb (part_mimetype p)) allowedTypes = false ->
  exists e, multer_fields left acc parts = inl e.
Proof.
  induction parts as [|p0 ps IH]; intros left acc I Hn Ht; [destruct I|]. cbn [multer_fields].
  destruct I as [->|I].
  - destruct (String.eqb_spec (part_filename p) "") as [E|_]; [contradiction|].
    destruct (find (fun q => String.eqb (fst q) (part_field p)) left) as [[k [|n]]|]; eauto.
    unfold fileFilter. rewrite Ht. eauto.
  - destruct (String.eqb (part_filename p0) ""); [eauto|].
    destruct (find (fun q => String.eqb (fst q) (part_field p0)) left) as [[k [|n]]|]; eauto.
    destruct (fileFilter p0) as [e|[|]] eqn:Ff; [eauto| |eauto].
    destruct (fileSizeLimit <? N.of_nat (length (part_data p0)))%N; eauto.
Qed.

(** The table of [upload.fields] and an empty [req.files]. *)
Lemma multer_inv_init : multer_inv upload_fields [].
Proof.
  split; [reflexivity|]. split; [|split; [constructor | intros k l []]].
  intros k. unfold count_left, upload_fields. cbn [find fst].
  destruct (String.eqb "frontSide" k); [simpl; lia|]. destruct (String.eqb "backSide" k); simpl; lia.
Qed.

Lemma multer_file_ok parts files k l f :
  multer_fields upload_fields [] parts = inr files -> In (k, l) files -> In f l -> part_ok f.
Proof.
  intros H I If. apply (multer_fields_inv _ _ _ _ multer_inv_init) in H as [left' (_ & _ & _ & Hacc)].
  exact (proj2 (proj2 (proj2 (Hacc k l I)) f If)).
Qed.

(** C31: what reaches the handler as [req.files]: each declared field at
    most once, with at most one file ([maxCount: 1]), and every file of a
    field has that field's name, a JPEG or PNG type, and a buffer whose
    length is its size, within the 5 MB limit. *)
Theorem multer_files_valid parts files :
  multer_fields upload_fields [] parts = inr files ->
  NoDup (map fst files)
  /\ forall k l, In (k, l) files ->
       In k ["frontSide"; "backSide"]%string /\ length l <= 1
       /\ forall p, In p l -> fieldname p = k /\ part_ok p.
Proof.
  intros H. apply (multer_fields_inv _ _ _ _ multer_inv_init) in H as [left' (Hk & _ & Hnd & Hacc)].
  split; [exact Hnd|]. intros k l I. destruct (Hacc k l I) as (Ik & Lc & Pp).
  rewrite Hk in Ik. split; [exact Ik|]. split; [lia | exact Pp].
Qed.

(** ** A concrete upload *)

Definition demo_front_part : part := Part "frontSide" "front.png" "image/png" [Byte.x01].
Definition demo_back_part : part := Part "backSide" "back.jpg" "image/jpeg" [Byte.x02].
Definition demo_gif_part : part := Part "frontSide" "front.gif" "image/gif" [Byte.x03].

(** [req.files] for the two parts above. *)
Definition demo_req_files : list (string * list upload_file) :=
  [("frontSide"%string, [memoryStorage demo_front_part]); ("backSide"%string, [memoryStorage demo_back_part])].

Lemma multer_files_valid_witness :
  multer_fields upload_fields [] [demo_front_part; demo_back_part]
  = inr demo_req_files
  /\ (NoDup (map fst demo_req_files)
      /\ forall k l, In (k, l) demo_req_files ->
           In k ["frontSide"; "backSide"]%string /\ length l <= 1
           /\ forall p, In p l -> fieldname p = k /\ part_ok p).
Proof.
  assert (H : multer_fields upload_fields [] [demo_front_part; demo_back_part]
              = inr demo_req_files)
    by (vm_compute; reflexivity).
  split; [exact H|]. exact (multer_files_valid _ _ H).
Defined.
