(* ===== verification/Server.v ===== *)
(** * The upload endpoint of server.js

    The handler of [POST /upload-aadhar] (server.js:29-48) and
    [performOCR] (server.js:50-67) are written in a monad [M].  [M] is
    ExtLib's [eitherT js_error] over [state trace]: a thrown error
    travels in the [eitherT] layer.  The trace records every call of the
    OCR engine, and it survives a throw, as the side effects of a
    JavaScript [await] do.  The Tesseract engine is an interface, the
    class [OcrEngine], and the handler's theorems hold for every
    instance.  [app_upload] composes the route: multer ([Multer]), whose
    errors go to the error middleware (server.js:93-99), then the
    handler. *)

From Stdlib Require Import Ascii String List Bool Arith NArith Lia.
From ExtLib Require Import Structures.Monad Structures.MonadState Structures.MonadExc.
From ExtLib Require Import Data.Monads.StateMonad Data.Monads.EitherMonad.
From S2P Require Import Prelude Chars Regex StringOps Extractors Assembler Multer.
Import ListNotations.
Import MonadNotation.
Local Open Scope monad_scope.

(** ** Requests and responses *)

(** [req.files]: [undefined], or the object from field names to arrays. *)
Definition files_object := option (list (string * list upload_file)).

(** The JSON bodies the endpoint sends. *)
Inductive body :=
| BodyDetails (d : Rec.t)                       (* res.json(data) *)
| BodyProcessingFailed (details : string)       (* {error: "Processing failed", details} *)
| BodyWentWrong (message : string).             (* {error: "Something went wrong!", message} *)

Record response := Response { status : nat; res_body : body }.

(** ** The OCR engine *)

(** [Tesseract.recognize(buffer, "eng", options)]: resolves with
    [data.text] or rejects with an error. *)
Class OcrEngine := { recognize : buffer -> js_error + string }.

(** What the handler does that is visible outside: calls of the engine. *)
Inductive event := OcrInvoked (b : buffer).
Definition trace := list event.

Definition M := eitherT js_error (state trace).

#[local] Instance Monad_M : Monad M := @Monad_eitherT js_error (state trace) (Monad_state trace).
#[local] Instance MonadExc_M : MonadExc js_error M :=
  @Exception_eitherT js_error (state trace) (Monad_state trace).
#[local] Instance MonadState_M : MonadState trace M :=
  @MonadState_eitherT js_error (state trace) (Monad_state trace) trace (MonadState_state trace).

Definition run {A} (c : M A) (s : trace) : (js_error + A) * trace :=
  runState (unEitherT c) s.

Create Rewrite HintDb run_db.

(** A value of [result] inside [M]: throw its error. *)
Definition lift_result {A} (r : result A) : M A :=
  match r with inl e => raise e | inr a => ret a end.

(** [files[key]] *)
Definition lookup_field (fs : list (string * list upload_file)) (key : string)
    : option (list upload_file) :=
  option_map snd (find (fun p => String.eqb (fst p) key) fs).

(** ** Running [M] *)

Lemma run_ret {A} (a : A) s : run (ret a) s = (inr a, s).
Proof. reflexivity. Qed.

Lemma run_raise {A} e s : run (raise e : M A) s = (inl e, s).
Proof. reflexivity. Qed.

Lemma run_bind {A B} (c : M A) (f : A -> M B) s :
  run (bind c f) s =
  match run c s with
  | (inl e, s') => (inl e, s')
  | (inr a, s') => run (f a) s'
  end.
Proof. unfold run. simpl. destruct (runState (unEitherT c) s) as [[e|a] s']; reflexivity. Qed.

Lemma run_catch {A} (c : M A) (h : js_error -> M A) s :
  run (catch c h) s =
  match run c s with
  | (inl e, s') => run (h e) s'
  | (inr a, s') => (inr a, s')
  end.
Proof. unfold run. simpl. destruct (runState (unEitherT c) s) as [[e|a] s']; reflexivity. Qed.

Lemma run_modify f s : run (modify f) s = (inr s, f s).
Proof. reflexivity. Qed.

Lemma run_lift_result {A} (r : result A) s :
  run (lift_result r) s = (r, s).
Proof. destruct r; reflexivity. Qed.

#[export] Hint Rewrite @run_ret @run_raise @run_bind @run_catch run_modify @run_lift_result : run_db.

(** Symbolic execution of an [M] program: the [run] equations, then the
    matches they expose. *)
Ltac run_simp := repeat progress (autorewrite with run_db; cbv beta iota).

Section Handler.
Context `{OcrEngine}.

(** [await Tesseract.recognize(imageBuffer, ...)] *)
Definition tesseract_recognize (b : buffer) : M string :=
  modify (fun t => t ++ [OcrInvoked b]) ;;
  lift_result (recognize b).

(** server.js:50-67 [performOCR]: recognise, then [cleanOCRText]; the
    catch logs and rethrows the same error. *)
Definition performOCR (imageBuffer : buffer) : M Side.t :=
  catch (text <- tesseract_recognize imageBuffer ;;
         let cleanedText := cleanOCRText text in
         ret cleanedText)
        (fun error => raise error).

(** [req.files[key][0]]: throws when [req.files] or [req.files[key]]
    is [undefined]; [undefined] when the array is empty. *)
Definition get_first_file (files : files_object) (key : string) : M (option upload_file) :=
  match files with
  | None => raise (read_property_error JUndef key)
  | Some fs =>
      match lookup_field fs key with
      | None => raise (read_property_error JUndef "0")
      | Some l => ret (nth_error l 0)
      end
  end.

(** [file.buffer] *)
Definition get_buffer (f : option upload_file) : M buffer :=
  match f with
  | Some f => ret (file_buffer f)
  | None => raise (read_property_error JUndef "buffer")
  end.

(** The body of the [try] block of server.js:30-40. *)
Definition upload_try (files : files_object) : M Rec.t :=
  frontSide <- get_first_file files "frontSide" ;;
  backSide <- get_first_file files "backSide" ;;
  frontBuffer <- get_buffer frontSide ;;
  frontOCR <- performOCR frontBuffer ;;
  backBuffer <- get_buffer backSide ;;
  backOCR <- performOCR backBuffer ;;
  lift_result (extractAadharDetails frontOCR backOCR).

(** server.js:29-48: 200 with the record, or 500 with
    ["Processing failed"] and the error's message. *)
Definition upload_handler (files : files_object) : M response :=
  catch (data <- upload_try files ;; ret (Response 200 (BodyDetails data)))
        (fun error => ret (Response 500 (BodyProcessingFailed (error_message error)))).
End Handler.

(** ** The error middleware *)

(** server.js:93-99: the error middleware. *)
Definition error_middleware (err : js_error) : response :=
  Response 500 (BodyWentWrong (error_message err)).

(** A multipart request to [/upload-aadhar]: multer, then the handler. *)
Definition app_upload `{OcrEngine} (parts : list part) : M response :=
  match multer_fields upload_fields [] parts with
  | inl err => ret (error_middleware err)
  | inr files => upload_handler (Some files)
  end.

(** ** The handler *)

Section HandlerFacts.
Context `{OcrEngine}.

Lemma run_performOCR b s :
  run (performOCR b) s =
  (match recognize b with inl e => inl e | inr text => inr (cleanOCRText text) end,
   s ++ [OcrInvoked b]).
Proof.
  unfold performOCR, tesseract_recognize. autorewrite with run_db.
  destruct (recognize b); reflexivity.
Qed.

(** Both files are present: [req.files[key][0]] for each. *)
Definition has_files (fs : list (string * list upload_file)) (f b : upload_file) : Prop :=
  (exists fl, lookup_field fs "frontSide" = Some (f :: fl))
  /\ (exists bl, lookup_field fs "backSide" = Some (b :: bl)).

Lemma run_upload_try fs f b s :
  has_files fs f b ->
  run (upload_try (Some fs)) s =
  match recognize (file_buffer f) with
  | inl e => (inl e, s ++ [OcrInvoked (file_buffer f)])
  | inr tf =>
      match recognize (file_buffer b) with
      | inl e => (inl e, s ++ [OcrInvoked (file_buffer f)] ++ [OcrInvoked (file_buffer b)])
      | inr tb => (extractAadharDetails (cleanOCRText tf) (cleanOCRText tb),
                   s ++ [OcrInvoked (file_buffer f)] ++ [OcrInvoked (file_buffer b)])
      end
  end.
Proof.
  intros [[fl Ef] [bl Eb]]. unfold upload_try, get_first_file, get_buffer.
  rewrite Ef, Eb. cbn [nth_error]. run_simp. rewrite run_performOCR.
  destruct (recognize (file_buffer f)) as [e|tf]; [reflexivity|].
  run_simp. rewrite run_performOCR, app_assoc.
  destruct (recognize (file_buffer b)); run_simp; reflexivity.
Qed.

(** C5: when OCR of the front image fails, the answer is 500 with
    ["Processing failed"] and the engine's message.  The back image
    is never recognised: the two awaits are sequential. *)
Theorem upload_front_ocr_fails fs f b e s :
  has_files fs f b -> recognize (file_buffer f) = inl e ->
  run (upload_handler (Some fs)) s
  = (inr (Response 500 (BodyProcessingFailed (error_message e))), s ++ [OcrInvoked (file_buffer f)]).
Proof.
  intros Hf He. unfold upload_handler. run_simp.
  rewrite (run_upload_try fs f b s Hf), He. reflexivity.
Qed.

(** C26: when OCR of the back image fails, the answer is 500 with the
    engine's message; no partial record is sent. *)
Theorem upload_back_ocr_fails fs f b tf e s :
  has_files fs f b -> recognize (file_buffer f) = inr tf -> recognize (file_buffer b) = inl e ->
  run (upload_handler (Some fs)) s
  = (inr (Response 500 (BodyProcessingFailed (error_message e))),
     s ++ [OcrInvoked (file_buffer f); OcrInvoked (file_buffer b)]).
Proof.
  intros Hf Ht He. unfold upload_handler. run_simp.
  rewrite (run_upload_try fs f b s Hf), Ht, He. reflexivity.
Qed.

(** C6: when both recognitions succeed the answer is 200 with the
    record assembled from the two normalised texts, front first. *)
Theorem upload_success fs f b tf tb s :
  has_files fs f b -> recognize (file_buffer f) = inr tf -> recognize (file_buffer b) = inr tb ->
  exists d, extractAadharDetails (cleanOCRText tf) (cleanOCRText tb) = inr d
    /\ run (upload_handler (Some fs)) s
       = (inr (Response 200 (BodyDetails d)),
          s ++ [OcrInvoked (file_buffer f); OcrInvoked (file_buffer b)]).
Proof.
  intros Hf Ht Hb.
  destruct (extractAadharDetails_fields (cleanOCRText tf) (cleanOCRText tb)) as (n & a & _ & _ & Ed).
  eexists. split; [exact Ed|]. unfold upload_handler. run_simp.
  rewrite (run_upload_try fs f b s Hf), Ht, Hb, Ed. reflexivity.
Qed.

Lemma run_get_buffer_Some f s : run (get_buffer (Some f)) s = (inr (file_buffer f), s).
Proof. reflexivity. Qed.

Lemma run_get_buffer_None s :
  run (get_buffer None) s = (inl (read_property_error JUndef "buffer"), s).
Proof. reflexivity. Qed.

#[local] Hint Rewrite run_get_buffer_Some run_get_buffer_None : run_db.

(** An OCR call on the buffer of the first file of a field of
    [req.files]. *)
Definition first_file_event (files : files_object) (e : event) : Prop :=
  exists fs k f l, files = Some fs /\ lookup_field fs k = Some (f :: l) /\ e = OcrInvoked (file_buffer f).

Ltac trace_done t :=
  eexists; exists t;
  split; [rewrite ?app_nil_r, <- ?app_assoc; reflexivity|];
  split; [simpl; lia|];
  split; [intros ? E; first [discriminate E | reflexivity]|];
  repeat (constructor; [do 4 eexists; split; [reflexivity|]; split; [|reflexivity]; eassumption|]);
  constructor.

(** Every run of the [try] block appends at most two OCR calls to the
    trace, exactly two when it returns a record, each on the first file
    of a field of [req.files]. *)
Lemma run_upload_try_trace files s :
  exists r t, run (upload_try files) s = (r, s ++ t) /\ length t <= 2
    /\ (forall d, r = inr d -> length t = 2) /\ Forall (first_file_event files) t.
Proof.
  unfold upload_try, get_first_file.
  destruct files as [fs|]; [|run_simp; trace_done (@nil event)].
  destruct (lookup_field fs "frontSide") as [lf|] eqn:Ef; [|run_simp; trace_done (@nil event)].
  destruct (lookup_field fs "backSide") as [lb|] eqn:Eb; [|run_simp; trace_done (@nil event)].
  run_simp. destruct lf as [|f lf]; cbn [nth_error]; [run_simp; trace_done (@nil event)|].
  run_simp. rewrite run_performOCR.
  destruct (recognize (file_buffer f)) as [e|tf]; [run_simp; trace_done [OcrInvoked (file_buffer f)]|].
  run_simp. destruct lb as [|b lb]; cbn [nth_error]; [run_simp; trace_done [OcrInvoked (file_buffer f)]|].
  run_simp. rewrite run_performOCR.
  destruct (recognize (file_buffer b)); run_simp;
    trace_done [OcrInvoked (file_buffer f); OcrInvoked (file_buffer b)].
Qed.

(** C11: the handler always answers and never throws: 200 with a record,
    or 500 with ["Processing failed"].  It calls the OCR engine at most
    twice, and exactly twice when it answers 200. *)
Theorem upload_handler_answers files s :
  exists r t, run (upload_handler files) s = (inr r, s ++ t) /\ length t <= 2
    /\ ((status r = 200 /\ length t = 2 /\ exists d, res_body r = BodyDetails d)
        \/ (status r = 500 /\ exists m, res_body r = BodyProcessingFailed m)).
Proof.
  destruct (run_upload_try_trace files s) as (r & t & E & L & Ok & _).
  unfold upload_handler. run_simp. rewrite E.
  destruct r as [e|d]; run_simp; eexists; exists t; (split; [reflexivity|]); (split; [exact L|]).
  - right. simpl. eauto.
  - left. simpl. split; [reflexivity|]. split; [exact (Ok d eq_refl) | eauto].
Qed.

(** C27: a request without a back image answers 500 before any OCR. *)
Theorem upload_missing_back fs f fl s :
  lookup_field fs "frontSide" = Some (f :: fl) -> lookup_field fs "backSide" = None ->
  run (upload_handler (Some fs)) s
  = (inr (Response 500 (BodyProcessingFailed
            "Cannot read properties of undefined (reading '0')")), s).
Proof.
  intros Ef Eb. unfold upload_handler, upload_try, get_first_file.
  rewrite Ef, Eb. run_simp. reflexivity.
Qed.
End HandlerFacts.

(** ** The application: multer, then the handler *)

Section AppFacts.
Context `{OcrEngine}.


(** C30: one named JPEG or PNG part per field, within the size limit,
    reaches the handler as [req.files = {frontSide: [f], backSide: [b]}],
    each file as the memory storage keeps it. *)
Theorem app_valid_upload f b s :
  part_filename f <> ""%string -> part_filename b <> ""%string ->
  part_field f = "frontSide"%string -> part_field b = "backSide"%string ->
  existsb (String.eqb (part_mimetype f)) allowedTypes = true ->
  existsb (String.eqb (part_mimetype b)) allowedTypes = true ->
  (N.of_nat (length (part_data f)) <= fileSizeLimit)%N ->
  (N.of_nat (length (part_data b)) <= fileSizeLimit)%N ->
  run (app_upload [f; b]) s
  = run (upload_handler (Some [("frontSide"%string, [memoryStorage f]);
                               ("backSide"%string, [memoryStorage b])])) s.
Proof.
  intros Nf Nb Ff Fb Tf Tb Sf Sb. unfold app_upload. cbn [multer_fields].
  destruct (String.eqb_spec (part_filename f) ""); [contradiction|].
  destruct (String.eqb_spec (part_filename b) ""); [contradiction|].
  rewrite Ff, Fb. unfold fileFilter. rewrite Tf, Tb. cbn -[fileSizeLimit memoryStorage upload_handler run].
  destruct (N.ltb_spec fileSizeLimit (N.of_nat (length (part_data f)))); [lia|].
  destruct (N.ltb_spec fileSizeLimit (N.of_nat (length (part_data b)))); [lia|].
  unfold memoryStorage. cbn [fieldname]. rewrite Ff, Fb. reflexivity.
Qed.

(** C29: a request carrying a named file part whose type is not JPEG or
    PNG, wherever it comes among the parts, is answered 500 by the error
    middleware, and the OCR engine is never called. *)
Theorem app_bad_type_no_ocr p parts s :
  In p parts -> part_filename p <> ""%string ->
  existsb (String.eqb (part_mimetype p)) allowedTypes = false ->
  exists m, run (app_upload parts) s = (inr (Response 500 (BodyWentWrong m)), s).
Proof.
  intros I Hn Ht. destruct (multer_fields_bad_type p parts upload_fields [] I Hn Ht) as [e E].
  exists (error_message e). unfold app_upload. rewrite E. reflexivity.
Qed.

Lemma lookup_field_In fs k l : lookup_field fs k = Some l -> In (k, l) fs.
Proof.
  unfold lookup_field. destruct (find _ fs) as [[k' l']|] eqn:F; [|discriminate].
  intros [=<-]. apply find_key_Some in F as [Ek I]. simpl in Ek. now subst.
Qed.

(** C15: the route never throws, and the OCR engine only ever receives
    the buffer of a file multer accepted: a JPEG or PNG of at most
    5 MB, at most twice per request. *)
Theorem app_ocr_inputs_valid parts s :
  exists r t, run (app_upload parts) s = (inr r, s ++ t) /\ length t <= 2
    /\ forall b, In (OcrInvoked b) t ->
         exists f, file_buffer f = b /\ In (mimetype f) allowedTypes
           /\ (N.of_nat (length b) <= fileSizeLimit)%N.
Proof.
  unfold app_upload. destruct (multer_fields upload_fields [] parts) as [err|files] eqn:Hm.
  - exists (error_middleware err), []. rewrite app_nil_r. split; [reflexivity|]. split; [simpl; lia | intros b []].
  - destruct (run_upload_try_trace (Some files) s) as (r & t & E & L & _ & F).
    unfold upload_handler. run_simp. rewrite E.
    destruct r; run_simp; eexists; exists t; (split; [reflexivity|]); (split; [exact L|]);
      intros b I; rewrite Forall_forall in F;
      destruct (F _ I) as (fs & k & f & l & [=<-] & Lk & [=->]);
      destruct (multer_file_ok parts files k (f :: l) f Hm (lookup_field_In _ _ _ Lk) (or_introl eq_refl))
        as (Ty & Sz & Eq);
      exists f; rewrite <- Eq; auto.
Qed.
End AppFacts.

(** ** Witnesses on a concrete engine *)

(** An engine that rejects an empty buffer and reads a fixed text
    otherwise. *)
#[local] Instance demo_engine : OcrEngine :=
  {| recognize := fun b => match b with
                           | [] => inl (JsError "Error" "Image is empty")
                           | _ => inr "Addresss/ 1 Main Road wa: Pune, MH 411001"%string
                           end |}.

Definition demo_front : upload_file := memoryStorage demo_front_part.
Definition demo_back : upload_file := memoryStorage demo_back_part.
Definition demo_blank : upload_file := memoryStorage (Part "frontSide" "blank.png" "image/png" []).
Definition demo_files (f b : upload_file) : list (string * list upload_file) :=
  [("frontSide"%string, [f]); ("backSide"%string, [b])].

Lemma upload_front_ocr_fails_witness :
  has_files (demo_files demo_blank demo_back) demo_blank demo_back
  /\ recognize (file_buffer demo_blank) = inl (JsError "Error" "Image is empty")
  /\ run (upload_handler (Some (demo_files demo_blank demo_back))) []
     = (inr (Response 500 (BodyProcessingFailed "Image is empty")), [OcrInvoked []]).
Proof.
  assert (Hf : has_files (demo_files demo_blank demo_back) demo_blank demo_back)
    by (split; eexists; reflexivity).
  split; [exact Hf|]. split; [reflexivity|].
  exact (upload_front_ocr_fails _ _ _ _ [] Hf eq_refl).
Defined.

Lemma upload_back_ocr_fails_witness :
  has_files (demo_files demo_front demo_blank) demo_front demo_blank
  /\ recognize (file_buffer demo_front) = inr "Addresss/ 1 Main Road wa: Pune, MH 411001"%string
  /\ recognize (file_buffer demo_blank) = inl (JsError "Error" "Image is empty")
  /\ run (upload_handler (Some (demo_files demo_front demo_blank))) []
     = (inr (Response 500 (BodyProcessingFailed "Image is empty")),
        [OcrInvoked [Byte.x01]; OcrInvoked []]).
Proof.
  assert (Hf : has_files (demo_files demo_front demo_blank) demo_front demo_blank)
    by (split; eexists; reflexivity).
  split; [exact Hf|]. split; [reflexivity|]. split; [reflexivity|].
  exact (upload_back_ocr_fails _ _ _ _ _ [] Hf eq_refl eq_refl).
Defined.

Lemma upload_success_witness :
  has_files (demo_files demo_front demo_back) demo_front demo_back
  /\ recognize (file_buffer demo_front) = inr "Addresss/ 1 Main Road wa: Pune, MH 411001"%string
  /\ recognize (file_buffer demo_back) = inr "Addresss/ 1 Main Road wa: Pune, MH 411001"%string
  /\ exists d, extractAadharDetails (cleanOCRText "Addresss/ 1 Main Road wa: Pune, MH 411001")
                 (cleanOCRText "Addresss/ 1 Main Road wa: Pune, MH 411001") = inr d
     /\ run (upload_handler (Some (demo_files demo_front demo_back))) []
        = (inr (Response 200 (BodyDetails d)), [OcrInvoked [Byte.x01]; OcrInvoked [Byte.x02]]).
Proof.
  assert (Hf : has_files (demo_files demo_front demo_back) demo_front demo_back)
    by (split; eexists; reflexivity).
  split; [exact Hf|]. split; [reflexivity|]. split; [reflexivity|].
  exact (upload_success _ _ _ _ _ [] Hf eq_refl eq_refl).
Defined.

Lemma upload_missing_back_witness :
  lookup_field [("frontSide"%string, [demo_front])] "frontSide" = Some [demo_front]
  /\ lookup_field [("frontSide"%string, [demo_front])] "backSide" = None
  /\ run (upload_handler (Some [("frontSide"%string, [demo_front])])) []
     = (inr (Response 500 (BodyProcessingFailed
               "Cannot read properties of undefined (reading '0')")), []).
Proof.
  split; [reflexivity|]. split; [reflexivity|].
  exact (upload_missing_back [("frontSide"%string, [demo_front])] demo_front [] [] eq_refl eq_refl).
Defined.


Lemma app_valid_upload_witness :
  part_filename demo_front_part <> ""%string /\ part_filename demo_back_part <> ""%string
  /\ part_field demo_front_part = "frontSide"%string /\ part_field demo_back_part = "backSide"%string
  /\ existsb (String.eqb (part_mimetype demo_front_part)) allowedTypes = true
  /\ existsb (String.eqb (part_mimetype demo_back_part)) allowedTypes = true
  /\ (N.of_nat (length (part_data demo_front_part)) <= fileSizeLimit)%N
  /\ (N.of_nat (length (part_data demo_back_part)) <= fileSizeLimit)%N
  /\ run (app_upload [demo_front_part; demo_back_part]) []
     = run (upload_handler (Some [("frontSide"%string, [demo_front]); ("backSide"%string, [demo_back])])) [].
Proof.
  assert (Nf : part_filename demo_front_part <> ""%string) by discriminate.
  assert (Nb : part_filename demo_back_part <> ""%string) by discriminate.
  assert (Sf : (N.of_nat (length (part_data demo_front_part)) <= fileSizeLimit)%N) by (vm_compute; discriminate).
  assert (Sb : (N.of_nat (length (part_data demo_back_part)) <= fileSizeLimit)%N) by (vm_compute; discriminate).
  split; [exact Nf|]. split; [exact Nb|]. do 4 (split; [reflexivity|]). split; [exact Sf|]. split; [exact Sb|].
  exact (app_valid_upload demo_front_part demo_back_part [] Nf Nb eq_refl eq_refl eq_refl eq_refl Sf Sb).
Defined.


Definition demo_gif_back_part : part := Part "backSide" "back.gif" "image/gif" [Byte.x04].

Lemma app_bad_type_no_ocr_witness :
  In demo_gif_back_part [demo_front_part; demo_gif_back_part]
  /\ part_filename demo_gif_back_part <> ""%string
  /\ existsb (String.eqb (part_mimetype demo_gif_back_part)) allowedTypes = false
  /\ exists m, run (app_upload [demo_front_part; demo_gif_back_part]) []
               = (inr (Response 500 (BodyWentWrong m)), []).
Proof.
  assert (I : In demo_gif_back_part [demo_front_part; demo_gif_back_part]) by (right; left; reflexivity).
  assert (Hn : part_filename demo_gif_back_part <> ""%string) by discriminate.
  split; [exact I|]. split; [exact Hn|]. split; [reflexivity|].
  exact (app_bad_type_no_ocr _ _ [] I Hn eq_refl).
Defined.
