(* ===== verification/Async.v ===== *)
(** * The upload handler as an asynchronous request machine

    [Server.upload_handler] runs the handler of server.js:29-48 with the
    engine as a function.  In Node the handler is an [async] function:
    it runs up to [await performOCR(frontSide.buffer)] (line 34), which
    starts a Tesseract job and gives control back to the event loop; the
    job settles later with a text or an error, and the handler resumes,
    starts the back job (line 35), waits again, and answers.

    [phase] is where a request stands: [Received], waiting for the front
    or the back job, or [Sent].  [on_received], [on_front] and
    [on_back] are the code between two awaits; a request's log records
    the jobs it started.  [req_succ] lets a waiting job settle with any
    outcome; its omnisemantics step ([omni]) is used with coqutil's
    [eventually] and [always].

    The theorems: every request is answered whatever its jobs return
    ([request_answered]); a request starts at most two jobs, on its front
    file and then on its back file ([request_jobs_in_order]).  Requests
    share no state in the source, so the event loop's interleaving of
    several requests changes none of this and is not modelled apart.
    [machine_refines_handler] checks that the two models of lines 29-48
    agree: settling each job as an engine answers takes the machine to
    the response and trace of [Server.upload_handler]. *)

From Stdlib Require Import Ascii String List Bool Arith Lia.
From coqutil Require Import Semantics.OmniSmallstepCombinators.
From S2P Require Import Prelude Chars Regex StringOps Extractors Assembler Multer Server.
Import ListNotations.

(** ** Omnisemantics of a small-step relation *)

Section Omni.
Context {S : Type} (succ : S -> S -> Prop).

(** [s] can move, and every state it can move to is in [P]. *)
Definition omni (s : S) (P : S -> Prop) : Prop := (exists s', succ s s') /\ forall s', succ s s' -> P s'.

Lemma omni_weaken s P Q : (forall x, P x -> Q x) -> omni s P -> omni s Q.
Proof. intros W [E H]. split; [exact E | intros s' Hs; apply W, H, Hs]. Qed.

(** A measure that every move decreases, until [P] holds. *)
Lemma eventually_measure (P : S -> Prop) (m : S -> nat) :
  (forall s, P s \/ omni s (fun s' => m s' < m s)) -> forall s, eventually omni P s.
Proof.
  intros H s. remember (m s) as n eqn:E. revert s E.
  induction n as [n IH] using lt_wf_ind. intros s ->.
  destruct (H s) as [Hp | Hs]; [now apply eventually_done|].
  apply (eventually_step omni P s _ Hs). intros s' Lt. exact (IH _ Lt s' eq_refl).
Qed.

Inductive star : S -> S -> Prop :=
| star_refl s : star s s
| star_step s s' s'' : succ s s' -> star s' s'' -> star s s''.

Lemma star_trans s s' s'' : star s s' -> star s' s'' -> star s s''.
Proof. induction 1; eauto using star. Qed.

End Omni.

(** ** One request *)

Inductive phase :=
| Received (files : files_object)
| AwaitingFront (job : buffer) (backSide : option upload_file)
| AwaitingBack (job : buffer) (frontOCR : Side.t)
| Sent (r : response).

(** A request: where it stands, and the jobs it started. *)
Abbreviation request := (phase * trace)%type.

(** The [catch] block, server.js:41-47. *)
Definition fail (e : js_error) : phase := Sent (Response 500 (BodyProcessingFailed (error_message e))).

(** server.js:31-34 up to the first await: read both files and start the
    front job. *)
Definition on_received (files : files_object) : phase * trace :=
  match files with
  | None => (fail (read_property_error JUndef "frontSide"), [])
  | Some fs =>
      match lookup_field fs "frontSide" with
      | None => (fail (read_property_error JUndef "0"), [])
      | Some lf =>
          match lookup_field fs "backSide" with
          | None => (fail (read_property_error JUndef "0"), [])
          | Some lb =>
              match nth_error lf 0 with
              | None => (fail (read_property_error JUndef "buffer"), [])
              | Some f => (AwaitingFront (file_buffer f) (nth_error lb 0), [OcrInvoked (file_buffer f)])
              end
          end
      end
  end.

(** server.js:34-35: the front job settles; [performOCR] cleans its text
    or rethrows, and the handler starts the back job. *)
Definition on_front (backSide : option upload_file) (r : js_error + string) : phase * trace :=
  match r with
  | inl e => (fail e, [])
  | inr text =>
      match backSide with
      | None => (fail (read_property_error JUndef "buffer"), [])
      | Some b => (AwaitingBack (file_buffer b) (cleanOCRText text), [OcrInvoked (file_buffer b)])
      end
  end.

(** server.js:35-40: the back job settles; assemble and answer. *)
Definition on_back (frontOCR : Side.t) (r : js_error + string) : phase :=
  match r with
  | inl e => fail e
  | inr text =>
      match extractAadharDetails frontOCR (cleanOCRText text) with
      | inl e => fail e
      | inr d => Sent (Response 200 (BodyDetails d))
      end
  end.

(** A request moves: the code up to the first await runs, or the pending
    job settles with any outcome.  A request that has answered stays as
    it is. *)
Inductive req_succ : request -> request -> Prop :=
| succ_received files log :
    req_succ (Received files, log)
             (fst (on_received files), log ++ snd (on_received files))
| succ_front job back log r :
    req_succ (AwaitingFront job back, log) (fst (on_front back r), log ++ snd (on_front back r))
| succ_back job fo log r :
    req_succ (AwaitingBack job fo, log) (on_back fo r, log)
| succ_sent r log :
    req_succ (Sent r, log) (Sent r, log).

Definition is_sent (p : phase) : bool := if p is Sent _ then true else false.

Definition answered (q : request) : Prop := is_sent (fst q) = true.

Definition rank (p : phase) : nat :=
  match p with Received _ => 3 | AwaitingFront _ _ => 2 | AwaitingBack _ _ => 1 | Sent _ => 0 end.

(** The jobs a request has started: none, or the front file's, then the
    back file's. *)
Definition jobs_ok (files : files_object) (log : trace) : Prop :=
  log = []
  \/ exists fs f lf lb, files = Some fs /\ lookup_field fs "frontSide" = Some (f :: lf)
       /\ lookup_field fs "backSide" = Some lb
       /\ (log = [OcrInvoked (file_buffer f)]
           \/ exists b lb', lb = b :: lb' /\ log = [OcrInvoked (file_buffer f); OcrInvoked (file_buffer b)]).

(** What each phase knows of the request's files and jobs. *)
Definition req_inv (files : files_object) (q : request) : Prop :=
  match fst q with
  | Received fs' => fs' = files /\ snd q = []
  | AwaitingFront job back =>
      exists fs f lf lb, files = Some fs /\ lookup_field fs "frontSide" = Some (f :: lf)
        /\ lookup_field fs "backSide" = Some lb /\ back = nth_error lb 0
        /\ job = file_buffer f /\ snd q = [OcrInvoked job]
  | AwaitingBack job _ =>
      exists fs f lf b lb, files = Some fs /\ lookup_field fs "frontSide" = Some (f :: lf)
        /\ lookup_field fs "backSide" = Some (b :: lb)
        /\ job = file_buffer b /\ snd q = [OcrInvoked (file_buffer f); OcrInvoked job]
  | Sent _ => jobs_ok files (snd q)
  end.

(** ** Facts on one request *)

Lemma req_can_move q : exists q', req_succ q q'.
Proof.
  destruct q as [[files|job back|job fo|r] log]; eexists;
    [apply succ_received | apply (succ_front _ _ _ (inl (JsError "Error" "job failed")))
    | apply (succ_back _ _ _ (inl (JsError "Error" "job failed"))) | apply succ_sent].
Qed.

Lemma on_back_sent fo r : is_sent (on_back fo r) = true.
Proof. destruct r; simpl; [reflexivity|]. now destruct (extractAadharDetails _ _). Qed.

Lemma req_progress q : answered q \/ omni req_succ q (fun q' => rank (fst q') < rank (fst q)).
Proof.
  destruct q as [[files|job back|job fo|r] log]; [right..| left; reflexivity].
  all: split; [apply req_can_move|]; intros q' Hs; inversion Hs; subst; cbn [fst rank].
  - unfold on_received. destruct files as [fs|]; [|simpl; lia].
    destruct (lookup_field fs "frontSide"); [|simpl; lia].
    destruct (lookup_field fs "backSide"); [|simpl; lia].
    destruct (nth_error _ 0); simpl; lia.
  - destruct r as [e|text]; [simpl; lia|]. destruct back; simpl; lia.
  - pose proof (on_back_sent fo r). destruct (on_back fo r); simpl in *; (lia || discriminate).
Qed.

(** C14: liveness of a request.  Whatever the OCR jobs return, and
    whenever they settle, every request is eventually answered. *)
Theorem request_answered files log : eventually (omni req_succ) answered (Received files, log).
Proof. apply (eventually_measure req_succ answered (fun q => rank (fst q)) req_progress). Qed.

Lemma jobs_ok_sent files q : req_inv files q -> jobs_ok files (snd q).
Proof.
  destruct q as [[files'|job back|job fo|r] log]; cbn [req_inv fst snd].
  - intros [_ ->]. now left.
  - intros (fs & f & lf & lb & Hf & Ef & Eb & _ & -> & ->). right. exists fs, f, lf, lb. auto 6.
  - intros (fs & f & lf & b & lb & Hf & Ef & Eb & -> & ->). right. exists fs, f, lf, (b :: lb). eauto 10.
  - exact id.
Qed.

Lemma req_inv_step files q : req_inv files q -> omni req_succ q (req_inv files).
Proof.
  intros I. split; [apply req_can_move|]. intros q' Hs.
  inversion Hs as [files' log| job back log r| job fo log r| r log]; subst; cbn [req_inv fst snd] in *.
  - destruct I as [-> ->]. unfold on_received. destruct files as [fs|]; [|now left].
    destruct (lookup_field fs "frontSide") as [lf|] eqn:Ef; [|now left].
    destruct (lookup_field fs "backSide") as [lb|] eqn:Eb; [|now left].
    destruct lf as [|f lf]; [now left|]. cbn. exists fs, f, lf, lb. auto 6.
  - destruct I as (fs & f & lf & lb & Hf & Ef & Eb & -> & -> & ->).
    destruct r as [e|text]; cbn; [right; exists fs, f, lf, lb; auto 6|].
    destruct lb as [|b lb]; cbn; [right; exists fs, f, lf, []; auto 6|]. exists fs, f, lf, b, lb. auto 6.
  - apply (jobs_ok_sent files (AwaitingBack job fo, log)) in I. pose proof (on_back_sent fo r).
    destruct (on_back fo r); [discriminate..|exact I].
  - exact I.
Qed.

(** C16: safety of a request's jobs.  Whatever the jobs return, in every
    state a request reaches the jobs it has started are none, the job
    on the buffer of its front file, or that job and then the job on the
    buffer of its back file: at most two, in this order, each on the
    first file of its field. *)
Theorem request_jobs_in_order files :
  always (omni req_succ) (fun q => jobs_ok files (snd q)) (Received files, []).
Proof.
  apply (mk_always _ _ _ (req_inv files)); [split; reflexivity | apply req_inv_step | apply jobs_ok_sent].
Qed.

(** ** The machine driven by an engine *)

Section Engine.
Context `{OcrEngine}.

(** The job a request waits for settles as the engine answers. *)
Definition engine_step (q : request) : request :=
  match fst q with
  | Received files => (fst (on_received files), snd q ++ snd (on_received files))
  | AwaitingFront job back =>
      (fst (on_front back (recognize job)), snd q ++ snd (on_front back (recognize job)))
  | AwaitingBack job fo => (on_back fo (recognize job), snd q)
  | Sent _ => q
  end.

Lemma engine_step_succ q : req_succ q (engine_step q).
Proof. destruct q as [[files|job back|job fo|r] log]; constructor. Qed.

Lemma iter_engine_star n q : star req_succ q (Nat.iter n engine_step q).
Proof.
  induction n as [|n IH]; [apply star_refl|]. cbn [Nat.iter].
  apply (star_trans _ _ _ _ IH). eapply star_step; [apply engine_step_succ | apply star_refl].
Qed.

Ltac agree := eexists _, _; split; [reflexivity | run_simp; rewrite ?app_nil_r, <- ?app_assoc; reflexivity].

(** Three engine steps take a request to the handler's answer and its
    trace. *)
Lemma engine_agrees files s0 :
  exists r log, engine_step (engine_step (engine_step (Received files, []))) = (Sent r, log)
    /\ run (upload_handler files) s0 = (inr r, s0 ++ log).
Proof.
  unfold upload_handler, upload_try, get_first_file, get_buffer, performOCR, tesseract_recognize,
    engine_step, on_received, on_front.
  destruct files as [fs|]; [|agree]. cbn [fst snd].
  destruct (lookup_field fs "frontSide") as [lf|]; [|agree].
  destruct (lookup_field fs "backSide") as [lb|]; [|agree].
  destruct lf as [|f lf]; cbn [nth_error fst snd]; [agree|]. run_simp.
  destruct (recognize (file_buffer f)) as [e|tf]; [agree|].
  destruct lb as [|b lb]; cbn [nth_error fst snd]; [agree|]. run_simp.
  destruct (recognize (file_buffer b)) as [e|tb]; [agree|]. unfold on_back. run_simp.
  destruct (extractAadharDetails _ _); agree.
Qed.
End Engine.

(** The two models of server.js:29-48 agree.  The run of
    [Server.upload_handler], with the engine as a function, is an
    execution of the request machine: settling each job as the engine
    answers, three moves take the request to the handler's response,
    and the jobs it started are the handler's trace. *)
Theorem machine_refines_handler `{OcrEngine} files s0 :
  exists r log, star req_succ (Received files, []) (Sent r, log)
    /\ Nat.iter 3 engine_step (Received files, []) = (Sent r, log)
    /\ run (upload_handler files) s0 = (inr r, s0 ++ log).
Proof.
  destruct (engine_agrees files s0) as (r & log & E & R). exists r, log.
  split; [rewrite <- E; exact (iter_engine_star 3 _) | split; [exact E | exact R]].
Qed.
