(* ===== verification/Scenarios.v ===== *)
(** * The scenarios of the specification, evaluated

    Section 8 of the specification lists concrete inputs and the outputs
    it expects.  Each is stated here about the model of the code and
    decided by evaluation.  Where the code answers differently from the
    specification, the statement gives the code's answer; PROJECT.json
    records those cases as findings. *)

From Stdlib Require Import Ascii String List Bool Arith Lia.
From S2P Require Import Prelude Chars Regex RegexFacts StringOps Extractors Normalizer Assembler.
Import ListNotations.
Local Open Scope string_scope.

(** The full scenario.  The code takes the year of the date of birth
    as the first four digits of the number ("1985 1234 5678" matches
    before "1234 5678 9012").  It finds no name: [NAME:] is not
    [Name:], and no two words are capitalised in title case.  It keeps
    the PIN at the end of the address. *)
Example spec_full_scenario :
  extractAadharDetails
    (cleanOCRText "NAME: ARUN KUMAR DOB:01/01/1985 1234 5678 9012 Male")
    (cleanOCRText "Addresss/ 12 Park Street wa: Bangalore, Karnataka 560001")
  = inr (Rec.mk (JStr "198512345678") JNull (JStr "01/01/1985") (JStr "Male")
                (JStr "12 Park Street, Bangalore, Karnataka 560001") (JStr "560001")).
Proof. vm_compute. reflexivity. Qed.

(** A number grouped in fours loses its spaces; so does one with a
    single group separator; sixteen digits in a row do not match. *)
Example spec_grouped_number :
  Server.extractAadharNumber "1234 5678 9012" = JStr "123456789012"
  /\ Server.extractAadharNumber "ID 12345678 9012." = JStr "123456789012"
  /\ Server.extractAadharNumber "1234567890123456" = JNull.
Proof. vm_compute. repeat split. Qed.

(** The number must stand alone: a letter glued to it removes the word
    boundary, and nothing is found. *)
Example spec_number_glued :
  Server.extractAadharNumber "No: A1234 5678 9012" = JNull
  /\ Server.extractAadharNumber "No: 1234 5678 9012A" = JNull.
Proof. vm_compute. split; reflexivity. Qed.

(** Without a number on the front, the back's number is used. *)
Example spec_number_from_back :
  extractAadharDetails (cleanOCRText "Name: RAVI") (cleanOCRText "9999 8888 7777")
  = inr (Rec.mk (JStr "999988887777") (JStr "RAVI") JNull JNull JNull JNull).
Proof. vm_compute. reflexivity. Qed.

(** [DOB: 05/06/1990] yields the date; [DOB] with no date after it
    yields [null]. *)
Example spec_dob :
  Details.extractDOB "DOB: 05/06/1990" = JStr "05/06/1990"
  /\ Details.extractDOB "DOB~ 05/06/1990" = JStr "05/06/1990"
  /\ Details.extractDOB "DOB pending" = JNull.
Proof. vm_compute. repeat split. Qed.

(** Gender matches whole words in any case and returns the text as
    written. *)
Example spec_gender :
  Details.extractGender "Sex: female" = JStr "female"
  /\ Details.extractGender "MALE" = JStr "MALE"
  /\ Details.extractGender "Females" = JNull.
Proof. vm_compute. repeat split. Qed.

(** A standalone six-digit run is the PIN; a seven-digit run is not. *)
Example spec_pin :
  Details.extractPin "Bangalore 560001" = JStr "560001"
  /\ Details.extractPin "Code 5600011" = JNull
  /\ Details.extractPin "no digits" = JNull.
Proof. vm_compute. repeat split. Qed.

(** The inline name wins over a labelled one.  The labelled fallback
    takes every letter and space after [Name:], so it also swallows the
    words that follow the name. *)
Example spec_name :
  (exists d, extractAadharDetails (cleanOCRText "Ravi Kumar Name: Anil") (cleanOCRText "")
             = inr d /\ Rec.name d = JStr "Ravi Kumar")
  /\ Details.extractName "Name: RAVI KUMAR 1990" JNull = inr (JStr "RAVI KUMAR")
  /\ Details.extractName "Name: RAVI KUMAR DOB 01/01/1985" JNull = inr (JStr "RAVI KUMAR DOB").
Proof.
  split; [eexists; split; [vm_compute; reflexivity | reflexivity] |].
  vm_compute. split; reflexivity.
Qed.

(** The normaliser collapses runs of white space (here TAB and LF)
    to one space and trims both ends. *)
Example spec_normalize :
  normalize (String (ascii_of_nat 9) " a  b" ++ String (ascii_of_nat 10) (String (ascii_of_nat 10) "c "))
  = "a b c".
Proof. vm_compute. reflexivity. Qed.

(** A [Name:] label followed by a space and no letter gives the
    empty string, not [null]: [\s?] backtracks so that [[A-Za-z\s]+]
    captures the space alone, and [.trim()] empties it.  The record then
    holds [name: ""]. *)
Example spec_name_empty :
  Details.extractName "Name: 1" JNull = inr (JStr "")
  /\ (exists d, extractAadharDetails (cleanOCRText "Name:  1990 DOB 01/01/1990") (cleanOCRText "")
                = inr d /\ Rec.name d = JStr "").
Proof. split; [vm_compute; reflexivity | eexists; split; [vm_compute; reflexivity | reflexivity]]. Qed.
